(** * Landing-page structure suite: a shallow embedding

  The repository is a Playwright suite ([tests/html-structure.spec.js])
  and its runner configuration ([playwright.config.js]).  This file
  embeds the JavaScript string operations the suite relies on, a model of
  the document the browser exposes, the Playwright locator and assertion
  operations the suite calls, and the test bodies themselves; it then
  proves what those test bodies accept and reject. *)

From Stdlib Require Import String Ascii List ZArith Lia Bool Arith.
Import ListNotations.

Local Open Scope string_scope.
Local Open Scope list_scope.
Local Open Scope nat_scope.

(* ===================================================================== *)
(** * JavaScript strings and numbers *)
(* ===================================================================== *)

Module Js.

(** [s.includes(needle)], which is also what [expect(s).toContain(needle)]
    tests on a string: [needle] occurs in [s] as a contiguous substring. *)
Fixpoint includes (needle s : string) : bool :=
  String.prefix needle s
  || match s with
     | EmptyString => false
     | String _ rest => includes needle rest
     end.

(** ** Text

    A string holds the UTF-8 encoding of a JavaScript string, the way a
    string literal of this file is read: one byte for an ASCII character,
    a lead byte and one to three continuation bytes for any other.  Two
    well-formed strings are equal, or one occurs in the other, as byte
    strings exactly when they are as JavaScript strings. *)

Definition bytes (ns : list nat) : string :=
  string_of_list_ascii (map ascii_of_nat ns).

(** A continuation byte, [10xxxxxx]. *)
Definition is_continuation (c : ascii) : bool :=
  let n := nat_of_ascii c in
  ((128 <=? n)%nat && (n <=? 191)%nat)%bool.

(** The characters of a string, each as the bytes that encode it: a byte
    that is not a continuation byte starts a character, and the
    continuation bytes after it belong to it. *)
Fixpoint characters (s : string) : list string :=
  match s with
  | EmptyString => []
  | String c rest =>
      match characters rest with
      | (String c' _ as k) :: ks =>
          if is_continuation c' then String c k :: ks
          else String c EmptyString :: k :: ks
      | ks => String c EmptyString :: ks
      end
  end.

(** The characters that [\s], [trim] and [parseInt] take for white space
    (ECMAScript WhiteSpace and LineTerminator): tab, line feed, vertical
    tab, form feed, carriage return, space, U+00A0, U+1680, U+2000 to
    U+200A, U+2028, U+2029, U+202F, U+205F, U+3000 and U+FEFF. *)
Definition white_space : list string :=
  [ bytes [9]; bytes [10]; bytes [11]; bytes [12]; bytes [13]; bytes [32];
    bytes [194; 160];
    bytes [225; 154; 128];
    bytes [226; 128; 128]; bytes [226; 128; 129]; bytes [226; 128; 130];
    bytes [226; 128; 131]; bytes [226; 128; 132]; bytes [226; 128; 133];
    bytes [226; 128; 134]; bytes [226; 128; 135]; bytes [226; 128; 136];
    bytes [226; 128; 137]; bytes [226; 128; 138];
    bytes [226; 128; 168]; bytes [226; 128; 169];
    bytes [226; 128; 175];
    bytes [226; 129; 159];
    bytes [227; 128; 128];
    bytes [239; 187; 191] ].

Definition is_white_space (c : string) : bool :=
  existsb (String.eqb c) white_space.

(** The characters left when the white space at the front is dropped. *)
Fixpoint drop_spaces (cs : list string) : list string :=
  match cs with
  | [] => []
  | c :: rest => if is_white_space c then drop_spaces rest else cs
  end.

(** [s.trimStart()] *)
Definition skip_spaces (s : string) : string :=
  String.concat "" (drop_spaces (characters s)).

(** [s.trim()] *)
Definition trim (s : string) : string :=
  String.concat "" (rev (drop_spaces (rev (drop_spaces (characters s))))).

(** The maximal runs of characters that are not white space, left to
    right, each run as one string. *)
Fixpoint runs (cur : string) (cs : list string) : list string :=
  match cs with
  | [] =>
      match cur with EmptyString => [] | _ => [cur] end
  | c :: rest =>
      if is_white_space c
      then match cur with
           | EmptyString => runs EmptyString rest
           | _ => cur :: runs EmptyString rest
           end
      else runs (cur ++ c) rest
  end.

(** The zero-width space U+200B and the soft hyphen U+00AD. *)
Definition is_invisible (c : string) : bool :=
  existsb (String.eqb c) [bytes [226; 128; 139]; bytes [194; 173]].

(** Playwright's [normalizeWhiteSpace]:
    [text.replace(/[\u200b\u00ad]/g, '').trim().replace(/\s+/g, ' ')].
    The invisible characters go, runs of white space collapse to one space
    and the ends are trimmed. *)
Definition normalizeWhiteSpace (s : string) : string :=
  String.concat " "
    (runs EmptyString (filter (fun c => negb (is_invisible c)) (characters s))).

(** The UTF-16 code units a byte of the encoding stands for: none for a
    continuation byte, two for the lead byte of a four-byte sequence (a
    character beyond U+FFFF, a surrogate pair), one otherwise. *)
Definition code_units (c : ascii) : nat :=
  if is_continuation c then 0
  else if (240 <=? nat_of_ascii c)%nat then 2 else 1.

(** [s.length]: the number of UTF-16 code units of [s]. *)
Fixpoint utf16_length (s : string) : nat :=
  match s with
  | EmptyString => 0
  | String c rest => code_units c + utf16_length rest
  end.

(** The maximal runs of characters that are not separators, left to
    right, for separators that are single bytes. *)
Fixpoint split_runs (sep : ascii -> bool) (cur : string) (s : string)
  : list string :=
  match s with
  | EmptyString =>
      match cur with EmptyString => [] | _ => [cur] end
  | String c rest =>
      if sep c
      then match cur with
           | EmptyString => split_runs sep EmptyString rest
           | _ => cur :: split_runs sep EmptyString rest
           end
      else split_runs sep (cur ++ String c EmptyString) rest
  end.

(** Upper case for the ASCII letters, every other byte as it is: the
    upper-casing the DOM applies to the tag names of HTML elements and the
    case folding of selectors. *)
Definition upper_ascii (c : ascii) : ascii :=
  let n := nat_of_ascii c in
  if ((97 <=? n)%nat && (n <=? 122)%nat)%bool
  then ascii_of_nat (n - 32)
  else c.

Fixpoint toUpperCase (s : string) : string :=
  match s with
  | EmptyString => EmptyString
  | String c rest => String (upper_ascii c) (toUpperCase rest)
  end.

(** [s.substring(1)] for a string that starts with an ASCII character,
    as a tag name does: the string without its first character. *)
Definition substring1 (s : string) : string :=
  match s with
  | EmptyString => EmptyString
  | String _ rest => rest
  end.

(** JavaScript numbers as far as the suite computes with them: integers
    and [NaN]. *)
Inductive num : Type :=
| Int (z : Z)
| NaN.

Definition sub (a b : num) : num :=
  match a, b with
  | Int x, Int y => Int (x - y)
  | _, _ => NaN
  end.

(** [a <= b]; every comparison with [NaN] is false. *)
Definition le (a b : num) : bool :=
  match a, b with
  | Int x, Int y => (x <=? y)%Z
  | _, _ => false
  end.

(** [a > b]. *)
Definition gt (a b : num) : bool :=
  match a, b with
  | Int x, Int y => (y <? x)%Z
  | _, _ => false
  end.

Definition digit_value (radix : Z) (c : ascii) : option Z :=
  let n := Z.of_nat (nat_of_ascii c) in
  let v :=
    if ((48 <=? n) && (n <=? 57))%Z then Some (n - 48)%Z
    else if ((97 <=? n) && (n <=? 122))%Z then Some (n - 87)%Z
    else if ((65 <=? n) && (n <=? 90))%Z then Some (n - 55)%Z
    else None in
  match v with
  | Some k => if (k <? radix)%Z then Some k else None
  | None => None
  end.

(** The longest prefix of digits of [s] in the radix, read as a number;
    [None] when [s] does not start with a digit. *)
Fixpoint digits (radix : Z) (acc : option Z) (s : string) : option Z :=
  match s with
  | EmptyString => acc
  | String c rest =>
      match digit_value radix c with
      | Some k =>
          digits radix
            (Some (match acc with Some a => a * radix + k | None => k end)%Z)
            rest
      | None => acc
      end
  end.

Definition unsigned_int (s : string) : option Z :=
  match s with
  | String "0" (String x rest) =>
      if Ascii.eqb x "x" || Ascii.eqb x "X"
      then digits 16 None rest
      else digits 10 None s
  | _ => digits 10 None s
  end.

(** [parseInt(s)] with no radix argument: leading white space is skipped,
    a sign is read, a [0x] prefix selects radix 16, and the longest prefix
    of digits is the value; [NaN] when there is no digit. *)
Definition parseInt (s : string) : num :=
  let s := skip_spaces s in
  let '(sign, body) :=
    match s with
    | String "-" rest => ((-1)%Z, rest)
    | String "+" rest => (1%Z, rest)
    | _ => (1%Z, s)
    end in
  match unsigned_int body with
  | Some v => Int (sign * v)
  | None => NaN
  end.

(** The values an [expect] of the suite receives. *)
Inductive value : Type :=
| Undefined
| Null
| Bool (b : bool)
| Num (n : num)
| Str (s : string).

(** What [getAttribute] hands back, as a value: the string, or [null]. *)
Definition of_attr (a : option string) : value :=
  match a with
  | Some s => Str s
  | None => Null
  end.

(** JavaScript truthiness. *)
Definition truthy (v : value) : bool :=
  match v with
  | Undefined | Null => false
  | Bool b => b
  | Num (Int z) => negb (z =? 0)%Z
  | Num NaN => false
  | Str s => negb (String.eqb s "")
  end.

(** [xs[i]] as an operand of arithmetic: an index out of range reads
    [undefined], which arithmetic turns into [NaN]. *)
Definition index (xs : list num) (i : nat) : num := nth i xs NaN.

Definition num_eqb (a b : num) : bool :=
  match a, b with
  | Int x, Int y => (x =? y)%Z
  | NaN, NaN => true
  | _, _ => false
  end.

(** [Object.is(a, b)], the comparison behind [toBe]. *)
Definition same_value (a b : value) : bool :=
  match a, b with
  | Undefined, Undefined => true
  | Null, Null => true
  | Bool x, Bool y => Bool.eqb x y
  | Num x, Num y => num_eqb x y
  | Str x, Str y => String.eqb x y
  | _, _ => false
  end.

(** [a === b]: as [Object.is], except that [NaN] differs from itself. *)
Definition strict_equal (a b : value) : bool :=
  match a, b with
  | Num NaN, Num NaN => false
  | _, _ => same_value a b
  end.

(** The length of an array as a number. *)
Definition length_of {A : Type} (xs : list A) : num :=
  Int (Z.of_nat (List.length xs)).

End Js.

(* ===================================================================== *)
(** * The document *)
(* ===================================================================== *)

Module Dom.

(** A node of the loaded page: a text node or an element with its local
    name (lower case, as selectors write it), its attributes in source
    order and its child nodes in document order.  The child nodes are those
    of the DOM: the contents of a [template] and shadow trees are not among
    them, and comments are left out. *)
#[warnings="-register-all"]
Inductive node : Type :=
| Text (data : string)
| Element (localName : string) (attributes : list (string * string))
          (childNodes : list node).

(** The page is its root element. *)
Definition document : Type := node.

Definition localName (n : node) : string :=
  match n with
  | Text _ => ""
  | Element name _ _ => name
  end.

(** [el.tagName]: the upper-cased name of an HTML element. *)
Definition tagName (n : node) : string := Js.toUpperCase (localName n).

Fixpoint lookup (name : string) (attrs : list (string * string))
  : option string :=
  match attrs with
  | [] => None
  | (k, v) :: rest => if String.eqb k name then Some v else lookup name rest
  end.

(** [el.getAttribute(name)]: the value of the first attribute of that
    name, [None] (JavaScript [null]) when the element has none. *)
Definition getAttribute (n : node) (name : string) : option string :=
  match n with
  | Text _ => None
  | Element _ attrs _ => lookup name attrs
  end.

(** [el.textContent]: the text of all descendant text nodes, in order. *)
Fixpoint textContent (n : node) : string :=
  match n with
  | Text s => s
  | Element _ _ kids => String.concat "" (map textContent kids)
  end.

(** An element of the page together with its position: the child indices
    that lead to it from the root.  Two handles are the same element
    exactly when their paths are equal. *)
Record handle : Type := Handle { path : list nat; target : node }.

(** The elements of a subtree in document order (pre-order). *)
Fixpoint handles_at (p : list nat) (n : node) {struct n} : list handle :=
  match n with
  | Text _ => []
  | Element _ _ kids =>
      Handle p n
      :: (fix children (i : nat) (ks : list node) {struct ks} : list handle :=
            match ks with
            | [] => []
            | k :: ks' => handles_at (p ++ [i]) k ++ children (S i) ks'
            end) 0 kids
  end.

Definition handles (d : document) : list handle := handles_at [] d.

(** [p] is a proper prefix of [q]: the element at [q] lies strictly inside
    the element at [p]. *)
Fixpoint inside (p q : list nat) : bool :=
  match p, q with
  | [], [] => false
  | [], _ :: _ => true
  | _ :: _, [] => false
  | i :: p', j :: q' => (i =? j) && inside p' q'
  end.

(** ** Selectors

    The CSS the suite writes, as syntax: a selector list (commas) of
    compound selectors, each a conjunction of simple selectors.  The suite's
    selector strings are transcribed by hand, next to each use.  Matching
    is that of an HTML document in no-quirks mode (the suite's first test
    requires the doctype): ids and classes are compared exactly. *)
Inductive simple : Type :=
| Tag (name : string)                 (* [name]           *)
| Class (c : string)                  (* [.c]             *)
| Id (i : string)                     (* [#i]             *)
| HasAttr (a : string)                (* [[a]]            *)
| AttrEq (a v : string).              (* [[a="v"]]        *)

Definition compound : Type := list simple.
Definition selector : Type := list compound.

(** The attributes whose values an attribute selector compares without
    regard to ASCII case on the elements of an HTML document (HTML
    Standard, case-sensitivity of selectors). *)
Definition case_insensitive_attributes : list string :=
  [ "accept"; "accept-charset"; "align"; "alink"; "axis"; "bgcolor";
    "charset"; "checked"; "clear"; "codetype"; "color"; "compact";
    "declare"; "defer"; "dir"; "direction"; "disabled"; "enctype"; "face";
    "frame"; "hreflang"; "http-equiv"; "lang"; "language"; "link"; "media";
    "method"; "multiple"; "nohref"; "noresize"; "noshade"; "nowrap";
    "readonly"; "rel"; "rev"; "rules"; "scope"; "scrolling"; "selected";
    "shape"; "target"; "text"; "type"; "valign"; "valuetype"; "vlink" ].

(** The two strings are equal up to the case of their ASCII letters. *)
Definition eqb_ignoring_case (v w : string) : bool :=
  String.eqb (Js.toUpperCase v) (Js.toUpperCase w).

(** The comparison of [[a="v"]] between the attribute's value and [v]. *)
Definition value_matches (a actual v : string) : bool :=
  if existsb (String.eqb a) case_insensitive_attributes
  then eqb_ignoring_case actual v
  else String.eqb actual v.

Definition attr_is (n : node) (a v : string) : bool :=
  match getAttribute n a with
  | Some w => value_matches a w v
  | None => false
  end.

Definition has_attr (n : node) (a : string) : bool :=
  match getAttribute n a with
  | Some _ => true
  | None => false
  end.

(** ASCII white space as HTML separates tokens with it: space, tab, line
    feed, form feed, carriage return. *)
Definition is_html_space (c : ascii) : bool :=
  existsb (Ascii.eqb c) [" "; "009"; "010"; "012"; "013"]%char.

(** The tokens of a space-separated attribute value ([class], [rel]). *)
Definition tokens (value : string) : list string :=
  Js.split_runs is_html_space EmptyString value.

Definition has_class (n : node) (c : string) : bool :=
  match getAttribute n "class" with
  | Some cls => existsb (String.eqb c) (tokens cls)
  | None => false
  end.

Definition matches_simple (n : node) (s : simple) : bool :=
  match s with
  | Tag name => String.eqb (localName n) name
  | Class c => has_class n c
  | Id i => attr_is n "id" i
  | HasAttr a => has_attr n a
  | AttrEq a v => attr_is n a v
  end.

Definition matches_compound (n : node) (c : compound) : bool :=
  forallb (matches_simple n) c.

Definition matches (n : node) (s : selector) : bool :=
  existsb (matches_compound n) s.

(** [document.querySelectorAll(s)]: the matching elements in document
    order. *)
Definition querySelectorAll (d : document) (s : selector) : list handle :=
  filter (fun h => matches (target h) s) (handles d).

(** ** Identifiers

    [`#${id}`] is an id selector for [id] when [id] is a CSS identifier.
    The identifiers taken here are the plain ones: an optional hyphen, a
    letter or an underscore, then letters, digits, hyphens and
    underscores.  Other strings make another selector or none (a leading
    digit, a lone hyphen or a hyphen before a digit is a syntax error), or
    need escapes. *)
Definition is_letter (c : ascii) : bool :=
  let n := nat_of_ascii c in
  (((97 <=? n)%nat && (n <=? 122)%nat)
   || ((65 <=? n)%nat && (n <=? 90)%nat))%bool.

Definition is_digit (c : ascii) : bool :=
  let n := nat_of_ascii c in
  ((48 <=? n)%nat && (n <=? 57)%nat)%bool.

Definition ident_start (c : ascii) : bool :=
  is_letter c || Ascii.eqb c "_".

Definition ident_char (c : ascii) : bool :=
  ident_start c || is_digit c || Ascii.eqb c "-".

Fixpoint all_ident_chars (s : string) : bool :=
  match s with
  | EmptyString => true
  | String c rest => ident_char c && all_ident_chars rest
  end.

Definition is_identifier (s : string) : bool :=
  match s with
  | String "-" (String c rest) => ident_start c && all_ident_chars rest
  | String c rest => ident_start c && all_ident_chars rest
  | EmptyString => false
  end.

(** ** Namespaces

    The page is an HTML document as the HTML parser builds it.  Its root
    is an HTML element, and an element's namespace follows from its name
    and its parent: [svg] and [math] open foreign content, whose elements
    stay in the namespace of their parent until an integration point goes
    back to HTML. *)
Inductive namespace : Type := HTML | SVG | MathML.

Definition namespace_eqb (a b : namespace) : bool :=
  match a, b with
  | HTML, HTML | SVG, SVG | MathML, MathML => true
  | _, _ => false
  end.

Definition named (n : node) (names : list string) : bool :=
  existsb (String.eqb (localName n)) names.

(** An HTML integration point: an SVG [foreignObject], [desc] or [title],
    or a MathML [annotation-xml] whose encoding is HTML. *)
Definition html_integration_point (ns : namespace) (n : node) : bool :=
  match ns with
  | HTML => false
  | SVG => named n ["foreignObject"; "desc"; "title"]
  | MathML =>
      named n ["annotation-xml"]
      && match getAttribute n "encoding" with
         | Some e => eqb_ignoring_case e "text/html"
                     || eqb_ignoring_case e "application/xhtml+xml"
         | None => false
         end
  end.

(** The namespace of an element the parser inserts in HTML content. *)
Definition in_html_content (child : node) : namespace :=
  if named child ["svg"] then SVG
  else if named child ["math"] then MathML
  else HTML.

(** The namespace of a child, from the namespace of its parent. *)
Definition child_namespace (ns : namespace) (parent child : node)
  : namespace :=
  match ns with
  | HTML => in_html_content child
  | SVG =>
      if html_integration_point SVG parent then in_html_content child
      else SVG
  | MathML =>
      if named parent ["mi"; "mo"; "mn"; "ms"; "mtext"]
      then if named child ["mglyph"; "malignmark"] then MathML
           else in_html_content child
      else if named parent ["annotation-xml"] && named child ["svg"] then SVG
      else if html_integration_point MathML parent then in_html_content child
      else MathML
  end.

(** The namespace of the node at path [p] below [n], which is in [ns]. *)
Fixpoint namespace_below (ns : namespace) (n : node) (p : list nat)
  : namespace :=
  match p, n with
  | i :: p', Element _ _ kids =>
      match nth_error kids i with
      | Some k => namespace_below (child_namespace ns n k) k p'
      | None => ns
      end
  | _, _ => ns
  end.

Definition namespace_of (d : document) (p : list nat) : namespace :=
  namespace_below HTML d p.

(** [el.nodeName]: the upper-cased name for an HTML element, the name as
    it is for any other. *)
Definition nodeName (ns : namespace) (n : node) : string :=
  match ns with
  | HTML => Js.toUpperCase (localName n)
  | _ => localName n
  end.

(** ** Element text

    The text Playwright matches against ([elementText] of its injected
    script): the text nodes below the element in order, without the
    content of [script], [noscript] and [style] elements and of the
    elements in the document's [head]; a submit or button [input] counts
    with its value. *)
Definition skipped_for_text (ns : namespace) (n : node) : bool :=
  existsb (String.eqb (nodeName ns n)) ["SCRIPT"; "NOSCRIPT"; "STYLE"].

(** [root instanceof HTMLInputElement] with [root.type] one of [submit]
    and [button]. *)
Definition is_button_input (ns : namespace) (n : node) : bool :=
  namespace_eqb ns HTML
  && String.eqb (localName n) "input"
  && match getAttribute n "type" with
     | Some t => eqb_ignoring_case t "submit" || eqb_ignoring_case t "button"
     | None => false
     end.

(** [input.value] of such an input: the [value] attribute, or the empty
    string. *)
Definition input_value (n : node) : string :=
  match getAttribute n "value" with
  | Some v => v
  | None => EmptyString
  end.

Fixpoint text_below (ns : namespace) (n : node) {struct n} : string :=
  match n with
  | Text data => data
  | Element _ _ kids =>
      if skipped_for_text ns n then EmptyString
      else if is_button_input ns n then input_value n
      else String.concat ""
             (map (fun k => text_below (child_namespace ns n k) k) kids)
  end.

(** [document.head]: the first [head] child of the [html] root, as a
    child index. *)
Fixpoint first_named (name : string) (i : nat) (kids : list node)
  : option nat :=
  match kids with
  | [] => None
  | k :: rest =>
      if String.eqb (localName k) name then Some i
      else first_named name (S i) rest
  end.

Definition head_index (d : document) : option nat :=
  match d with
  | Element "html" _ kids => first_named "head" 0 kids
  | _ => None
  end.

(** [document.head.contains(el)] for the element at path [p]. *)
Definition in_head (d : document) (p : list nat) : bool :=
  match head_index d, p with
  | Some i, j :: _ => i =? j
  | _, _ => false
  end.

(** The text of the root element: its children but the head. *)
Definition root_text (d : document) : string :=
  match d with
  | Text data => data
  | Element _ _ kids =>
      if skipped_for_text HTML d then EmptyString
      else if is_button_input HTML d then input_value d
      else String.concat ""
             (map (fun ik => if in_head d [fst ik] then EmptyString
                             else text_below (child_namespace HTML d (snd ik))
                                             (snd ik))
                  (combine (seq 0 (length kids)) kids))
  end.

Definition elementText (d : document) (h : handle) : string :=
  if in_head d (path h) then EmptyString
  else match path h with
       | [] => root_text d
       | p => text_below (namespace_of d p) (target h)
       end.

(** ** The document title

    [document.title]: the child text of the first HTML [title] element in
    document order, with ASCII white space stripped and collapsed; empty
    when there is none.  A [title] inside [svg] is an SVG element and does
    not count. *)
Definition child_text (n : node) : string :=
  match n with
  | Text _ => EmptyString
  | Element _ _ kids =>
      String.concat ""
        (map (fun k => match k with Text s => s | Element _ _ _ => EmptyString end)
             kids)
  end.

Definition is_html_title (d : document) (h : handle) : bool :=
  String.eqb (localName (target h)) "title"
  && namespace_eqb (namespace_of d (path h)) HTML.

Definition title (d : document) : string :=
  match filter (is_html_title d) (handles d) with
  | h :: _ => String.concat " " (tokens (child_text (target h)))
  | [] => EmptyString
  end.

End Dom.

(* ===================================================================== *)
(** * Playwright: locators, actions and assertions *)
(* ===================================================================== *)

Module Playwright.

Import Dom.

(** A locator is a description of how to find elements, resolved against
    the page each time it is used. *)
Inductive locator : Type :=
| Page_locator (s : selector)               (* [page.locator(s)]  *)
| Locator (parent : locator) (s : selector) (* [parent.locator(s)] *)
| Nth (l : locator) (i : nat)               (* [l.nth(i)]          *)
| First (l : locator)                       (* [l.first()]         *)
| Last (l : locator).                       (* [l.last()]          *)

(** The elements a locator resolves to, in document order.  A chained
    locator selects among the elements strictly inside one of its parent's
    elements. *)
Fixpoint resolve (d : document) (l : locator) : list handle :=
  match l with
  | Page_locator s => querySelectorAll d s
  | Locator parent s =>
      let roots := resolve d parent in
      filter (fun h => existsb (fun r => inside (path r) (path h)) roots)
             (querySelectorAll d s)
  | Nth l' i =>
      match nth_error (resolve d l') i with
      | Some h => [h]
      | None => []
      end
  | First l' =>
      match resolve d l' with
      | h :: _ => [h]
      | [] => []
      end
  | Last l' =>
      match rev (resolve d l') with
      | h :: _ => [h]
      | [] => []
      end
  end.

(** Why a test stops: the error an awaited action or an [expect] throws. *)
Inductive failure : Type :=
| StrictModeViolation (l : locator) (resolved : nat)
    (* the locator of a single-element operation resolved to several *)
| NoElement (operation : string) (l : locator)
    (* no element to act on within the time allowed *)
| LocatorExpectation (matcher : string) (l : locator)
                     (expected received : Js.value)
| ValueExpectation (matcher : string) (expected received : Js.value)
| TypeError (message : string)
    (* a JavaScript runtime error, such as reading a property of undefined *).

(** The outcome of an awaited step: its value, or the error thrown. *)
Inductive result (A : Type) : Type :=
| Ok (a : A)
| Err (e : failure).

Arguments Ok {A} a.
Arguments Err {A} e.

Definition bind {A B : Type} (m : result A) (k : A -> result B) : result B :=
  match m with
  | Ok a => k a
  | Err e => Err e
  end.

Declare Scope test_scope.
Delimit Scope test_scope with test.
Notation "x <- m ;; k" := (bind m (fun x => k))
  (at level 61, m at next level, right associativity) : test_scope.
Notation "m ;; k" := (bind m (fun _ => k))
  (at level 61, right associativity) : test_scope.
Local Open Scope test_scope.

(** A test passes when its body runs to the end. *)
Definition Pass : result unit := Ok tt.

(** [for (const x of xs) { body }] *)
Fixpoint forEach {A : Type} (xs : list A) (body : A -> result unit)
  : result unit :=
  match xs with
  | [] => Pass
  | x :: rest => body x ;; forEach rest body
  end.

(** [for (let i = start; i < stop; i++) { body }] *)
Definition forRange (start stop : nat) (body : nat -> result unit)
  : result unit :=
  forEach (seq start (stop - start)) body.

(** [for (const x of xs) { ys.push(await f(x)) }] *)
Fixpoint collect {A B : Type} (xs : list A) (f : A -> result B)
  : result (list B) :=
  match xs with
  | [] => Ok []
  | x :: rest => y <- f x ;; ys <- collect rest f ;; Ok (y :: ys)
  end.

(** ** Locator operations *)

(** [await l.count()] *)
Definition count (d : document) (l : locator) : nat :=
  length (resolve d l).

(** [await l.all()]: one locator per element, [l.nth(0)], [l.nth(1)], ... *)
Definition all (d : document) (l : locator) : list locator :=
  map (Nth l) (seq 0 (count d l)).

(** Locators are strict: an operation on one element throws when the
    locator resolves to more than one, and waits in vain when it resolves
    to none. *)
Definition single (operation : string) (d : document) (l : locator)
  : result node :=
  match resolve d l with
  | [] => Err (NoElement operation l)
  | [h] => Ok (target h)
  | hs => Err (StrictModeViolation l (length hs))
  end.

(** The same, for an operation that depends on where the element is. *)
Definition single_handle (operation : string) (d : document) (l : locator)
  : result handle :=
  match resolve d l with
  | [] => Err (NoElement operation l)
  | [h] => Ok h
  | hs => Err (StrictModeViolation l (length hs))
  end.

(** [await l.getAttribute(name)] *)
Definition getAttribute (d : document) (l : locator) (name : string)
  : result (option string) :=
  el <- single "getAttribute" d l ;;
  Ok (Dom.getAttribute el name).

(** [await l.textContent()] *)
Definition textContent (d : document) (l : locator) : result string :=
  el <- single "textContent" d l ;;
  Ok (Dom.textContent el).

(** [await l.evaluate(el => el.tagName)] *)
Definition evaluate_tagName (d : document) (l : locator) : result string :=
  el <- single "evaluate" d l ;;
  Ok (Dom.tagName el).

(** ** Assertions on locators *)

(** [await expect(l).toHaveCount(n)]; not a single-element operation. *)
Definition toHaveCount (d : document) (l : locator) (n : nat) : result unit :=
  if count d l =? n then Pass
  else Err (LocatorExpectation "toHaveCount" l
              (Js.Num (Js.Int (Z.of_nat n)))
              (Js.Num (Js.Int (Z.of_nat (count d l))))).

(** [await expect(l).toBeAttached()] *)
Definition toBeAttached (d : document) (l : locator) : result unit :=
  _ <- single "toBeAttached" d l ;; Pass.

(** [await expect(l).toContainText(expected)]: the expected string occurs in
    the element's text, both with white space normalised; the text is
    Playwright's element text, not [textContent]. *)
Definition toContainText (d : document) (l : locator) (expected : string)
  : result unit :=
  h <- single_handle "toContainText" d l ;;
  let received := Dom.elementText d h in
  if Js.includes (Js.normalizeWhiteSpace expected)
                 (Js.normalizeWhiteSpace received)
  then Pass
  else Err (LocatorExpectation "toContainText" l
              (Js.Str expected) (Js.Str received)).

(** [await expect(l).toHaveAttribute(name, value)] *)
Definition toHaveAttribute (d : document) (l : locator) (name value : string)
  : result unit :=
  el <- single "toHaveAttribute" d l ;;
  match Dom.getAttribute el name with
  | Some v =>
      if String.eqb v value then Pass
      else Err (LocatorExpectation "toHaveAttribute" l (Js.Str value) (Js.Str v))
  | None =>
      Err (LocatorExpectation "toHaveAttribute" l (Js.Str value) Js.Null)
  end.

(** ** Assertions on values *)

Definition check (matcher : string) (ok : bool) (expected received : Js.value)
  : result unit :=
  if ok then Pass else Err (ValueExpectation matcher expected received).

(** [expect(received).toBe(expected)] *)
Definition toBe (received expected : Js.value) : result unit :=
  check "toBe" (Js.same_value received expected) expected received.

(** [expect(received).toContain(item)] for a string item: [received] must
    be a string that includes it; [null] is rejected. *)
Definition toContain (received : Js.value) (item : string) : result unit :=
  check "toContain"
        (match received with
         | Js.Str s => Js.includes item s
         | _ => false
         end)
        (Js.Str item) received.

(** [expect(received).toBeDefined()]: [received !== undefined]. *)
Definition toBeDefined (received : Js.value) : result unit :=
  check "toBeDefined"
        (match received with
         | Js.Undefined => false
         | _ => true
         end)
        Js.Undefined received.

(** [expect(received).toBeTruthy()] *)
Definition toBeTruthy (received : Js.value) : result unit :=
  check "toBeTruthy" (Js.truthy received) (Js.Bool true) received.

(** [expect(received).toBeGreaterThan(n)] *)
Definition toBeGreaterThan (received : Js.num) (n : Js.num) : result unit :=
  check "toBeGreaterThan" (Js.gt received n) (Js.Num n) (Js.Num received).

(** [expect(received).toBeLessThanOrEqual(n)] *)
Definition toBeLessThanOrEqual (received : Js.num) (n : Js.num)
  : result unit :=
  check "toBeLessThanOrEqual" (Js.le received n) (Js.Num n) (Js.Num received).

End Playwright.

(* ===================================================================== *)
(** * The suite: [tests/html-structure.spec.js] *)
(* ===================================================================== *)

Module Suite.

Import Dom Playwright.
Local Open Scope test_scope.

(** ** [should have proper heading hierarchy] (lines 494-529) *)

(** ['h1, h2, h3, h4, h5, h6'] *)
Definition headings : selector :=
  [[Tag "h1"]; [Tag "h2"]; [Tag "h3"]; [Tag "h4"]; [Tag "h5"]; [Tag "h6"]].

(** Lines 515-522: the level of every heading, in document order. *)
Definition headingLevels (d : document) : result (list Js.num) :=
  let allHeadings := all d (Page_locator headings) in
  collect allHeadings (fun heading =>
    tagName <- evaluate_tagName d heading ;;
    let level := Js.parseInt (Js.substring1 tagName) in
    Ok level).

(** Lines 524-528: [// Check no level is skipped]. *)
Definition check_no_level_skipped (headingLevels : list Js.num)
  : result unit :=
  forRange 1 (length headingLevels) (fun i =>
    let diff := Js.sub (Js.index headingLevels i)
                       (Js.index headingLevels (i - 1)) in
    toBeLessThanOrEqual diff (Js.Int 1)).

Definition test_heading_hierarchy (d : document) : result unit :=
  let h1 := all d (Page_locator [[Tag "h1"]]) in
  let h2 := all d (Page_locator [[Tag "h2"]]) in
  let h3 := all d (Page_locator [[Tag "h3"]]) in
  let h4 := all d (Page_locator [[Tag "h4"]]) in
  toBe (Js.Num (Js.length_of h1)) (Js.Num (Js.Int 1)) ;;
  toBeGreaterThan (Js.length_of h2) (Js.Int 0) ;;
  toBeGreaterThan (Js.length_of h3) (Js.Int 0) ;;
  h1Text <- match h1 with
            | first :: _ => textContent d first
            | [] => Err (TypeError "h1[0] is undefined")
            end ;;
  toContain (Js.Str h1Text) "Welcome to Wema Bank" ;;
  levels <- headingLevels d ;;
  check_no_level_skipped levels.

(** ** [should have semantic header with navigation] (lines 150-188):
    the locators of lines 152 and 165-175 and the checks of the navigation
    items, lines 174-183; the visibility checks are left out. *)

(** ['header[role="banner"]'] *)
Definition header : locator :=
  Page_locator [[Tag "header"; AttrEq "role" "banner"]].
(** ['nav[role="navigation"]'] inside the header *)
Definition nav : locator :=
  Locator header [[Tag "nav"; AttrEq "role" "navigation"]].
(** ['ul[role="list"]'] inside the navigation *)
Definition navList : locator :=
  Locator nav [[Tag "ul"; AttrEq "role" "list"]].
(** ['li.nav__item'] inside the list *)
Definition navItems : locator :=
  Locator navList [[Tag "li"; Class "nav__item"]].

Definition navLinks : list string := ["Home"; "Services"; "About"; "Contact"].

(** Lines 180-183, for any list of items and of expected labels: the link
    of the i-th item must contain the i-th label. *)
Definition check_links_in_order (d : document) (items : locator)
  (expected : list string) : result unit :=
  forRange 0 (length expected) (fun i =>
    let link := Locator (Nth items i) [[Tag "a"]] in
    toContainText d link (nth i expected "")).

(** Lines 174-183. *)
Definition check_navigation_items (d : document) : result unit :=
  toHaveCount d navItems 4 ;;
  check_links_in_order d navItems navLinks.

(** ** [should display all service cards] (lines 285-313): the count,
    lines 286-287. *)

(** ['.service-card'] *)
Definition serviceCards : locator := Page_locator [[Class "service-card"]].

Definition check_service_card_count (d : document) : result unit :=
  toHaveCount d serviceCards 4.

(** ** [should have proper ARIA attributes] (lines 450-492): the
    [aria-labelledby] references, lines 474-482. *)

(** The selector [`#${labelId}`], for a [labelId] that is a CSS
    identifier; [null] would print as the word [null]. *)
Definition id_selector (labelId : option string) : selector :=
  [[Id (match labelId with Some s => s | None => "null" end)]].

(** Lines 479-481, for one element carrying [aria-labelledby]. *)
Definition check_label_reference (d : document) (element : locator)
  : result unit :=
  labelId <- getAttribute d element "aria-labelledby" ;;
  let labelElement := Page_locator (id_selector labelId) in
  toBeAttached d labelElement.

Definition check_aria_labelledby (d : document) : result unit :=
  let ariaLabelledby := all d (Page_locator [[HasAttr "aria-labelledby"]]) in
  toBeGreaterThan (Js.length_of ariaLabelledby) (Js.Int 0) ;;
  forEach ariaLabelledby (check_label_reference d).

(** ** [should have accessible navigation links] (lines 376-421): the
    social media links, lines 398-420. *)

Record social : Type := Social { platform : string; url : string }.

Definition expectedSocial : list social :=
  [ Social "Facebook" "facebook.com/wemabank";
    Social "Twitter" "twitter.com/wemabank";
    Social "LinkedIn" "linkedin.com/company/wema-bank-plc";
    Social "Instagram" "instagram.com/wemabank" ].

(** ['.footer__social-link'] *)
Definition socialLinks : locator :=
  Page_locator [[Class "footer__social-link"]].

Definition check_social_links (d : document) : result unit :=
  toHaveCount d socialLinks 4 ;;
  forRange 0 (length expectedSocial) (fun i =>
    let expected := nth i expectedSocial (Social "" "") in
    let link := Nth socialLinks i in
    href <- getAttribute d link "href" ;;
    ariaLabel <- getAttribute d link "aria-label" ;;
    target <- getAttribute d link "target" ;;
    rel <- getAttribute d link "rel" ;;
    toContain (Js.of_attr href) (url expected) ;;
    toContain (Js.of_attr ariaLabel) (platform expected) ;;
    toBe (Js.of_attr target) (Js.Str "_blank") ;;
    toBe (Js.of_attr rel) (Js.Str "noopener noreferrer")).

(** ** [should have secure external links] (lines 764-774) *)

(** ['a[target="_blank"]'] *)
Definition externalLinks : locator :=
  Page_locator [[Tag "a"; AttrEq "target" "_blank"]].

Definition test_secure_external_links (d : document) : result unit :=
  forEach (all d externalLinks) (fun link =>
    rel <- getAttribute d link "rel" ;;
    toContain (Js.of_attr rel) "noopener" ;;
    toContain (Js.of_attr rel) "noreferrer").

(** ** [should have alt text for all images] (lines 531-545) *)

Definition test_alt_text (d : document) : result unit :=
  let images := all d (Page_locator [[Tag "img"]]) in
  toBeGreaterThan (Js.length_of images) (Js.Int 0) ;;
  forEach images (fun img =>
    alt <- getAttribute d img "alt" ;;
    ariaHidden <- getAttribute d img "aria-hidden" ;;
    if negb (Js.strict_equal (Js.of_attr ariaHidden) (Js.Str "true"))
    then toBeDefined (Js.of_attr alt)
    else Pass).

(** ** [should pass accessibility audit (Lighthouse)] (lines 700-758):
    step 6, the image alt attributes, lines 728-734. *)

Definition check_image_alt_attributes (d : document) : result unit :=
  let images := all d (Page_locator [[Tag "img"]]) in
  forEach images (fun img =>
    alt <- getAttribute d img "alt" ;;
    ariaHidden <- getAttribute d img "aria-hidden" ;;
    toBeTruthy
      (Js.Bool (negb (Js.strict_equal (Js.of_attr alt) Js.Null)
                || Js.strict_equal (Js.of_attr ariaHidden) (Js.Str "true")))).

End Suite.

(* ===================================================================== *)
(** * What the checks report and what they range over *)
(* ===================================================================== *)

Module Outcomes.

Import Dom Playwright Suite.

(** The error of [expect(diff).toBeLessThanOrEqual(1)] for a difference
    that is too large. *)
Definition skipped_level (diff : Z) : failure :=
  ValueExpectation "toBeLessThanOrEqual"
    (Js.Num (Js.Int 1)) (Js.Num (Js.Int diff)).

(** The step from the heading before position [i] to the heading at [i]. *)
Definition step (levels : list Z) (i : nat) : Z :=
  (nth i levels 0 - nth (i - 1) levels 0)%Z.

(** The level [parseInt(tagName.substring(1))] of an element. *)
Definition level_of (n : node) : Js.num :=
  Js.parseInt (Js.substring1 (tagName n)).

(** [items.nth(i).locator('a')]: the link of the i-th item. *)
Definition link_of (items : locator) (i : nat) : locator :=
  Locator (Nth items i) [[Tag "a"]].

(** What [toContainText] compares: the two strings with white space
    normalised. *)
Definition contains_text (expected text : string) : bool :=
  Js.includes (Js.normalizeWhiteSpace expected) (Js.normalizeWhiteSpace text).

(** The error of [toContainText] on the link of item [i]: the locator
    names the index, and the expected and received strings follow. *)
Definition text_mismatch (items : locator) (i : nat)
  (expected received : string) : failure :=
  LocatorExpectation "toContainText" (link_of items i)
    (Js.Str expected) (Js.Str received).

(** The error of [toHaveCount(expected)] when [received] elements match. *)
Definition count_mismatch (l : locator) (expected received : nat) : failure :=
  LocatorExpectation "toHaveCount" l
    (Js.Num (Js.Int (Z.of_nat expected)))
    (Js.Num (Js.Int (Z.of_nat received))).

(** [page.locator(`#${labelId}`)] for an identifier [labelId]. *)
Definition label_locator (labelId : string) : locator :=
  Page_locator [[Id labelId]].

(** The elements of the page whose [id] is [labelId], in document order. *)
Definition referenced (d : document) (labelId : string) : list handle :=
  filter (fun h => attr_is (target h) "id" labelId) (handles d).

(** The [rel] attribute of the element includes [word] as a substring;
    false when the element has no [rel]. *)
Definition rel_includes (n : node) (word : string) : bool :=
  match Dom.getAttribute n "rel" with
  | Some rel => Js.includes word rel
  | None => false
  end.

(** [word] is one of the space-separated tokens of the [rel] attribute;
    link types are compared without regard to ASCII case. *)
Definition rel_has_token (n : node) (word : string) : bool :=
  match Dom.getAttribute n "rel" with
  | Some rel => existsb (eqb_ignoring_case word) (tokens rel)
  | None => false
  end.

(** ['img'] *)
Definition images : locator := Page_locator [[Tag "img"]].

(** The image is marked decorative or carries an [alt] attribute. *)
Definition described (n : node) : bool :=
  match Dom.getAttribute n "aria-hidden" with
  | Some v => String.eqb v "true"
  | None => false
  end
  || has_attr n "alt".

End Outcomes.

(* ===================================================================== *)
(** * The conformance engine of the specification *)
(* ===================================================================== *)

(** The sources hold the suite and its configuration only; the rule engine
    ([evaluate], [RunReport]) is described in the specification and has no
    implementation among them.  The definitions of this module follow the
    specification's sections 3, 4.1, 4.2, 4.3, 4.4, 5 and 7.  The time budget of a
    whole run (section 5) is a matter of real time and is left out. *)

Module Engine.

(** Modelled from the spec: the severity of a rule, missing from the
    sources.  "{Error, Warning} - Warning rules do not fail the overall
    run but are reported." *)
Inductive severity : Type := Error | Warning.

(** Modelled from the spec: the kind tag of a rule, missing from the
    sources.  "one of {Exists, AttributeEquals, AttributeContains,
    TextContains, Count, OrderedSequence, HeadingHierarchy,
    AriaCrossReference}". *)
Inductive kind : Type :=
| Exists
| AttributeEquals
| AttributeContains
| TextContains
| Count
| OrderedSequence
| HeadingHierarchy
| AriaCrossReference.

(** Modelled from the spec: the payload of a rule, missing from the
    sources.  "kind-specific payload (a literal value, a list of literals,
    a numeric bound, or a reference rule id)"; a count is "exact or bounded
    (min/max)". *)
Inductive payload : Type :=
| Literal (v : string)
| Literals (vs : list string)
| Exact (n : nat)
| Bounded (min max : option nat)
| Reference (ruleId : string).

(** Modelled from the spec: the Rule record, missing from the sources.
    "id, kind, selector, expected, severity"; the selector is kept in its
    parsed form. *)
Record Rule : Type := {
  id : string;
  rule_kind : kind;
  selector : Dom.selector;
  expected : payload;
  rule_severity : severity
}.

(** Modelled from the spec: the status of a finding, missing from the
    sources.  "status in {Pass, Fail, Skipped(reason)}". *)
Inductive status : Type :=
| Pass
| Fail
| Skipped (reason : string).

(** Modelled from the spec: the Finding record, missing from the sources.
    "ruleId, status, actual (observed value(s), optional), message". *)
Record Finding : Type := {
  ruleId : string;
  finding_status : status;
  actual : option Js.value;
  message : string
}.

(** Modelled from the spec: the summary of a report, missing from the
    sources.  "counts of Pass/Fail/Skipped by severity". *)
Record Summary : Type := {
  pass_error : nat;
  pass_warning : nat;
  fail_error : nat;
  fail_warning : nat;
  skipped_error : nat;
  skipped_warning : nat
}.

(** Modelled from the spec: the RunReport record, missing from the
    sources.  "findings: ordered sequence of Finding; summary; passed". *)
Record RunReport : Type := {
  findings : list Finding;
  summary : Summary;
  passed : bool
}.

(** Modelled from the spec: the options of [evaluate], missing from the
    sources.  "options.failFast ...; default false". *)
Record Options : Type := { failFast : bool }.

(** Modelled from the spec: the default options, missing from the sources.
    "default false (continue-on-failure ...)". *)
Definition default_options : Options := {| failFast := false |}.

(** Modelled from the spec: how a call of the DOM Accessor ends, missing
    from the sources.  It answers, or "on timeout the call fails", or "the
    underlying session is unreachable" (sections 5 and 7). *)
Inductive access (A : Type) : Type :=
| Answer (a : A)
| TimedOut
| SessionLost.

Arguments Answer {A} a.
Arguments TimedOut {A}.
Arguments SessionLost {A}.

(** Modelled from the spec: the engine-level error, missing from the
    sources.  Total session loss "aborts the remaining run and is surfaced
    as an engine-level error distinct from conformance failure". *)
Inductive EngineError : Type :=
| AccessorUnreachable (ruleId : string).

(** Modelled from the spec: the test "status = Fail", missing from the
    sources. *)
Definition is_fail (s : status) : bool :=
  match s with
  | Fail => true
  | _ => false
  end.

(** Modelled from the spec: the test "severity = Error", missing from the
    sources. *)
Definition is_error (s : severity) : bool :=
  match s with
  | Error => true
  | Warning => false
  end.

(** Modelled from the spec: what makes a run fail, missing from the
    sources.  A finding with "status = Fail and severity = Error". *)
Definition fails_run (r : Rule) (f : Finding) : bool :=
  is_fail (finding_status f) && is_error (rule_severity r).

(** Modelled from the spec: the finding of a timed-out rule, missing from
    the sources.  "Finding{status: Fail, message: "timeout"}". *)
Definition timeout_finding (r : Rule) : Finding :=
  {| ruleId := id r; finding_status := Fail; actual := None;
     message := "timeout" |}.

(** Modelled from the spec: the finding of a rule after a fail-fast stop,
    missing from the sources.  "marks remaining rules
    Skipped("upstream fail-fast")". *)
Definition skipped_finding (r : Rule) : Finding :=
  {| ruleId := id r; finding_status := Skipped "upstream fail-fast";
     actual := None; message := "upstream fail-fast" |}.

(** Modelled from the spec: one more in a count of the summary, missing
    from the sources. *)
Definition count_one (b : bool) : nat := if b then 1 else 0.

(** Modelled from the spec: [summarize], missing from the sources.  "pure
    aggregation, counts by (status x severity)"; a finding takes the
    severity of the rule it was made for. *)
Fixpoint summarize (outcomes : list (Rule * Finding)) : Summary :=
  match outcomes with
  | [] => Build_Summary 0 0 0 0 0 0
  | (r, f) :: rest =>
      let s := summarize rest in
      let e := is_error (rule_severity r) in
      match finding_status f with
      | Pass =>
          Build_Summary (count_one e + pass_error s)
                        (count_one (negb e) + pass_warning s)
                        (fail_error s) (fail_warning s)
                        (skipped_error s) (skipped_warning s)
      | Fail =>
          Build_Summary (pass_error s) (pass_warning s)
                        (count_one e + fail_error s)
                        (count_one (negb e) + fail_warning s)
                        (skipped_error s) (skipped_warning s)
      | Skipped _ =>
          Build_Summary (pass_error s) (pass_warning s)
                        (fail_error s) (fail_warning s)
                        (count_one e + skipped_error s)
                        (count_one (negb e) + skipped_warning s)
      end
  end.

(** Modelled from the spec: the construction of a RunReport, missing from
    the sources.  [passed] is "computed once and cached on RunReport
    construction": no finding with status Fail made for a rule of severity
    Error. *)
Definition make_report (rules : list Rule) (fs : list Finding) : RunReport :=
  {| findings := fs;
     summary := summarize (combine rules fs);
     passed := forallb (fun rf => negb (fails_run (fst rf) (snd rf)))
                       (combine rules fs) |}.

(** Modelled from the spec: the validation of a rule set at load time,
    missing from the sources.  "id is unique within a rule set; selector
    must be non-empty". *)
Fixpoint unique_ids (seen : list string) (rules : list Rule) : bool :=
  match rules with
  | [] => true
  | r :: rest =>
      negb (existsb (String.eqb (id r)) seen) && unique_ids (id r :: seen) rest
  end.

(** Modelled from the spec: a well-formed rule set, missing from the
    sources.  Unique ids and no empty selector. *)
Definition well_formed (rules : list Rule) : bool :=
  unique_ids [] rules
  && forallb (fun r => match selector r with [] => false | _ => true end) rules.

Section Evaluate.

(** The DOM Accessor is an external capability; the engine is stated for
    any accessor and any family of evaluators, one per kind. *)
Variable DomAccessor : Type.
Variable evaluators : kind -> Rule -> DomAccessor -> access Finding.

(** Modelled from the spec: the evaluation of one rule, missing from the
    sources.  "dispatch is by the kind tag"; a timeout is translated to a
    Fail finding "rather than letting the engine invocation abort"; total
    session loss is the engine-level error. *)
Definition evaluator (r : Rule) (a : DomAccessor) : EngineError + Finding :=
  match evaluators (rule_kind r) r a with
  | Answer f => inr f
  | TimedOut => inr (timeout_finding r)
  | SessionLost => inl (AccessorUnreachable (id r))
  end.

(** Modelled from the spec: the engine's loop, missing from the sources.
    "Iterates the RuleSet in declared order, invoking the matching
    evaluator per Rule"; with [failFast], it "stops at first Error-severity
    Fail and marks remaining rules Skipped". *)
Fixpoint evaluate_rules (a : DomAccessor) (fail_fast stopped : bool)
  (rules : list Rule) : EngineError + list Finding :=
  match rules with
  | [] => inr []
  | r :: rest =>
      if stopped then
        match evaluate_rules a fail_fast true rest with
        | inr fs => inr (skipped_finding r :: fs)
        | inl e => inl e
        end
      else
        match evaluator r a with
        | inl e => inl e
        | inr f =>
            match evaluate_rules a fail_fast (fail_fast && fails_run r f) rest with
            | inr fs => inr (f :: fs)
            | inl e => inl e
            end
        end
  end.

(** Modelled from the spec: [evaluate(RuleSet, DomAccessor, options) ->
    RunReport], missing from the sources. *)
Definition evaluate (rules : list Rule) (a : DomAccessor) (o : Options)
  : EngineError + RunReport :=
  match evaluate_rules a (failFast o) false rules with
  | inr fs => inr (make_report rules fs)
  | inl e => inl e
  end.

(** Modelled from the spec: the outcome of a rule in a run, missing from
    the sources.  It is what the rule's evaluator reports, or the skip the
    engine records for the rule after a fail-fast stop. *)
Definition outcome_of (a : DomAccessor) (r : Rule) (f : Finding) : Prop :=
  evaluator r a = inr f \/ f = skipped_finding r.

(** Modelled from the spec: the fail-fast stop, missing from the sources.
    The run "stops at first Error-severity Fail": before position [i] a
    rule of severity Error was evaluated and its Fail finding is in the
    findings. *)
Definition stopped_before (a : DomAccessor) (rules : list Rule)
  (fs : list Finding) (i : nat) : Prop :=
  exists j r f,
    j < i
    /\ nth_error rules j = Some r
    /\ nth_error fs j = Some f
    /\ evaluator r a = inr f
    /\ finding_status f = Fail
    /\ rule_severity r = Error.

(** Modelled from the spec: the link between a finding and its rule,
    missing from the sources.  A finding carries the [ruleId] of the rule
    whose evaluation it is the outcome of. *)
Definition names_its_rule : Prop :=
  forall (k : kind) (r : Rule) (a : DomAccessor) (f : Finding),
    evaluators k r a = Answer f -> ruleId f = id r.

(** Modelled from the spec: a reachable session, missing from the
    sources.  The session is not lost while the rule is evaluated. *)
Definition reachable (a : DomAccessor) (r : Rule) : Prop :=
  evaluators (rule_kind r) r a <> SessionLost.

End Evaluate.

(** ** Evaluators as clients of the DOM Accessor

    Section 4.1 lists the operations an evaluator has on the page, and
    section 4.2 makes each evaluator "a pure function (Rule, DomAccessor)
    -> Finding": a finding put together from the answers of those
    operations.  The session behind the accessor, with whatever state it
    keeps, stays on the accessor's side. *)

Section Clients.

Variable ElementHandle : Type.

(** Modelled from the spec: the operations of the DOM Accessor, missing
    from the sources, each with the type of its answer.  "query(selector,
    scope?) -> sequence of ElementHandle; count(selector, scope?) ->
    integer; attribute(element, name) -> optional string; text(element) ->
    string; isVisible(element) -> bool, isInViewport(element) -> bool,
    isFocused(element) -> bool; tagName(element) -> string". *)
Inductive operation : Type -> Type :=
| Query (s : Dom.selector) (scope : option ElementHandle)
    : operation (list ElementHandle)
| CountOf (s : Dom.selector) (scope : option ElementHandle) : operation nat
| Attribute (element : ElementHandle) (name : string)
    : operation (option string)
| TextOf (element : ElementHandle) : operation string
| IsVisible (element : ElementHandle) : operation bool
| IsInViewport (element : ElementHandle) : operation bool
| IsFocused (element : ElementHandle) : operation bool
| TagName (element : ElementHandle) : operation string.

(** Modelled from the spec: an evaluator as a client of the accessor,
    missing from the sources.  It returns its result, or calls an operation
    and goes on with the answer. *)
Inductive client (A : Type) : Type :=
| Return (a : A)
| Call (X : Type) (op : operation X) (k : X -> client A).

Arguments Return {A} a.
Arguments Call {A X} op k.

Variable Session : Type.
Variable DomState : Type.

(** The DOM state a session is on, and what an operation reads in a DOM
    state. *)
Variable observed : Session -> DomState.
Variable reading : forall X : Type, operation X -> DomState -> X.

(** A call through a session: it answers, times out or finds the session
    lost, and leaves the session in a new state. *)
Variable perform : forall X : Type, operation X -> Session -> access X * Session.

(** Modelled from the spec: the run of a client through a session, missing
    from the sources.  "Every DOM Accessor call is a potential suspension
    point"; "on timeout the call fails". *)
Fixpoint run {A : Type} (c : client A) (s : Session) : access A :=
  match c with
  | Return a => Answer a
  | Call op k =>
      match perform _ op s with
      | (Answer x, s') => run (k x) s'
      | (TimedOut, _) => TimedOut
      | (SessionLost, _) => SessionLost
      end
  end.

(** Modelled from the spec: what a client reports on a DOM state, missing
    from the sources: every operation answers what the state holds. *)
Fixpoint on_state {A : Type} (c : client A) (D : DomState) : A :=
  match c with
  | Return a => a
  | Call op k => on_state (k (reading _ op D)) D
  end.

(** Modelled from the spec: the evaluators of a run through a session,
    missing from the sources: each runs its client through the session. *)
Definition session_run (clients : kind -> Rule -> client Finding)
  (k : kind) (r : Rule) (s : Session) : access Finding :=
  run (clients k r) s.

(** Modelled from the spec: the evaluators of a run on a DOM state,
    missing from the sources: each reports what its client reports on the
    state. *)
Definition state_run (clients : kind -> Rule -> client Finding)
  (k : kind) (r : Rule) (D : DomState) : access Finding :=
  Answer (on_state (clients k r) D).

(** Modelled from the spec: the contract of the accessor, missing from the
    sources.  "All operations are read-only and side-effect-free from the
    engine's perspective": a call leaves the DOM state as it was, and an
    answer is what the DOM state holds. *)
Definition read_only : Prop :=
  forall (X : Type) (op : operation X) (s : Session),
    observed (snd (perform X op s)) = observed s
    /\ forall x, fst (perform X op s) = Answer x
                 -> x = reading X op (observed s).

(** Modelled from the spec: a run without timing failures, missing from
    the sources.  Timing-dependent outcomes are "quarantined": the client
    gets all its answers. *)
Definition on_time {A : Type} (c : client A) (s : Session) : Prop :=
  exists a, run c s = Answer a.

End Clients.

Arguments Query {ElementHandle} s scope.
Arguments CountOf {ElementHandle} s scope.
Arguments Attribute {ElementHandle} element name.
Arguments TextOf {ElementHandle} element.
Arguments IsVisible {ElementHandle} element.
Arguments IsInViewport {ElementHandle} element.
Arguments IsFocused {ElementHandle} element.
Arguments TagName {ElementHandle} element.
Arguments Return {ElementHandle A} a.
Arguments Call {ElementHandle A X} op k.

(** ** An instance: counting evaluators over a static page

    For the examples below, the accessor is a loaded page that always
    answers, and the evaluators are the two counting ones of section 4.2. *)

(** Modelled from the spec: the comparison of a Count rule, missing from
    the sources.  "exact or bounded (min/max) match count comparison". *)
Definition within (n : nat) (e : payload) : bool :=
  match e with
  | Exact k => n =? k
  | Bounded lo hi =>
      match lo with Some l => l <=? n | None => true end
      && match hi with Some h => n <=? h | None => true end
  | _ => false
  end.

(** Modelled from the spec: the finding of a counting rule, missing from
    the sources.  Pass, or "Fail with actual count reported". *)
Definition count_finding (r : Rule) (n : nat) (ok : bool) : Finding :=
  {| ruleId := id r;
     finding_status := if ok then Pass else Fail;
     actual := Some (Js.Num (Js.Int (Z.of_nat n)));
     message := if ok then "" else "unexpected match count" |}.

(** Modelled from the spec: the Exists and Count evaluators, missing from
    the sources.  Exists: "Pass if count(selector) >= 1 (or >=
    expected.min if specified); else Fail with actual count reported".
    Count: "exact or bounded (min/max) match count comparison".  A rule of
    another kind is skipped by this instance. *)
Definition counting_evaluators (k : kind) (r : Rule) (d : Dom.document)
  : access Finding :=
  let n := length (Dom.querySelectorAll d (selector r)) in
  match k with
  | Exists =>
      let least := match expected r with
                   | Bounded (Some l) _ => l
                   | _ => 1
                   end in
      Answer (count_finding r n (least <=? n))
  | Count => Answer (count_finding r n (within n (expected r)))
  | _ => Answer {| ruleId := id r; finding_status := Skipped "no evaluator";
                   actual := None; message := "no evaluator" |}
  end.

End Engine.

(* ===================================================================== *)
(** * Example pages and rule sets *)
(* ===================================================================== *)

Module Examples.

Import Dom.

Definition html (body : list node) : document :=
  Element "html" [("lang", "en")] [Element "body" [] body].

(** A page whose body is a run of headings with the given tag names. *)
Definition heading_page (tags : list string) : document :=
  html (map (fun t => Element t [] [Text "Welcome to Wema Bank"]) tags).

(** The header of the landing page with the given labels on its
    navigation links. *)
Definition nav_item (label : string) : node :=
  Element "li" [("class", "nav__item")]
    [Element "a" [("href", "#"); ("class", "nav__link")] [Text label]].

Definition nav_page (labels : list string) : document :=
  html [Element "header" [("role", "banner")]
          [Element "nav" [("role", "navigation");
                          ("aria-label", "Main navigation")]
             [Element "ul" [("role", "list")] (map nav_item labels)]]].

(** The navigation with its second and third links swapped, where the
    second link also holds a style sheet whose text is the expected
    label. *)
Definition styled_nav_page : document :=
  html [Element "header" [("role", "banner")]
          [Element "nav" [("role", "navigation")]
             [Element "ul" [("role", "list")]
                [ nav_item "Home";
                  Element "li" [("class", "nav__item")]
                    [Element "a" [("href", "#")]
                       [Element "style" [] [Text ".x::after { content: 'Services' }"];
                        Text "About"]];
                  nav_item "Services";
                  nav_item "Contact" ]]]].

(** The navigation in order, with no-break spaces (U+00A0) around one
    label. *)
Definition spaced_nav_page : document :=
  nav_page ["Home";
            (Js.bytes [194; 160] ++ "Services" ++ Js.bytes [194; 160])%string;
            "About"; "Contact"].

(** A page with [n] service cards. *)
Definition service_card : node :=
  Element "article" [("class", "service-card")]
    [Element "h3" [("class", "service-card__title")] [Text "Banking"]].

Definition cards_page (n : nat) : document :=
  html [Element "section" [("id", "services")] (repeat service_card n)].

(** A hero section labelled by [hero-title], on a page where the given
    elements carry ids. *)
Definition labelled_page (ids : list string) : document :=
  html (Element "section" [("id", "home"); ("aria-labelledby", "hero-title")] []
        :: map (fun i => Element "h1" [("id", i)] [Text "Welcome"]) ids).

(** The four social links of the footer. *)
Definition social_link (label href : string) : node :=
  Element "a" [("class", "footer__social-link"); ("href", href);
               ("aria-label", label); ("target", "_blank");
               ("rel", "noopener noreferrer")] [].

Definition social_links : list node :=
  [ social_link "Facebook" "https://facebook.com/wemabank";
    social_link "Twitter" "https://twitter.com/wemabank";
    social_link "LinkedIn" "https://linkedin.com/company/wema-bank-plc";
    social_link "Instagram" "https://instagram.com/wemabank" ].

Definition social_page : document :=
  html [Element "footer" [("role", "contentinfo")] social_links].

(** A page with one image that has neither [alt] nor [aria-hidden]. *)
Definition bare_image_page : document :=
  html [Element "img" [("src", "/images/logo.svg")] []].

(** A page whose images are decorative icons or carry alt text. *)
Definition described_image_page : document :=
  html [Element "img" [("src", "/images/logo.svg"); ("alt", "Wema Bank")] [];
        Element "img" [("src", "/images/icon.svg"); ("alt", "");
                       ("aria-hidden", "true")] []].

(** A rule set of two counting rules over the service cards. *)
Definition cards_exact : Engine.Rule :=
  {| Engine.id := "service-cards";
     Engine.rule_kind := Engine.Count;
     Engine.selector := [[Class "service-card"]];
     Engine.expected := Engine.Exact 4;
     Engine.rule_severity := Engine.Error |}.

Definition services_present : Engine.Rule :=
  {| Engine.id := "services-section";
     Engine.rule_kind := Engine.Exists;
     Engine.selector := [[Tag "section"; Id "services"]];
     Engine.expected := Engine.Bounded None None;
     Engine.rule_severity := Engine.Warning |}.

Definition hero_present : Engine.Rule :=
  {| Engine.id := "hero-section";
     Engine.rule_kind := Engine.Exists;
     Engine.selector := [[Tag "section"; Id "home"]];
     Engine.expected := Engine.Bounded None None;
     Engine.rule_severity := Engine.Warning |}.

Definition landing_rules : list Engine.Rule :=
  [hero_present; cards_exact; services_present].

(** A session on a loaded page, for the counting evaluators. *)
Record Session : Type := { page : document; session : nat }.

Definition session_evaluators (k : Engine.kind) (r : Engine.Rule)
  (s : Session) : Engine.access Engine.Finding :=
  Engine.counting_evaluators k r (page s).

Definition first_session : Session := {| page := cards_page 4; session := 1 |}.
Definition short_session : Session := {| page := cards_page 3; session := 3 |}.

(** A browser session that keeps count of the calls it served and times
    out once its budget of calls is used up. *)
Record Browser : Type := { loaded : document; served : nat; budget : nat }.

(** The elements a query selects: those of the page, or those strictly
    inside the scope. *)
Definition scoped (d : document) (s : selector) (scope : option handle)
  : list handle :=
  match scope with
  | None => querySelectorAll d s
  | Some root =>
      filter (fun h => inside (path root) (path h)) (querySelectorAll d s)
  end.

(** What the operations read on a loaded page; the page is taken as
    rendered in full, with the focus on no element. *)
Definition page_reading (X : Type) (op : Engine.operation handle X)
  (d : document) : X :=
  match op in Engine.operation _ T return T with
  | Engine.Query s scope => scoped d s scope
  | Engine.CountOf s scope => length (scoped d s scope)
  | Engine.Attribute h name => getAttribute (target h) name
  | Engine.TextOf h => Js.trim (elementText d h)
  | Engine.IsVisible _ => true
  | Engine.IsInViewport _ => true
  | Engine.IsFocused _ => false
  | Engine.TagName h => tagName (target h)
  end.

Definition browser_perform (X : Type) (op : Engine.operation handle X)
  (b : Browser) : Engine.access X * Browser :=
  if served b <? budget b
  then (Engine.Answer (page_reading X op (loaded b)),
        {| loaded := loaded b; served := S (served b); budget := budget b |})
  else (Engine.TimedOut, b).

(** The counting evaluators as clients of the accessor. *)
Definition counting_clients (k : Engine.kind) (r : Engine.Rule)
  : Engine.client handle Engine.Finding :=
  match k with
  | Engine.Exists =>
      let least := match Engine.expected r with
                   | Engine.Bounded (Some l) _ => l
                   | _ => 1
                   end in
      Engine.Call (Engine.CountOf (Engine.selector r) None)
        (fun n => Engine.Return (Engine.count_finding r n (least <=? n)))
  | Engine.Count =>
      Engine.Call (Engine.CountOf (Engine.selector r) None)
        (fun n => Engine.Return
                    (Engine.count_finding r n
                       (Engine.within n (Engine.expected r))))
  | _ =>
      Engine.Return
        {| Engine.ruleId := Engine.id r;
           Engine.finding_status := Engine.Skipped "no evaluator";
           Engine.actual := None;
           Engine.message := "no evaluator" |}
  end.

(** Two browser sessions on the page with three service cards, one fresh
    and one that has served calls before. *)
Definition fresh_browser : Browser :=
  {| loaded := cards_page 3; served := 0; budget := 2 |}.
Definition used_browser : Browser :=
  {| loaded := cards_page 3; served := 7; budget := 40 |}.

(** The report of the landing rules on a page with four service cards:
    the hero section is missing (a failed warning), the card count is
    right, the services section is present. *)
Definition four_cards_report : Engine.RunReport :=
  Engine.make_report landing_rules
    [ Engine.count_finding hero_present 0 false;
      Engine.count_finding cards_exact 4 true;
      Engine.count_finding services_present 1 true ].

(** The same on a page with three service cards: the card count, an
    error, fails too. *)
Definition three_cards_report : Engine.RunReport :=
  Engine.make_report landing_rules
    [ Engine.count_finding hero_present 0 false;
      Engine.count_finding cards_exact 3 false;
      Engine.count_finding services_present 1 true ].

End Examples.

(* ===================================================================== *)
(** * More of JavaScript and Playwright *)
(* ===================================================================== *)

Module Script.

Import Dom Playwright.
Local Open Scope test_scope.

(** [s.trim()] *)
Definition trim (s : string) : string := Js.trim s.

(** Every character of [s] is white space. *)
Definition blank (s : string) : bool :=
  forallb Js.is_white_space (Js.characters s).

(** [s.length] *)
Definition string_length (s : string) : Js.num :=
  Js.Int (Z.of_nat (Js.utf16_length s)).

(** [a.length] for what [getAttribute] returned: reading a property of
    [null] throws. *)
Definition attr_length (a : option string) : result Js.num :=
  match a with
  | Some s => Ok (string_length s)
  | None => Err (TypeError "Cannot read properties of null (reading 'length')")
  end.

(** The string a template literal or [parseInt] makes of what
    [getAttribute] returned. *)
Definition to_string (a : option string) : string :=
  match a with
  | Some s => s
  | None => "null"
  end.

(** [a || b] *)
Definition or_else (a b : Js.value) : Js.value :=
  if Js.truthy a then a else b.

(** [a < b] *)
Definition lt (a b : Js.num) : bool :=
  match a, b with
  | Js.Int x, Js.Int y => (x <? y)%Z
  | _, _ => false
  end.

(** [a >= b] *)
Definition ge (a b : Js.num) : bool :=
  match a, b with
  | Js.Int x, Js.Int y => (y <=? x)%Z
  | _, _ => false
  end.

(** [expect(received).toBeLessThan(n)] *)
Definition toBeLessThan (received n : Js.num) : result unit :=
  check "toBeLessThan" (lt received n) (Js.Num n) (Js.Num received).

(** [expect(received).toBeGreaterThanOrEqual(n)] *)
Definition toBeGreaterThanOrEqual (received n : Js.num) : result unit :=
  check "toBeGreaterThanOrEqual" (ge received n) (Js.Num n) (Js.Num received).

(** [await expect(l).toHaveAttribute(name)]: the element has the
    attribute, whatever its value. *)
Definition toHaveAttributePresent (d : document) (l : locator) (name : string)
  : result unit :=
  el <- single "toHaveAttribute" d l ;;
  match Dom.getAttribute el name with
  | Some _ => Pass
  | None => Err (LocatorExpectation "toHaveAttribute" l (Js.Str name) Js.Null)
  end.

(** [await page.title()] *)
Definition title (d : document) : string := Dom.title d.

(** The error is a JavaScript runtime error, not a failed expectation. *)
Definition is_type_error (e : failure) : bool :=
  match e with
  | TypeError _ => true
  | _ => false
  end.

(** The error is a failed expectation about a locator. *)
Definition is_locator_expectation (e : failure) : bool :=
  match e with
  | LocatorExpectation _ _ _ _ => true
  | _ => false
  end.

End Script.

(* ===================================================================== *)
(** * The suite: document metadata *)
(* ===================================================================== *)

Module Metadata.

Import Dom Playwright Script.
Local Open Scope test_scope.

(** ['html'] *)
Definition html : locator := Page_locator [[Tag "html"]].

(** [should have html element with lang attribute] (lines 40-44) *)
Definition test_html_lang (d : document) : result unit :=
  htmlLang <- getAttribute d html "lang" ;;
  toBe (Js.of_attr htmlLang) (Js.Str "en").

(** [should have html element with dir attribute] (lines 46-50) *)
Definition test_html_dir (d : document) : result unit :=
  htmlDir <- getAttribute d html "dir" ;;
  toBe (Js.of_attr htmlDir) (Js.Str "ltr").

(** ['meta[charset]'] *)
Definition charsetMeta : locator := Page_locator [[Tag "meta"; HasAttr "charset"]].

(** [should have UTF-8 charset meta tag] (lines 52-56) *)
Definition test_charset (d : document) : result unit :=
  charset <- getAttribute d charsetMeta "charset" ;;
  toBe (Js.of_attr charset) (Js.Str "UTF-8").

(** ['meta[name="..."]'] *)
Definition meta_named (name : string) : locator :=
  Page_locator [[Tag "meta"; AttrEq "name" name]].

(** ['meta[property="..."]'] *)
Definition meta_property (property : string) : locator :=
  Page_locator [[Tag "meta"; AttrEq "property" property]].

(** ['link[rel="..."]'] *)
Definition link_rel (rel : string) : locator :=
  Page_locator [[Tag "link"; AttrEq "rel" rel]].

(** [should have viewport meta tag] (lines 58-63) *)
Definition test_viewport (d : document) : result unit :=
  viewport <- getAttribute d (meta_named "viewport") "content" ;;
  toContain (Js.of_attr viewport) "width=device-width" ;;
  toContain (Js.of_attr viewport) "initial-scale=1.0".

(** [should have proper meta tags] (lines 69-88) *)
Definition test_meta_tags (d : document) : result unit :=
  let title := Script.title d in
  toBe (Js.Str title) (Js.Str "Wema Bank - Your Trusted Banking Partner") ;;
  toBeGreaterThan (string_length title) (Js.Int 10) ;;
  toBeLessThan (string_length title) (Js.Int 60) ;;
  description <- getAttribute d (meta_named "description") "content" ;;
  toBeTruthy (Js.of_attr description) ;;
  len <- attr_length description ;;
  toBeGreaterThan len (Js.Int 50) ;;
  len' <- attr_length description ;;
  toBeLessThan len' (Js.Int 160) ;;
  toContain (Js.of_attr description) "Wema Bank" ;;
  keywords <- getAttribute d (meta_named "keywords") "content" ;;
  toBeTruthy (Js.of_attr keywords) ;;
  toContain (Js.of_attr keywords) "Wema Bank" ;;
  toContain (Js.of_attr keywords) "banking".

(** [should have Open Graph meta tags] (lines 90-104) *)
Definition test_open_graph (d : document) : result unit :=
  ogTitle <- getAttribute d (meta_property "og:title") "content" ;;
  ogDescription <- getAttribute d (meta_property "og:description") "content" ;;
  ogImage <- getAttribute d (meta_property "og:image") "content" ;;
  ogUrl <- getAttribute d (meta_property "og:url") "content" ;;
  ogType <- getAttribute d (meta_property "og:type") "content" ;;
  ogSiteName <- getAttribute d (meta_property "og:site_name") "content" ;;
  toBe (Js.of_attr ogTitle) (Js.Str "Wema Bank - Your Trusted Banking Partner") ;;
  toBeTruthy (Js.of_attr ogDescription) ;;
  toContain (Js.of_attr ogImage) "https://" ;;
  toBe (Js.of_attr ogUrl) (Js.Str "https://wemabank.com") ;;
  toBe (Js.of_attr ogType) (Js.Str "website") ;;
  toBe (Js.of_attr ogSiteName) (Js.Str "Wema Bank").

(** [should have Twitter Card meta tags] (lines 106-118) *)
Definition test_twitter_card (d : document) : result unit :=
  twitterCard <- getAttribute d (meta_named "twitter:card") "content" ;;
  twitterTitle <- getAttribute d (meta_named "twitter:title") "content" ;;
  twitterDescription <-
    getAttribute d (meta_named "twitter:description") "content" ;;
  twitterImage <- getAttribute d (meta_named "twitter:image") "content" ;;
  twitterSite <- getAttribute d (meta_named "twitter:site") "content" ;;
  toBe (Js.of_attr twitterCard) (Js.Str "summary_large_image") ;;
  toBeTruthy (Js.of_attr twitterTitle) ;;
  toBeTruthy (Js.of_attr twitterDescription) ;;
  toContain (Js.of_attr twitterImage) "https://" ;;
  toBe (Js.of_attr twitterSite) (Js.Str "@wemabank").

(** [should have canonical link] (lines 120-124) *)
Definition test_canonical (d : document) : result unit :=
  canonical <- getAttribute d (link_rel "canonical") "href" ;;
  toBe (Js.of_attr canonical) (Js.Str "https://wemabank.com").

(** [should have favicon links] (lines 126-132) *)
Definition test_favicon (d : document) : result unit :=
  favicon <- getAttribute d (link_rel "icon") "href" ;;
  appleTouchIcon <- getAttribute d (link_rel "apple-touch-icon") "href" ;;
  toBe (Js.of_attr favicon) (Js.Str "/favicon.ico") ;;
  toBe (Js.of_attr appleTouchIcon) (Js.Str "/apple-touch-icon.png").

End Metadata.

(* ===================================================================== *)
(** * The suite: accessibility *)
(* ===================================================================== *)

Module Accessibility.

Import Dom Playwright Script.
Local Open Scope test_scope.

(** ['a'] *)
Definition links : locator := Page_locator [[Tag "a"]].

(** [should have proper link text] (lines 547-559) *)
Definition test_link_text (d : document) : result unit :=
  forEach (all d links) (fun link =>
    text <- textContent d link ;;
    ariaLabel <- getAttribute d link "aria-label" ;;
    title <- getAttribute d link "title" ;;
    let hasAccessibleName :=
      or_else (or_else (Js.Str (trim text)) (Js.of_attr ariaLabel))
              (Js.of_attr title) in
    toBeTruthy hasAccessibleName).

(** ['ul[role="list"]'] *)
Definition lists : locator := Page_locator [[Tag "ul"; AttrEq "role" "list"]].

(** [should have proper list markup] (lines 561-576) *)
Definition test_list_markup (d : document) : result unit :=
  let listCount := count d lists in
  toBeGreaterThan (Js.Int (Z.of_nat listCount)) (Js.Int 0) ;;
  forRange 0 listCount (fun i =>
    let list := Nth lists i in
    let items := Locator list [[Tag "li"]] in
    let itemCount := count d items in
    toBeGreaterThan (Js.Int (Z.of_nat itemCount)) (Js.Int 0)).

(** ['input, textarea, select'] *)
Definition controls : locator :=
  Page_locator [[Tag "input"]; [Tag "textarea"]; [Tag "select"]].

(** [`label[for="${id}"]`], for an [id] that can stand between the double
    quotes as it is. *)
Definition label_for (id : option string) : locator :=
  Page_locator [[Tag "label"; AttrEq "for" (to_string id)]].

(** [should have proper form labels (if forms exist)] (lines 578-595) *)
Definition test_form_labels (d : document) : result unit :=
  forEach (all d controls) (fun input =>
    id <- getAttribute d input "id" ;;
    ariaLabel <- getAttribute d input "aria-label" ;;
    ariaLabelledby <- getAttribute d input "aria-labelledby" ;;
    if Js.truthy (Js.of_attr id) then
      let label := label_for id in
      let labelExists := 0 <? count d label in
      let hasAccessibleName :=
        or_else (or_else (Js.Bool labelExists) (Js.of_attr ariaLabel))
                (Js.of_attr ariaLabelledby) in
      toBeTruthy hasAccessibleName
    else Pass).

(** ['a, button, input, textarea, select'] *)
Definition interactive : locator :=
  Page_locator [[Tag "a"]; [Tag "button"]; [Tag "input"]; [Tag "textarea"];
                [Tag "select"]].

(** [should have keyboard accessible interactive elements] (lines
    597-619): the tabindex values, lines 608-618, after the key presses. *)
Definition check_tabindex (d : document) : result unit :=
  forEach (all d interactive) (fun element =>
    tabindex <- getAttribute d element "tabindex" ;;
    if Js.truthy (Js.of_attr tabindex) then
      toBeGreaterThanOrEqual (Js.parseInt (to_string tabindex)) (Js.Int (-1))
    else Pass).

(** [should have proper ARIA attributes] (lines 450-492): the
    [aria-label] values, lines 464-472. *)
Definition check_aria_labels (d : document) : result unit :=
  let ariaLabels := all d (Page_locator [[HasAttr "aria-label"]]) in
  toBeGreaterThan (Js.length_of ariaLabels) (Js.Int 0) ;;
  forEach ariaLabels (fun element =>
    label <- getAttribute d element "aria-label" ;;
    toBeTruthy (Js.of_attr label) ;;
    len <- attr_length label ;;
    toBeGreaterThan len (Js.Int 0)).

(** ** [should pass accessibility audit (Lighthouse)] (lines 700-758),
    step by step; step 6 is [Suite.check_image_alt_attributes]. *)

(** Step 1, lines 706-708. *)
Definition audit_document_structure (d : document) : result unit :=
  toHaveAttributePresent d Metadata.html "lang".

(** Step 2, lines 710-712. *)
Definition audit_viewport (d : document) : result unit :=
  toBeAttached d (Metadata.meta_named "viewport").

(** Step 3, lines 714-716. *)
Definition audit_title (d : document) : result unit :=
  let title := Script.title d in
  toBeGreaterThan (string_length title) (Js.Int 0).

(** Step 5, lines 724-726. *)
Definition audit_heading_structure (d : document) : result unit :=
  let h1Count := count d (Page_locator [[Tag "h1"]]) in
  toBe (Js.Num (Js.Int (Z.of_nat h1Count))) (Js.Num (Js.Int 1)).

(** Step 7, lines 736-742. *)
Definition audit_links (d : document) : result unit :=
  forEach (all d links) (fun link =>
    text <- textContent d link ;;
    ariaLabel <- getAttribute d link "aria-label" ;;
    toBeTruthy (or_else (Js.Str (trim text)) (Js.of_attr ariaLabel))).

(** ['a.skip-link'] *)
Definition skipLink : locator := Page_locator [[Tag "a"; Class "skip-link"]].

(** Step 9, lines 751-753. *)
Definition audit_skip_link (d : document) : result unit :=
  toBeAttached d skipLink.

(** Step 10, lines 755-757. *)
Definition audit_aria_usage (d : document) : result unit :=
  let ariaElements :=
    all d (Page_locator [[HasAttr "aria-label"]; [HasAttr "aria-labelledby"];
                         [HasAttr "aria-describedby"]]) in
  toBeGreaterThan (Js.length_of ariaElements) (Js.Int 0).

Section Rendering.

(** What only the rendered page decides: whether the element at a
    position is visible, and the background colour computed for it. *)
Variable visible : handle -> bool.
Variable backgroundColor : handle -> string.

(** [await expect(l).toBeVisible()] *)
Definition toBeVisible (d : document) (l : locator) : result unit :=
  h <- single_handle "toBeVisible" d l ;;
  if visible h then Pass
  else Err (LocatorExpectation "toBeVisible" l (Js.Str "visible")
              (Js.Str "hidden")).

(** ['[role="..."]'] *)
Definition with_role (role : string) : locator :=
  Page_locator [[AttrEq "role" role]].

(** [should have proper ARIA attributes] (lines 450-492): the landmark
    roles, lines 451-461. *)
Definition check_landmarks (d : document) : result unit :=
  toBeVisible d (with_role "banner") ;;
  toHaveCount d (with_role "navigation") 5 ;;
  toBeVisible d (with_role "main") ;;
  toBeVisible d (with_role "contentinfo").

(** Step 4, lines 718-722. *)
Definition audit_landmarks (d : document) : result unit :=
  toBeVisible d (with_role "banner") ;;
  toBeVisible d (with_role "main") ;;
  toBeVisible d (with_role "contentinfo") ;;
  toHaveCount d (with_role "navigation") 5.

(** [await body.evaluate(el => window.getComputedStyle(el).backgroundColor)] *)
Definition evaluate_backgroundColor (d : document) (l : locator)
  : result string :=
  h <- single_handle "evaluate" d l ;;
  Ok (backgroundColor h).

(** Step 8, lines 744-749. *)
Definition audit_contrast (d : document) : result unit :=
  bgColor <- evaluate_backgroundColor d (Page_locator [[Tag "body"]]) ;;
  toBeTruthy (Js.Str bgColor).

(** The ten steps in the order of the test; the page is the one the
    test's own [page.goto('/')] loads again. *)
Definition test_accessibility_audit (d : document) : result unit :=
  audit_document_structure d ;;
  audit_viewport d ;;
  audit_title d ;;
  audit_landmarks d ;;
  audit_heading_structure d ;;
  Suite.check_image_alt_attributes d ;;
  audit_links d ;;
  audit_contrast d ;;
  audit_skip_link d ;;
  audit_aria_usage d.

End Rendering.

(** [should have skip link for accessibility] (lines 190-196) *)
Definition test_skip_link (d : document) : result unit :=
  toBeAttached d skipLink ;;
  toHaveAttribute d skipLink "href" "#main" ;;
  toContainText d skipLink "Skip to main content".

End Accessibility.

(* ===================================================================== *)
(** * The suite: content *)
(* ===================================================================== *)

Module Content.

Import Dom Playwright Script.
Local Open Scope test_scope.

(** ['a[href="..."]'] *)
Definition link_to (href : string) : locator :=
  Page_locator [[Tag "a"; AttrEq "href" href]].

(** ['address'] *)
Definition address : locator := Page_locator [[Tag "address"]].

(** [should have correct contact information] (lines 825-839) *)
Definition test_contact_information (d : document) : result unit :=
  let phone := link_to "tel:+2348039003700" in
  toHaveCount d phone 2 ;;
  let email := link_to "mailto:customercare@wemabank.com" in
  toHaveCount d email 2 ;;
  toHaveCount d address 2 ;;
  toContainText d (First address) "Wema Towers" ;;
  toContainText d (First address) "54 Marina".

(** [page.locator('.footer__column').nth(2).locator('a')] *)
Definition branchLinks : locator :=
  Locator (Nth (Page_locator [[Class "footer__column"]]) 2) [[Tag "a"]].

Definition expectedBranches : list string :=
  ["Lagos"; "Abuja"; "Port Harcourt"; "Kano"; "Ibadan"; "View All"].

(** [should have branch location links] (lines 858-875) *)
Definition test_branch_links (d : document) : result unit :=
  toHaveCount d branchLinks 6 ;;
  forRange 0 (length expectedBranches) (fun i =>
    toContainText d (Nth branchLinks i) (nth i expectedBranches "")).

End Content.

(* ===================================================================== *)
(** * What the further tests accept *)
(* ===================================================================== *)

Module Acceptance.

Import Dom Playwright Script.

(** The attribute is present and not the empty string: what JavaScript
    takes for true in what [getAttribute] returned. *)
Definition nonempty (a : option string) : bool :=
  match a with
  | Some s => negb (String.eqb s "")
  | None => false
  end.

(** A link named by its text, its [aria-label] or its [title]. *)
Definition has_accessible_name (n : node) : bool :=
  negb (blank (Dom.textContent n))
  || nonempty (Dom.getAttribute n "aria-label")
  || nonempty (Dom.getAttribute n "title").

(** A link named by its text or its [aria-label]. *)
Definition has_text_or_label (n : node) : bool :=
  negb (blank (Dom.textContent n))
  || nonempty (Dom.getAttribute n "aria-label").

(** Some element matching the selector lies strictly inside [h]. *)
Definition has_inside (d : document) (s : selector) (h : handle) : bool :=
  existsb (fun x => inside (path h) (path x)) (querySelectorAll d s).

(** The string can stand between double quotes in a selector as it is:
    no double quote, no backslash, no line break. *)
Fixpoint quotable (s : string) : bool :=
  match s with
  | EmptyString => true
  | String c rest =>
      negb (existsb (Ascii.eqb c) ["034"; "092"; "010"; "012"; "013"]%char)
      && quotable rest
  end.

(** Some [label] element of the page has the [for] value [id]. *)
Definition has_label_for (d : document) (id : string) : bool :=
  existsb (fun h => String.eqb (localName (target h)) "label"
                    && match Dom.getAttribute (target h) "for" with
                       | Some f => String.eqb f id
                       | None => false
                       end)
          (handles d).

(** A form control that the form labels test lets through: it has no id
    or an empty one, or a label points to its id, or it carries a
    non-empty [aria-label] or [aria-labelledby]. *)
Definition labelled_or_exempt (d : document) (n : node) : bool :=
  match Dom.getAttribute n "id" with
  | None => true
  | Some id =>
      String.eqb id ""
      || has_label_for d id
      || nonempty (Dom.getAttribute n "aria-label")
      || nonempty (Dom.getAttribute n "aria-labelledby")
  end.

(** An element whose [tabindex] is absent, empty, or parses to an integer
    not below -1. *)
Definition tabindex_allowed (n : node) : bool :=
  match Dom.getAttribute n "tabindex" with
  | None => true
  | Some t => String.eqb t "" || ge (Js.parseInt t) (Js.Int (-1))
  end.

(** The step does not end in a JavaScript runtime error. *)
Definition no_type_error {A : Type} (m : result A) : Prop :=
  match m with
  | Ok _ => True
  | Err e => is_type_error e = false
  end.

(** The step passes or ends in a failed expectation about a locator. *)
Definition fails_only_by_expectation (m : result unit) : Prop :=
  match m with
  | Ok _ => True
  | Err e => is_locator_expectation e = true
  end.

(** The locator resolves to exactly one element, and that element's
    attribute [name] satisfies [accepts]. *)
Definition only_one (d : document) (l : locator) (name : string)
  (accepts : option string -> bool) : Prop :=
  exists h, resolve d l = [h]
            /\ accepts (Dom.getAttribute (target h) name) = true.

(** The attribute has exactly this value. *)
Definition is_value (v : string) (a : option string) : bool :=
  match a with
  | Some w => String.eqb w v
  | None => false
  end.

(** The attribute is present and includes the given substring. *)
Definition includes_item (item : string) (a : option string) : bool :=
  match a with
  | Some w => Js.includes item w
  | None => false
  end.

(** A string of more than [lo] and fewer than [hi] UTF-16 code units. *)
Definition length_between (lo hi : nat) (a : option string) : bool :=
  match a with
  | Some w => (lo <? Js.utf16_length w) && (Js.utf16_length w <? hi)
  | None => false
  end.

End Acceptance.

(* ===================================================================== *)
(** * A landing page and other example pages *)
(* ===================================================================== *)

Module Landing.

Import Dom.

Definition el (name : string) (attrs : list (string * string))
  (kids : list node) : node := Element name attrs kids.

Definition head : node :=
  el "head" []
    [ el "meta" [("charset", "UTF-8")] [];
      el "meta" [("name", "viewport");
                 ("content", "width=device-width, initial-scale=1.0")] [];
      el "title" [] [Text "Wema Bank - Your Trusted Banking Partner"];
      el "meta" [("name", "description");
                 ("content", "Wema Bank offers personal, business and digital banking across Nigeria.")] [];
      el "meta" [("name", "keywords");
                 ("content", "Wema Bank, banking, Nigeria, ALAT")] [];
      el "meta" [("property", "og:title");
                 ("content", "Wema Bank - Your Trusted Banking Partner")] [];
      el "meta" [("property", "og:description");
                 ("content", "Banking you can trust.")] [];
      el "meta" [("property", "og:image");
                 ("content", "https://wemabank.com/og.png")] [];
      el "meta" [("property", "og:url"); ("content", "https://wemabank.com")] [];
      el "meta" [("property", "og:type"); ("content", "website")] [];
      el "meta" [("property", "og:site_name"); ("content", "Wema Bank")] [];
      el "meta" [("name", "twitter:card"); ("content", "summary_large_image")] [];
      el "meta" [("name", "twitter:title"); ("content", "Wema Bank")] [];
      el "meta" [("name", "twitter:description");
                 ("content", "Banking you can trust.")] [];
      el "meta" [("name", "twitter:image");
                 ("content", "https://wemabank.com/card.png")] [];
      el "meta" [("name", "twitter:site"); ("content", "@wemabank")] [];
      el "link" [("rel", "canonical"); ("href", "https://wemabank.com")] [];
      el "link" [("rel", "icon"); ("href", "/favicon.ico")] [];
      el "link" [("rel", "apple-touch-icon");
                 ("href", "/apple-touch-icon.png")] [] ].

Definition header : node :=
  el "header" [("role", "banner")]
    [ el "div" [("class", "header__logo")]
        [el "a" [("href", "/"); ("aria-label", "Wema Bank Home")]
           [el "img" [("src", "/logo.svg"); ("alt", "Wema Bank");
                      ("width", "150"); ("height", "50")] []]];
      el "nav" [("role", "navigation"); ("aria-label", "Main navigation")]
        [el "ul" [("role", "list")]
           [ el "li" [("class", "nav__item")]
               [el "a" [("href", "#home"); ("aria-current", "page")]
                  [Text "Home"]];
             el "li" [("class", "nav__item")]
               [el "a" [("href", "#services")] [Text "Services"]];
             el "li" [("class", "nav__item")]
               [el "a" [("href", "#about")] [Text "About"]];
             el "li" [("class", "nav__item")]
               [el "a" [("href", "#contact")] [Text "Contact"]] ]] ].

Definition service (name : string) : node :=
  el "article" [("class", "service-card")]
    [ el "div" [("class", "service-card__icon")]
        [el "img" [("src", "/icon.svg"); ("alt", ""); ("aria-hidden", "true");
                   ("width", "64"); ("height", "64")] []];
      el "h3" [("class", "service-card__title")] [Text name];
      el "p" [("class", "service-card__description")] [Text "Details."] ].

Definition phone_link : node :=
  el "a" [("href", "tel:+2348039003700")] [Text "0803 900 3700"].

Definition mail_link : node :=
  el "a" [("href", "mailto:customercare@wemabank.com")]
    [Text "customercare@wemabank.com"].

Definition office : node :=
  el "address" [("class", "footer__address")]
    [Text "Wema Towers, 54 Marina, Lagos"].

Definition main : node :=
  el "main" [("id", "main"); ("role", "main")]
    [ el "section" [("id", "home"); ("class", "hero");
                    ("aria-labelledby", "hero-title")]
        [ el "h1" [("id", "hero-title")] [Text "  Welcome to Wema Bank "];
          el "p" [("class", "hero__description")]
            [Text "Your Trusted Banking Partner for over 75 Years"] ];
      el "section" [("id", "services"); ("class", "services");
                    ("aria-labelledby", "services-title")]
        [ el "h2" [("id", "services-title")] [Text "Our Services"];
          service "Personal Banking"; service "Business Banking";
          service "Digital Banking"; service "Investment Services" ];
      el "section" [("id", "contact"); ("class", "contact");
                    ("aria-labelledby", "contact-title")]
        [ el "h2" [("id", "contact-title")] [Text "Get In Touch"];
          el "div" [("class", "contact-item")]
            [el "h3" [] [Text "Customer Service"]; phone_link; mail_link];
          el "div" [("class", "contact-item")]
            [el "h3" [] [Text "Head Office"]; office] ] ].

Definition list_of (items : list node) : node :=
  el "nav" [("role", "navigation")]
    [el "ul" [("role", "list")] (map (fun a => el "li" [] [a]) items)].

Definition branch (name : string) : node :=
  el "a" [("href", "/branches")] [Text name].

Definition footer : node :=
  el "footer" [("role", "contentinfo")]
    [ el "div" [("class", "footer__column")]
        [ el "h3" [] [Text "About Wema Bank"]; phone_link; mail_link; office;
          list_of [el "a" [("href", "#about")] [Text "About us"]] ];
      el "div" [("class", "footer__column")]
        [ el "h3" [] [Text "Quick Links"];
          list_of [el "a" [("href", "#services")] [Text "Services"]] ];
      el "div" [("class", "footer__column")]
        [ el "h3" [] [Text "Branches"];
          list_of (map branch Content.expectedBranches) ];
      el "div" [("class", "footer__column")]
        [ el "h3" [] [Text "Follow Us"]; list_of Examples.social_links ] ].

(** A page on which the tests embedded here pass. *)
Definition page : document :=
  el "html" [("lang", "en"); ("dir", "ltr")]
    [ head;
      el "body" []
        [ el "a" [("class", "skip-link"); ("href", "#main")]
            [Text "Skip to main content"];
          header; main; footer ] ].

(** The landing page with its title moved into an inline [svg]. *)
Definition svg_titled_page : document :=
  el "html" [("lang", "en"); ("dir", "ltr")]
    [ el "head" []
        [ el "meta" [("name", "description");
                     ("content", "Wema Bank offers personal, business and digital banking across Nigeria.")] [];
          el "meta" [("name", "keywords");
                     ("content", "Wema Bank, banking, Nigeria, ALAT")] [] ];
      el "body" []
        [ el "svg" [("role", "img")]
            [el "title" [] [Text "Wema Bank - Your Trusted Banking Partner"]] ] ].

(** A page whose only link holds a no-break space (U+00A0). *)
Definition nbsp_link_page : document :=
  Examples.html [el "a" [("href", "/")] [Text (Js.bytes [194; 160])]].

(** A page whose only link is named by its [title]. *)
Definition titled_link_page : document :=
  Examples.html
    [el "a" [("href", "/app"); ("title", "Download the app")]
       [el "img" [("src", "/app.svg"); ("alt", "")] []]].

(** A form with a labelled field and a field without id. *)
Definition form_page : document :=
  Examples.html
    [el "form" []
       [ el "label" [("for", "email")] [Text "Email"];
         el "input" [("id", "email"); ("type", "email")] [];
         el "input" [("type", "text"); ("name", "nickname")] [] ]].

(** A rendering in which every element is visible and no background is
    painted. *)
Definition all_visible (h : handle) : bool := true.
Definition transparent (h : handle) : string := "rgba(0, 0, 0, 0)".

End Landing.

(* ===================================================================== *)
(** * Properties of the loops and of strict locators *)
(* ===================================================================== *)

Module Facts.

Import Dom Playwright.
Local Open Scope test_scope.

(** A test run on a concrete page is settled by evaluation. *)
Ltac by_running := vm_compute; reflexivity.

Lemma result_unit_cases (m : result unit) : m = Pass \/ exists e, m = Err e.
Proof.
  destruct m as [[]|e]; [left; reflexivity | right; exists e; reflexivity].
Qed.

(** A loop passes exactly when every iteration does. *)
Lemma forEach_pass {A : Type} (xs : list A) (body : A -> result unit) :
  forEach xs body = Pass <-> Forall (fun x => body x = Pass) xs.
Proof.
  induction xs as [|x xs IH]; simpl.
  - split; [constructor | reflexivity].
  - destruct (body x) as [[]|e] eqn:Hx; simpl.
    + rewrite IH. split.
      * intros H. constructor; [exact Hx | exact H].
      * intros H. inversion H; assumption.
    + split; [discriminate | intros H; inversion H; congruence].
Qed.

(** A loop stops at its first failing iteration with that iteration's
    error. *)
Lemma forEach_first_failure {A : Type} (pre post : list A) (x : A)
  (body : A -> result unit) (e : failure) :
  Forall (fun y => body y = Pass) pre ->
  body x = Err e ->
  forEach (pre ++ x :: post) body = Err e.
Proof.
  intros Hpre Hx. induction Hpre as [|y pre Hy _ IH]; simpl.
  - rewrite Hx. reflexivity.
  - rewrite Hy. simpl. exact IH.
Qed.

Lemma forRange_pass (start stop : nat) (body : nat -> result unit) :
  forRange start stop body = Pass <->
  (forall i, start <= i < stop -> body i = Pass).
Proof.
  unfold forRange. rewrite forEach_pass, Forall_forall. split.
  - intros H i Hi. apply H. apply in_seq. lia.
  - intros H i Hi. apply in_seq in Hi. apply H. lia.
Qed.

Lemma forRange_first_failure (start stop i : nat) (body : nat -> result unit)
  (e : failure) :
  start <= i < stop ->
  (forall j, start <= j < i -> body j = Pass) ->
  body i = Err e ->
  forRange start stop body = Err e.
Proof.
  intros Hi Hbefore Hfail. unfold forRange.
  replace (stop - start) with ((i - start) + S (stop - S i)) by lia.
  rewrite seq_app. simpl.
  replace (start + (i - start)) with i by lia.
  apply forEach_first_failure; [|exact Hfail].
  apply Forall_forall. intros j Hj. apply in_seq in Hj. apply Hbefore. lia.
Qed.

(** Gathering values over a list gives them in the list's order. *)
Lemma collect_map {A B : Type} (xs : list A) (f : A -> result B) (g : A -> B) :
  (forall x, In x xs -> f x = Ok (g x)) ->
  collect xs f = Ok (map g xs).
Proof.
  induction xs as [|x xs IH]; intros H; simpl.
  - reflexivity.
  - rewrite (H x (or_introl eq_refl)). simpl.
    rewrite IH by (intros y Hy; apply H; right; exact Hy).
    reflexivity.
Qed.

(** [l.nth(i)] is the i-th element of [l], alone. *)
Lemma resolve_nth (d : document) (l : locator) (i : nat) (h : handle) :
  nth_error (resolve d l) i = Some h -> resolve d (Nth l i) = [h].
Proof. intros H. simpl. rewrite H. reflexivity. Qed.

Lemma single_nth (op : string) (d : document) (l : locator) (i : nat)
  (h : handle) :
  nth_error (resolve d l) i = Some h ->
  single op d (Nth l i) = Ok (target h).
Proof. intros H. unfold single. rewrite (resolve_nth _ _ _ _ H). reflexivity. Qed.

(** The locators of [l.all()] are [l.nth(i)] for the elements of [l]. *)
Lemma in_all (d : document) (l x : locator) :
  In x (all d l) <->
  exists i h, x = Nth l i /\ nth_error (resolve d l) i = Some h.
Proof.
  unfold all, count. rewrite in_map_iff. split.
  - intros [i [Hx Hi]]. apply in_seq in Hi.
    destruct (nth_error (resolve d l) i) as [h|] eqn:Hn.
    + exists i, h. split; [symmetry; exact Hx | exact Hn].
    + apply nth_error_None in Hn. lia.
  - intros [i [h [Hx Hn]]]. exists i. split; [symmetry; exact Hx|].
    apply in_seq. assert (i < length (resolve d l)).
    { apply nth_error_Some. rewrite Hn. discriminate. }
    lia.
Qed.

Lemma list_as_indices {A : Type} (l : list A) (dflt : A) :
  map (fun i => nth i l dflt) (seq 0 (length l)) = l.
Proof.
  apply nth_ext with (d := dflt) (d' := dflt).
  - rewrite length_map, length_seq. reflexivity.
  - intros n Hn. rewrite length_map, length_seq in Hn.
    rewrite (nth_indep _ _ (nth 0 l dflt)) by (rewrite length_map, length_seq; exact Hn).
    rewrite (map_nth (fun i => nth i l dflt) (seq 0 (length l)) 0 n).
    rewrite seq_nth by exact Hn. reflexivity.
Qed.

(** A read of one value per locator of [l.all()] visits the elements of
    [l] in document order. *)
Lemma collect_all {B : Type} (d : document) (l : locator)
  (read : locator -> result B) (f : node -> B) :
  (forall i h, nth_error (resolve d l) i = Some h ->
               read (Nth l i) = Ok (f (target h))) ->
  collect (all d l) read = Ok (map (fun h => f (target h)) (resolve d l)).
Proof.
  intros Hread. unfold all, count.
  destruct (resolve d l) as [|h0 hs0] eqn:Hres; [reflexivity|].
  rewrite <- Hres.
  set (hs := resolve d l).
  assert (Hhs : resolve d l = hs) by reflexivity.
  transitivity (Ok (map (fun i => f (target (nth i hs h0))) (seq 0 (length hs)))).
  - rewrite (collect_map _ _ (fun x => match x with
                                       | Nth _ i => f (target (nth i hs h0))
                                       | _ => f (target h0)
                                       end)).
    + rewrite map_map. reflexivity.
    + intros x Hx. apply in_map_iff in Hx. destruct Hx as [i [Hx Hi]]. subst x.
      apply in_seq in Hi. apply Hread.
      rewrite <- Hres. change (nth_error hs i = Some (nth i hs h0)).
      apply nth_error_nth'. lia.
  - f_equal.
    rewrite <- (map_map (fun i => nth i hs h0) (fun h => f (target h))).
    rewrite list_as_indices. reflexivity.
Qed.

(** A loop over [l.all()] passes exactly when its body passes on
    [l.nth(i)] for every element of [l]. *)
Lemma forEach_all_pass (d : document) (l : locator)
  (body : locator -> result unit) :
  forEach (all d l) body = Pass <->
  (forall i h, nth_error (resolve d l) i = Some h -> body (Nth l i) = Pass).
Proof.
  rewrite forEach_pass, Forall_forall. split.
  - intros H i h Hn. apply H. apply in_all. exists i, h. split; [reflexivity | exact Hn].
  - intros H x Hx. apply in_all in Hx. destruct Hx as [i [h [-> Hn]]].
    apply (H i h Hn).
Qed.

Lemma getAttribute_nth (d : document) (l : locator) (i : nat) (h : handle)
  (name : string) :
  nth_error (resolve d l) i = Some h ->
  getAttribute d (Nth l i) name = Ok (Dom.getAttribute (target h) name).
Proof.
  intros H. unfold getAttribute. rewrite (single_nth _ _ _ _ _ H). reflexivity.
Qed.

Lemma prefix_spec (a s : string) :
  String.prefix a s = true <-> exists post, s = (a ++ post)%string.
Proof.
  revert s. induction a as [|c a IH]; intros s.
  - destruct s; simpl; (split; [intros _; eexists; reflexivity | reflexivity]).
  - destruct s as [|c' s]; simpl.
    + split; [discriminate | intros [post H]; discriminate].
    + destruct (ascii_dec c c') as [->|Hne].
      * rewrite IH. split; intros [post H]; exists post; congruence.
      * split; [discriminate | intros [post H]; congruence].
Qed.

(** [Js.includes] is containment as a contiguous substring. *)
Lemma includes_spec (needle s : string) :
  Js.includes needle s = true <->
  exists pre post, s = (pre ++ needle ++ post)%string.
Proof.
  induction s as [|c s IH].
  - change (Js.includes needle EmptyString)
      with (String.prefix needle EmptyString || false).
    rewrite orb_false_r, prefix_spec. split.
    + intros [post H]. exists EmptyString, post. exact H.
    + intros [pre [post H]]. destruct pre; [exists post; exact H | discriminate].
  - change (Js.includes needle (String c s))
      with (String.prefix needle (String c s) || Js.includes needle s).
    rewrite orb_true_iff, prefix_spec, IH. split.
    + intros [[post H] | [pre [post H]]].
      * exists EmptyString, post. exact H.
      * exists (String c pre), post. simpl. congruence.
    + intros [[|c' pre] [post H]].
      * left. exists post. exact H.
      * right. exists pre, post. simpl in H. congruence.
Qed.

(** A loop that fails does so at an index before which every iteration
    passed. *)
Lemma forEach_failure {A : Type} (xs : list A) (body : A -> result unit)
  (e : failure) :
  forEach xs body = Err e ->
  exists pre x post,
    xs = pre ++ x :: post
    /\ Forall (fun y => body y = Pass) pre
    /\ body x = Err e.
Proof.
  induction xs as [|x xs IH]; simpl; [discriminate|].
  destruct (body x) as [[]|e'] eqn:Hx; simpl.
  - intros H. destruct (IH H) as [pre [y [post [-> [Hpre Hy]]]]].
    exists (x :: pre), y, post. split; [reflexivity|].
    split; [constructor; assumption | exact Hy].
  - intros H. injection H as <-. exists [], x, xs.
    split; [reflexivity | split; [constructor | exact Hx]].
Qed.

Lemma forRange_failure (start stop : nat) (body : nat -> result unit)
  (e : failure) :
  forRange start stop body = Err e ->
  exists i, start <= i < stop
            /\ (forall j, start <= j < i -> body j = Pass)
            /\ body i = Err e.
Proof.
  unfold forRange. intros H.
  destruct (forEach_failure _ _ _ H) as [pre [i [post [Hseq [Hpre Hi]]]]].
  assert (Hlen : length pre + S (length post) = stop - start).
  { pose proof (length_seq (stop - start) start) as L.
    rewrite Hseq, length_app in L. simpl in L. exact L. }
  assert (Hith : nth (length pre) (seq start (stop - start)) 0 = i).
  { rewrite Hseq, app_nth2, Nat.sub_diag by lia. reflexivity. }
  rewrite seq_nth in Hith by lia.
  exists i. split; [lia|]. split; [|exact Hi].
  intros j Hj. rewrite Forall_forall in Hpre. apply Hpre.
  assert (Hjth : nth (j - start) (seq start (stop - start)) 0 = j).
  { rewrite seq_nth by lia. lia. }
  rewrite Hseq, app_nth1 in Hjth by lia.
  rewrite <- Hjth. apply nth_In. lia.
Qed.

(** [toContainText] on a locator that resolves to one element compares
    that element's text. *)
Lemma toContainText_one (d : document) (l : locator) (h : handle)
  (expected : string) :
  resolve d l = [h] ->
  toContainText d l expected
  = if Js.includes (Js.normalizeWhiteSpace expected)
                   (Js.normalizeWhiteSpace (elementText d h))
    then Pass
    else Err (LocatorExpectation "toContainText" l (Js.Str expected)
                (Js.Str (elementText d h))).
Proof.
  intros H. unfold toContainText, single_handle. rewrite H. reflexivity.
Qed.

Lemma toContainText_pass (d : document) (l : locator) (expected : string) :
  toContainText d l expected = Pass <->
  exists h, resolve d l = [h]
            /\ Js.includes (Js.normalizeWhiteSpace expected)
                           (Js.normalizeWhiteSpace (elementText d h)) = true.
Proof.
  unfold toContainText, single_handle.
  destruct (resolve d l) as [|h [|h' hs]]; cbn [bind].
  - split; [discriminate | intros [h [H _]]; discriminate].
  - destruct (Js.includes (Js.normalizeWhiteSpace expected)
                (Js.normalizeWhiteSpace (elementText d h))) eqn:E.
    + split; [|reflexivity]. intros _. exists h. split; [reflexivity | exact E].
    + split; [discriminate|]. intros [h0 [H Hc]]. injection H as <-. congruence.
  - split; [discriminate | intros [h0 [H _]]; discriminate].
Qed.

End Facts.

(* ===================================================================== *)
(** * The heading hierarchy check *)
(* ===================================================================== *)

Module HeadingHierarchy.

Import Dom Playwright Suite Outcomes Facts.
Local Open Scope test_scope.

Lemma index_of_ints (levels : list Z) (i : nat) :
  i < length levels ->
  Js.index (map Js.Int levels) i = Js.Int (nth i levels 0%Z).
Proof.
  intros Hi. unfold Js.index.
  rewrite (nth_indep _ Js.NaN (Js.Int 0)) by (rewrite length_map; exact Hi).
  apply (map_nth Js.Int).
Qed.

(** One iteration of the loop at lines 525-528. *)
Lemma iteration (levels : list Z) (i : nat) :
  1 <= i < length levels ->
  toBeLessThanOrEqual
    (Js.sub (Js.index (map Js.Int levels) i)
            (Js.index (map Js.Int levels) (i - 1)))
    (Js.Int 1)
  = if (step levels i <=? 1)%Z then Pass else Err (skipped_level (step levels i)).
Proof.
  intros Hi.
  rewrite !index_of_ints by lia.
  reflexivity.
Qed.

Lemma levels_pass_iff (levels : list Z) :
  check_no_level_skipped (map Js.Int levels) = Pass <->
  (forall i, 1 <= i < length levels -> (step levels i <= 1)%Z).
Proof.
  unfold check_no_level_skipped. rewrite forRange_pass, length_map.
  split; intros H i Hi; specialize (H i Hi); rewrite iteration in * by exact Hi.
  - destruct (step levels i <=? 1)%Z eqn:E; [lia | discriminate].
  - destruct (step levels i <=? 1)%Z eqn:E; [reflexivity | lia].
Qed.

Lemma fails_at_first_skip (levels : list Z) (i : nat) :
  1 <= i < length levels ->
  (forall j, 1 <= j < i -> (step levels j <= 1)%Z) ->
  (1 < step levels i)%Z ->
  check_no_level_skipped (map Js.Int levels)
  = Err (skipped_level (step levels i)).
Proof.
  intros Hi Hbefore Hskip. unfold check_no_level_skipped.
  rewrite length_map.
  apply forRange_first_failure with (i := i); [exact Hi | |].
  - intros j Hj. rewrite iteration by lia.
    specialize (Hbefore j Hj).
    destruct (step levels j <=? 1)%Z eqn:E; [reflexivity | lia].
  - rewrite iteration by exact Hi.
    destruct (step levels i <=? 1)%Z eqn:E; [lia | reflexivity].
Qed.

Lemma level_of_heading (n : node) :
  matches n headings = true ->
  exists z, level_of n = Js.Int z /\ (1 <= z <= 6)%Z.
Proof.
  unfold matches, headings, level_of, tagName. simpl.
  rewrite !andb_true_r, orb_false_r, !orb_true_iff.
  intros H.
  repeat match goal with
         | H : _ \/ _ |- _ => destruct H as [H | H]
         end;
    apply String.eqb_eq in H; rewrite H;
    eexists; (split; [by_running | lia]).
Qed.

(** Lines 515-522 always succeed, and give the levels of the page's
    headings in document order. *)
Lemma headingLevels_spec (d : document) :
  headingLevels d
  = Ok (map (fun h => level_of (target h)) (querySelectorAll d headings)).
Proof.
  unfold headingLevels.
  apply (collect_all d (Page_locator headings) _ level_of).
  intros i h Hn. unfold evaluate_tagName.
  rewrite (single_nth _ _ _ _ _ Hn). reflexivity.
Qed.

Lemma headingLevels_are_levels (d : document) :
  exists levels : list Z,
    headingLevels d = Ok (map Js.Int levels)
    /\ Forall (fun z => 1 <= z <= 6)%Z levels
    /\ length levels = length (querySelectorAll d headings).
Proof.
  rewrite headingLevels_spec.
  assert (Hall : forall h, In h (querySelectorAll d headings) ->
                           matches (target h) headings = true).
  { intros h Hh. unfold querySelectorAll in Hh. apply filter_In in Hh. tauto. }
  induction (querySelectorAll d headings) as [|h hs IH].
  - exists []. repeat split. constructor.
  - destruct IH as [levels [Heq [Hrange Hlen]]].
    { intros h' Hh'. apply Hall. right. exact Hh'. }
    destruct (level_of_heading (target h)) as [z [Hz Hzr]].
    { apply Hall. left. reflexivity. }
    exists (z :: levels). simpl. rewrite Hz.
    injection Heq as Heq. rewrite Heq.
    repeat split; [constructor; assumption | simpl; f_equal; exact Hlen].
Qed.

(** C1 (counterexample): the level sequence 1, 2, 3, 2, 4 does not pass;
    its last step, from 2 to 4, is a difference of 2. *)
Lemma levels_1_2_3_2_4_are_rejected :
  check_no_level_skipped (map Js.Int [1; 2; 3; 2; 4]%Z)
  = Err (skipped_level 2)
  /\ check_no_level_skipped (map Js.Int [1; 2; 3; 2; 4]%Z) <> Pass.
Proof. split; [by_running | vm_compute; discriminate]. Qed.

(** C1 (amended): over the levels of the page's headings in document order
    (integers from 1 to 6), the check passes exactly when no heading is more
    than one level above the heading before it, and fails at the first such
    step with the difference received; steps down of any size pass.  The
    sequence 1, 2, 3, 2, 4 fails (from 2 to 4), 1, 2, 3, 2, 3 passes, and
    1, 3 fails with difference 2. *)
Theorem heading_check_fails_exactly_on_skipped_levels :
  (forall levels : list Z,
      check_no_level_skipped (map Js.Int levels) = Pass <->
      (forall i, 1 <= i < length levels ->
                 (nth i levels 0 - nth (i - 1) levels 0 <= 1)%Z))
  /\ (forall (levels : list Z) (i : nat),
         1 <= i < length levels ->
         (forall j, 1 <= j < i ->
                    (nth j levels 0 - nth (j - 1) levels 0 <= 1)%Z) ->
         (1 < nth i levels 0 - nth (i - 1) levels 0)%Z ->
         check_no_level_skipped (map Js.Int levels)
         = Err (skipped_level (nth i levels 0 - nth (i - 1) levels 0)%Z))
  /\ (forall levels : list Z,
         (forall i, 1 <= i < length levels ->
                    (nth i levels 0 <= nth (i - 1) levels 0)%Z) ->
         check_no_level_skipped (map Js.Int levels) = Pass)
  /\ check_no_level_skipped (map Js.Int [1; 2; 3; 2; 4]%Z)
     = Err (skipped_level 2)
  /\ check_no_level_skipped (map Js.Int [1; 2; 3; 2; 3]%Z) = Pass
  /\ check_no_level_skipped (map Js.Int [1; 3]%Z) = Err (skipped_level 2)
  /\ check_no_level_skipped (map Js.Int [1; 2; 3; 4; 1; 2]%Z) = Pass
  /\ (forall d : document,
         exists levels : list Z,
           headingLevels d = Ok (map Js.Int levels)
           /\ Forall (fun z => 1 <= z <= 6)%Z levels
           /\ length levels = length (querySelectorAll d headings)).
Proof.
  split; [|split; [|split]].
  - intros levels. apply levels_pass_iff.
  - intros levels i Hi Hbefore Hskip.
    apply (fails_at_first_skip levels i Hi Hbefore Hskip).
  - intros levels Hdown. apply levels_pass_iff. intros i Hi.
    specialize (Hdown i Hi). unfold step. lia.
  - repeat split; try (by_running).
    apply headingLevels_are_levels.
Qed.

End HeadingHierarchy.

(* ===================================================================== *)
(** * Ordered navigation links *)
(* ===================================================================== *)

Module OrderedSequence.

Import Dom Playwright Suite Outcomes Facts.
Local Open Scope test_scope.

Lemma link_check (d : document) (items : locator) (i : nat) (e : string)
  (h : handle) :
  resolve d (link_of items i) = [h] ->
  toContainText d (link_of items i) e
  = if contains_text e (elementText d h) then Pass
    else Err (text_mismatch items i e (elementText d h)).
Proof. intros Hh. apply (toContainText_one _ _ _ _ Hh). Qed.

Lemma links_pass_iff (d : document) (items : locator) (expected : list string) :
  check_links_in_order d items expected = Pass <->
  (forall i, i < length expected ->
             exists h, resolve d (link_of items i) = [h]
                       /\ contains_text (nth i expected "") (elementText d h)
                          = true).
Proof.
  unfold check_links_in_order. rewrite forRange_pass. split.
  - intros H i Hi. apply toContainText_pass. apply H. lia.
  - intros H i Hi. apply toContainText_pass. apply H. lia.
Qed.

Lemma fails_at_first_mismatch (d : document) (items : locator)
  (expected : list string) (i : nat) (h : handle) :
  i < length expected ->
  (forall j, j < i ->
             toContainText d (link_of items j) (nth j expected "") = Pass) ->
  resolve d (link_of items i) = [h] ->
  contains_text (nth i expected "") (elementText d h) = false ->
  check_links_in_order d items expected
  = Err (text_mismatch items i (nth i expected "") (elementText d h)).
Proof.
  intros Hi Hbefore Hh Hmiss. unfold check_links_in_order.
  apply forRange_first_failure with (i := i).
  - lia.
  - intros j Hj. apply Hbefore. lia.
  - change (toContainText d (link_of items i) (nth i expected "")
            = Err (text_mismatch items i (nth i expected "") (elementText d h))).
    rewrite (link_check _ _ _ _ _ Hh), Hmiss. reflexivity.
Qed.

Lemma failure_is_first (d : document) (items : locator)
  (expected : list string) (e : failure) :
  check_links_in_order d items expected = Err e ->
  exists i, i < length expected
            /\ (forall j, j < i ->
                           toContainText d (link_of items j) (nth j expected "")
                           = Pass)
            /\ toContainText d (link_of items i) (nth i expected "") = Err e.
Proof.
  unfold check_links_in_order. intros H.
  destruct (forRange_failure _ _ _ _ H) as [i [Hi [Hbefore Hfail]]].
  exists i. split; [lia|]. split; [|exact Hfail].
  intros j Hj. apply Hbefore. lia.
Qed.

(** C3: the loop over the expected labels passes exactly when the link of
    every item contains the label at the same index.  Otherwise it fails
    at the first index that fails, and when the link text there does not
    contain its label the error names that index (in the locator), the
    expected label and the text received.  With the labels Home, Services,
    About, Contact expected and the links Home, About, Services, Contact
    on the page, it fails at index 1, expecting Services and receiving
    About.  The text compared is Playwright's element text: the content
    of a [style] element inside a link does not count, and white space of
    any kind separates words. *)
Theorem ordered_links_fail_at_first_mismatch :
  (forall (d : document) (items : locator) (expected : list string),
      (check_links_in_order d items expected = Pass <->
       forall i, i < length expected ->
                 exists h, resolve d (link_of items i) = [h]
                           /\ contains_text (nth i expected "")
                                            (elementText d h) = true)
      /\
      (forall (i : nat) (h : handle),
          i < length expected ->
          (forall j, j < i ->
                     toContainText d (link_of items j) (nth j expected "")
                     = Pass) ->
          resolve d (link_of items i) = [h] ->
          contains_text (nth i expected "") (elementText d h) = false ->
          check_links_in_order d items expected
          = Err (text_mismatch items i (nth i expected "")
                               (elementText d h)))
      /\
      (forall e : failure,
          check_links_in_order d items expected = Err e ->
          exists i, i < length expected
                    /\ (forall j, j < i ->
                                   toContainText d (link_of items j)
                                                 (nth j expected "") = Pass)
                    /\ toContainText d (link_of items i) (nth i expected "")
                       = Err e))
  /\ navLinks = ["Home"; "Services"; "About"; "Contact"]
  /\ check_navigation_items
       (Examples.nav_page ["Home"; "About"; "Services"; "Contact"])
     = Err (text_mismatch navItems 1 "Services" "About")
  /\ check_navigation_items
       (Examples.nav_page ["Home"; "Services"; "About"; "Contact"])
     = Pass
  /\ check_navigation_items Examples.styled_nav_page
     = Err (text_mismatch navItems 1 "Services" "About")
  /\ check_navigation_items Examples.spaced_nav_page = Pass.
Proof.
  split; [|repeat split; by_running].
  intros d items expected. split; [|split].
  - apply links_pass_iff.
  - intros i h. apply fails_at_first_mismatch.
  - intros e. apply failure_is_first.
Qed.

End OrderedSequence.

(* ===================================================================== *)
(** * Counting matches *)
(* ===================================================================== *)

Module CountRule.

Import Dom Playwright Suite Outcomes Facts.
Local Open Scope test_scope.

Lemma toHaveCount_pass (d : document) (l : locator) (n : nat) :
  toHaveCount d l n = Pass <-> count d l = n.
Proof.
  unfold toHaveCount. destruct (count d l =? n) eqn:E.
  - apply Nat.eqb_eq in E. tauto.
  - apply Nat.eqb_neq in E. split; [discriminate | tauto].
Qed.

Lemma toHaveCount_fail (d : document) (l : locator) (n : nat) :
  count d l <> n ->
  toHaveCount d l n = Err (count_mismatch l n (count d l)).
Proof.
  intros H. unfold toHaveCount. apply Nat.eqb_neq in H. rewrite H. reflexivity.
Qed.

(** The service cards counted are the elements whose [class] attribute
    holds the token [service-card]. *)
Lemma service_cards_counted (d : document) :
  count d serviceCards
  = length (filter (fun h => has_class (target h) "service-card") (handles d)).
Proof.
  unfold count, serviceCards. simpl. unfold querySelectorAll. f_equal.
  apply filter_ext. intros h. unfold matches, matches_compound. simpl.
  rewrite andb_true_r, orb_false_r. reflexivity.
Qed.

(** C4: [toHaveCount(4)] passes when the selector matches exactly 4
    elements and fails otherwise, the error carrying the observed count; in
    particular 3 or 5 service cards fail with received count 3 or 5. *)
Theorem exact_count_of_four :
  (forall (d : document) (l : locator),
      (count d l = 4 -> toHaveCount d l 4 = Pass)
      /\ (count d l = 3 -> toHaveCount d l 4 = Err (count_mismatch l 4 3))
      /\ (count d l = 5 -> toHaveCount d l 4 = Err (count_mismatch l 4 5))
      /\ (toHaveCount d l 4 = Pass -> count d l = 4)
      /\ (count d l <> 4 ->
          toHaveCount d l 4 = Err (count_mismatch l 4 (count d l))))
  /\ (forall d : document,
         check_service_card_count d = toHaveCount d serviceCards 4
         /\ count d serviceCards
            = length (filter (fun h => has_class (target h) "service-card")
                             (handles d)))
  /\ check_service_card_count (Examples.cards_page 4) = Pass
  /\ check_service_card_count (Examples.cards_page 3)
     = Err (count_mismatch serviceCards 4 3)
  /\ check_service_card_count (Examples.cards_page 5)
     = Err (count_mismatch serviceCards 4 5).
Proof.
  split; [|split; [|repeat split; by_running]].
  - intros d l. repeat split.
    + intros H. apply toHaveCount_pass. exact H.
    + intros H. rewrite toHaveCount_fail by lia. rewrite H. reflexivity.
    + intros H. rewrite toHaveCount_fail by lia. rewrite H. reflexivity.
    + apply toHaveCount_pass.
    + apply toHaveCount_fail.
  - intros d. split; [reflexivity | apply service_cards_counted].
Qed.

End CountRule.

(* ===================================================================== *)
(** * References from [aria-labelledby] *)
(* ===================================================================== *)

Module AriaCrossReference.

Import Dom Playwright Suite Outcomes Facts.
Local Open Scope test_scope.

Lemma resolve_label (d : document) (labelId : string) :
  resolve d (label_locator labelId) = referenced d labelId.
Proof.
  unfold label_locator, referenced. simpl. unfold querySelectorAll.
  apply filter_ext. intros h. unfold matches, matches_compound. simpl.
  rewrite andb_true_r, orb_false_r. reflexivity.
Qed.

Lemma referenced_spec (d : document) (labelId : string) (h : handle) :
  In h (referenced d labelId) <->
  In h (handles d) /\ Dom.getAttribute (target h) "id" = Some labelId.
Proof.
  unfold referenced. rewrite filter_In. unfold attr_is.
  destruct (Dom.getAttribute (target h) "id") as [v|].
  - split; intros [Hin Hv]; (split; [exact Hin|]).
    + apply String.eqb_eq in Hv. congruence.
    + injection Hv as ->. apply String.eqb_refl.
  - split; intros [_ Hv]; discriminate.
Qed.

(** Lines 479-481 on one element: the outcome is decided by how many
    elements carry the referenced id. *)
Lemma label_reference_outcome (d : document) (element : locator) (el : node)
  (labelId : string) :
  single "getAttribute" d element = Ok el ->
  Dom.getAttribute el "aria-labelledby" = Some labelId ->
  check_label_reference d element
  = match referenced d labelId with
    | [] => Err (NoElement "toBeAttached" (label_locator labelId))
    | [_] => Pass
    | hs => Err (StrictModeViolation (label_locator labelId) (length hs))
    end.
Proof.
  intros Hel Hattr. unfold check_label_reference, getAttribute.
  rewrite Hel. simpl. rewrite Hattr. simpl.
  unfold toBeAttached, single.
  change (Page_locator (id_selector (Some labelId)))
    with (label_locator labelId).
  rewrite resolve_label.
  destruct (referenced d labelId) as [|h1 [|h2 hs]]; reflexivity.
Qed.

(** C5 (counterexample): with two elements sharing the id [hero-title],
    the reference check of the section labelled by it does not pass; the
    locator of the label is rejected for resolving to 2 elements. *)
Lemma shared_id_is_rejected :
  check_label_reference
    (Examples.labelled_page ["hero-title"; "hero-title"])
    (Nth (Page_locator [[HasAttr "aria-labelledby"]]) 0)
  = Err (StrictModeViolation (label_locator "hero-title") 2)
  /\ check_aria_labelledby (Examples.labelled_page ["hero-title"; "hero-title"])
     = Err (StrictModeViolation (label_locator "hero-title") 2).
Proof. split; by_running. Qed.

(** The identifiers the theorem below is stated for leave out the strings
    that are no id selector after [#]. *)
Lemma plain_identifiers :
  is_identifier "hero-title" = true
  /\ is_identifier "-hero" = true
  /\ is_identifier "-1st-title" = false
  /\ is_identifier "-" = false
  /\ is_identifier "-9" = false
  /\ is_identifier "1st" = false
  /\ is_identifier "hero title" = false.
Proof. repeat split; by_running. Qed.

(** C5 (amended): for an element whose [aria-labelledby] is the identifier
    [labelId], the check fails when no element of the page has that id,
    passes when exactly one has it, and fails with a strict mode violation
    that reports their number when two or more share it. *)
Theorem label_reference_needs_exactly_one_target
  (d : document) (element : locator) (el : node) (labelId : string) :
  single "getAttribute" d element = Ok el ->
  Dom.getAttribute el "aria-labelledby" = Some labelId ->
  is_identifier labelId = true ->
  (length (referenced d labelId) = 0 ->
   check_label_reference d element
   = Err (NoElement "toBeAttached" (label_locator labelId)))
  /\ (length (referenced d labelId) = 1 ->
      check_label_reference d element = Pass)
  /\ (2 <= length (referenced d labelId) ->
      check_label_reference d element
      = Err (StrictModeViolation (label_locator labelId)
                                 (length (referenced d labelId))))
  /\ (forall h, In h (referenced d labelId) <->
                In h (handles d)
                /\ Dom.getAttribute (target h) "id" = Some labelId).
Proof.
  intros Hel Hattr _.
  rewrite (label_reference_outcome d element el labelId Hel Hattr).
  split; [|split; [|split]].
  - destruct (referenced d labelId) as [|h1 hs]; [reflexivity | discriminate].
  - destruct (referenced d labelId) as [|h1 [|h2 hs]];
      [discriminate | reflexivity | discriminate].
  - destruct (referenced d labelId) as [|h1 [|h2 hs]]; simpl; intros H;
      [lia | lia | reflexivity].
  - intros h. apply referenced_spec.
Qed.

(** The theorem at the hero section of a page with one [hero-title]. *)
Lemma label_reference_on_hero_page :
  (length (referenced (Examples.labelled_page ["hero-title"]) "hero-title") = 0 ->
   check_label_reference (Examples.labelled_page ["hero-title"])
     (Nth (Page_locator [[HasAttr "aria-labelledby"]]) 0)
   = Err (NoElement "toBeAttached" (label_locator "hero-title")))
  /\ (length (referenced (Examples.labelled_page ["hero-title"]) "hero-title") = 1 ->
      check_label_reference (Examples.labelled_page ["hero-title"])
        (Nth (Page_locator [[HasAttr "aria-labelledby"]]) 0)
      = Pass)
  /\ (2 <= length (referenced (Examples.labelled_page ["hero-title"]) "hero-title") ->
      check_label_reference (Examples.labelled_page ["hero-title"])
        (Nth (Page_locator [[HasAttr "aria-labelledby"]]) 0)
      = Err (StrictModeViolation (label_locator "hero-title")
               (length (referenced (Examples.labelled_page ["hero-title"])
                                   "hero-title"))))
  /\ (forall h,
         In h (referenced (Examples.labelled_page ["hero-title"]) "hero-title") <->
         In h (handles (Examples.labelled_page ["hero-title"]))
         /\ Dom.getAttribute (target h) "id" = Some "hero-title").
Proof.
  apply (label_reference_needs_exactly_one_target
           (Examples.labelled_page ["hero-title"])
           (Nth (Page_locator [[HasAttr "aria-labelledby"]]) 0)
           (Element "section"
              [("id", "home"); ("aria-labelledby", "hero-title")] [])
           "hero-title");
    reflexivity.
Defined.

End AriaCrossReference.

(* ===================================================================== *)
(** * Links that open in a new tab *)
(* ===================================================================== *)

Module ExternalLinks.

Import Dom Playwright Suite Outcomes Facts.
Local Open Scope test_scope.

Lemma external_link_spec (d : document) (h : handle) :
  In h (resolve d externalLinks) <->
  In h (handles d)
  /\ localName (target h) = "a"
  /\ exists t, Dom.getAttribute (target h) "target" = Some t
               /\ eqb_ignoring_case t "_blank" = true.
Proof.
  unfold externalLinks. simpl. unfold querySelectorAll.
  rewrite filter_In. unfold matches, matches_compound. simpl.
  rewrite andb_true_r, orb_false_r, andb_true_iff. unfold attr_is.
  rewrite String.eqb_eq.
  destruct (Dom.getAttribute (target h) "target") as [v|].
  - change (value_matches "target" v "_blank")
      with (eqb_ignoring_case v "_blank").
    split.
    + intros [Hin [Hname Hv]]. repeat split; try assumption.
      exists v. split; [reflexivity | exact Hv].
    + intros [Hin [Hname [t [Ht Hv]]]]. injection Ht as <-.
      repeat split; assumption.
  - split.
    + intros [_ [_ Hv]]. discriminate.
    + intros [_ [_ [t [Ht _]]]]. discriminate.
Qed.

(** The body of the loop at lines 767-773 on the i-th link. *)
Lemma secure_link_iteration (d : document) (i : nat) (h : handle) :
  nth_error (resolve d externalLinks) i = Some h ->
  (rel <- getAttribute d (Nth externalLinks i) "rel" ;;
   toContain (Js.of_attr rel) "noopener" ;;
   toContain (Js.of_attr rel) "noreferrer") = Pass
  <-> rel_includes (target h) "noopener" = true
      /\ rel_includes (target h) "noreferrer" = true.
Proof.
  intros Hn. rewrite (getAttribute_nth _ _ _ _ _ Hn). simpl.
  unfold rel_includes, toContain, check.
  destruct (Dom.getAttribute (target h) "rel") as [rel|]; simpl.
  - destruct (Js.includes "noopener" rel); simpl.
    + destruct (Js.includes "noreferrer" rel); simpl.
      * split; [intros _; split; reflexivity | reflexivity].
      * split; [discriminate | intros [_ H]; discriminate].
    + split; [discriminate | intros [H _]; discriminate].
  - split; [discriminate | intros [H _]; discriminate].
Qed.

Lemma secure_external_links_iff (d : document) :
  test_secure_external_links d = Pass <->
  (forall h, In h (resolve d externalLinks) ->
             rel_includes (target h) "noopener" = true
             /\ rel_includes (target h) "noreferrer" = true).
Proof.
  unfold test_secure_external_links. rewrite forEach_all_pass. split.
  - intros H h Hh. apply In_nth_error in Hh. destruct Hh as [i Hn].
    apply (secure_link_iteration d i h Hn). apply (H i h Hn).
  - intros H i h Hn. apply (secure_link_iteration d i h Hn).
    apply H. apply (nth_error_In _ _ Hn).
Qed.

(** The body of the loop at lines 409-420 on the i-th social link passes
    only if the link opens in a new tab with exactly the [rel] value
    [noopener noreferrer]. *)
Lemma social_link_iteration (d : document) (i : nat) (h : handle)
  (expected : social) :
  nth_error (resolve d socialLinks) i = Some h ->
  (href <- getAttribute d (Nth socialLinks i) "href" ;;
   ariaLabel <- getAttribute d (Nth socialLinks i) "aria-label" ;;
   target <- getAttribute d (Nth socialLinks i) "target" ;;
   rel <- getAttribute d (Nth socialLinks i) "rel" ;;
   toContain (Js.of_attr href) (url expected) ;;
   toContain (Js.of_attr ariaLabel) (platform expected) ;;
   toBe (Js.of_attr target) (Js.Str "_blank") ;;
   toBe (Js.of_attr rel) (Js.Str "noopener noreferrer")) = Pass ->
  Dom.getAttribute (target h) "target" = Some "_blank"
  /\ Dom.getAttribute (target h) "rel" = Some "noopener noreferrer".
Proof.
  intros Hn. rewrite !(getAttribute_nth _ _ _ _ _ Hn). simpl.
  unfold toContain, toBe, check.
  destruct (match Js.of_attr (Dom.getAttribute (target h) "href") with
            | Js.Str s => Js.includes (url expected) s
            | _ => false
            end); simpl; [|discriminate].
  destruct (match Js.of_attr (Dom.getAttribute (target h) "aria-label") with
            | Js.Str s => Js.includes (platform expected) s
            | _ => false
            end); simpl; [|discriminate].
  destruct (Dom.getAttribute (target h) "target") as [t|]; simpl; [|discriminate].
  destruct (String.eqb t "_blank") eqn:Et; simpl; [|discriminate].
  destruct (Dom.getAttribute (target h) "rel") as [r|]; simpl; [|discriminate].
  destruct (String.eqb r "noopener noreferrer") eqn:Er; simpl; [|discriminate].
  apply String.eqb_eq in Et, Er. subst. intros _. split; reflexivity.
Qed.

Lemma social_links_pass (d : document) :
  check_social_links d = Pass ->
  count d socialLinks = 4
  /\ (forall h, In h (resolve d socialLinks) ->
                Dom.getAttribute (target h) "target" = Some "_blank"
                /\ Dom.getAttribute (target h) "rel"
                   = Some "noopener noreferrer").
Proof.
  unfold check_social_links. intros H.
  destruct (toHaveCount d socialLinks 4) as [[]|e] eqn:Hcount; [|discriminate].
  simpl in H.
  assert (Hfour : count d socialLinks = 4).
  { unfold toHaveCount in Hcount.
    destruct (count d socialLinks =? 4) eqn:E; [|discriminate].
    apply Nat.eqb_eq. exact E. }
  split; [exact Hfour|].
  intros h Hh. apply In_nth_error in Hh. destruct Hh as [i Hn].
  assert (Hi : i < 4).
  { unfold count in Hfour. rewrite <- Hfour. apply nth_error_Some.
    rewrite Hn. discriminate. }
  rewrite forRange_pass in H.
  apply (social_link_iteration d i h (nth i expectedSocial (Social "" "")) Hn).
  apply H. simpl. lia.
Qed.

Lemma tokens_of_exact_rel :
  tokens "noopener noreferrer" = ["noopener"; "noreferrer"].
Proof. by_running. Qed.

(** C9: on a page that passes the social links check and on which every
    link that opens in a new tab is one of the social links (as when these
    links are exactly the four social links), every [a] element whose
    [target] is [_blank] carries a [rel] attribute that has both the token
    [noopener] and the token [noreferrer].  The external links test itself
    is not tied to a list: it ranges over every [a] element of the page
    whose [target] is [_blank], and passes exactly when the [rel] of each
    includes both words. *)
Theorem external_links_carry_noopener_and_noreferrer (d : document) :
  check_social_links d = Pass ->
  (forall h, In h (resolve d externalLinks) -> In h (resolve d socialLinks)) ->
  (forall h,
      In h (handles d) ->
      localName (target h) = "a" ->
      (exists t, Dom.getAttribute (target h) "target" = Some t
                 /\ eqb_ignoring_case t "_blank" = true) ->
      Dom.getAttribute (target h) "rel" = Some "noopener noreferrer"
      /\ rel_has_token (target h) "noopener" = true
      /\ rel_has_token (target h) "noreferrer" = true)
  /\ (forall h, In h (resolve d externalLinks) <->
                In h (handles d)
                /\ localName (target h) = "a"
                /\ exists t, Dom.getAttribute (target h) "target" = Some t
                             /\ eqb_ignoring_case t "_blank" = true)
  /\ (test_secure_external_links d = Pass <->
      forall h, In h (resolve d externalLinks) ->
                rel_includes (target h) "noopener" = true
                /\ rel_includes (target h) "noreferrer" = true).
Proof.
  intros Hsocial Hsub. split; [|split].
  - intros h Hin Hname Htarget.
    assert (Hext : In h (resolve d externalLinks)).
    { apply external_link_spec. tauto. }
    destruct (social_links_pass d Hsocial) as [_ Hall].
    destruct (Hall h (Hsub h Hext)) as [_ Hrel].
    split; [exact Hrel|].
    unfold rel_has_token. rewrite Hrel. rewrite tokens_of_exact_rel.
    split; reflexivity.
  - intros h. apply external_link_spec.
  - apply secure_external_links_iff.
Qed.

(** The theorem on the footer with the four social links. *)
Lemma external_links_of_social_page :
  (forall h,
      In h (handles Examples.social_page) ->
      localName (target h) = "a" ->
      (exists t, Dom.getAttribute (target h) "target" = Some t
                 /\ eqb_ignoring_case t "_blank" = true) ->
      Dom.getAttribute (target h) "rel" = Some "noopener noreferrer"
      /\ rel_has_token (target h) "noopener" = true
      /\ rel_has_token (target h) "noreferrer" = true)
  /\ (forall h, In h (resolve Examples.social_page externalLinks) <->
                In h (handles Examples.social_page)
                /\ localName (target h) = "a"
                /\ exists t, Dom.getAttribute (target h) "target" = Some t
                             /\ eqb_ignoring_case t "_blank" = true)
  /\ (test_secure_external_links Examples.social_page = Pass <->
      forall h, In h (resolve Examples.social_page externalLinks) ->
                rel_includes (target h) "noopener" = true
                /\ rel_includes (target h) "noreferrer" = true).
Proof.
  apply (external_links_carry_noopener_and_noreferrer Examples.social_page).
  - vm_compute. reflexivity.
  - assert (E : resolve Examples.social_page externalLinks
                = resolve Examples.social_page socialLinks)
      by (vm_compute; reflexivity).
    intros h Hh. rewrite <- E. exact Hh.
Defined.

End ExternalLinks.

(* ===================================================================== *)
(** * Alternative text of images *)
(* ===================================================================== *)

Module Images.

Import Dom Playwright Suite Outcomes Facts.
Local Open Scope test_scope.

(** The assertion at line 542 holds for whatever [getAttribute] returns:
    [null] is not [undefined]. *)
Lemma toBeDefined_of_attr (a : option string) :
  toBeDefined (Js.of_attr a) = Pass.
Proof. destruct a; reflexivity. Qed.

(** The body of the loop at lines 536-544 passes on every image. *)
Lemma alt_text_iteration (d : document) (i : nat) (h : handle) :
  nth_error (resolve d images) i = Some h ->
  (alt <- getAttribute d (Nth images i) "alt" ;;
   ariaHidden <- getAttribute d (Nth images i) "aria-hidden" ;;
   if negb (Js.strict_equal (Js.of_attr ariaHidden) (Js.Str "true"))
   then toBeDefined (Js.of_attr alt)
   else Pass) = Pass.
Proof.
  intros Hn. rewrite !(getAttribute_nth _ _ _ _ _ Hn). simpl.
  rewrite toBeDefined_of_attr.
  destruct (negb _); reflexivity.
Qed.

(** The test at lines 531-545 passes as soon as the page has an image. *)
Lemma alt_text_test_iff (d : document) :
  test_alt_text d = Pass <-> 0 < count d images.
Proof.
  unfold test_alt_text. fold images.
  unfold toBeGreaterThan, check, Js.length_of, all. rewrite length_map, length_seq.
  simpl Js.gt.
  destruct (0 <? Z.of_nat (count d images))%Z eqn:E.
  - simpl. split; [intros _; lia|]. intros _.
    apply forEach_all_pass. intros i h Hn. apply (alt_text_iteration d i h Hn).
  - simpl. split; [discriminate | lia].
Qed.

(** The body of the loop at lines 730-734 on the i-th image. *)
Lemma audit_iteration (d : document) (i : nat) (h : handle) :
  nth_error (resolve d images) i = Some h ->
  (alt <- getAttribute d (Nth images i) "alt" ;;
   ariaHidden <- getAttribute d (Nth images i) "aria-hidden" ;;
   toBeTruthy
     (Js.Bool (negb (Js.strict_equal (Js.of_attr alt) Js.Null)
               || Js.strict_equal (Js.of_attr ariaHidden) (Js.Str "true"))))
  = Pass
  <-> described (target h) = true.
Proof.
  intros Hn. rewrite !(getAttribute_nth _ _ _ _ _ Hn). simpl.
  unfold described, has_attr, toBeTruthy, check.
  destruct (Dom.getAttribute (target h) "alt") as [alt|];
    destruct (Dom.getAttribute (target h) "aria-hidden") as [hidden|];
    simpl;
    try destruct (String.eqb hidden "true"); simpl;
    split; intros H; try reflexivity; try discriminate.
Qed.

(** Step 6 of the audit passes exactly when every image is described. *)
Lemma audit_iff (d : document) :
  check_image_alt_attributes d = Pass <->
  (forall h, In h (resolve d images) -> described (target h) = true).
Proof.
  unfold check_image_alt_attributes. fold images.
  rewrite forEach_all_pass. split.
  - intros H h Hh. apply In_nth_error in Hh. destruct Hh as [i Hn].
    apply (audit_iteration d i h Hn). apply (H i h Hn).
  - intros H i h Hn. apply (audit_iteration d i h Hn).
    apply H. apply (nth_error_In _ _ Hn).
Qed.

(** C10: on a page whose only image has neither [alt] nor [aria-hidden],
    the test [should have alt text for all images] passes, while step 6 of
    the accessibility audit rejects the same page; the test passes on every
    page that has an image, and the audit step passes exactly when every
    image is marked [aria-hidden="true"] or has an [alt] attribute. *)
Theorem alt_text_test_accepts_image_without_alt :
  test_alt_text Examples.bare_image_page = Pass
  /\ (exists h, In h (resolve Examples.bare_image_page images)
                /\ Dom.getAttribute (target h) "alt" = None
                /\ Dom.getAttribute (target h) "aria-hidden" = None)
  /\ check_image_alt_attributes Examples.bare_image_page
     = Err (ValueExpectation "toBeTruthy" (Js.Bool true) (Js.Bool false))
  /\ (forall d : document, test_alt_text d = Pass <-> 0 < count d images)
  /\ (forall d : document,
         check_image_alt_attributes d = Pass <->
         forall h, In h (resolve d images) -> described (target h) = true)
  /\ test_alt_text Examples.described_image_page = Pass
  /\ check_image_alt_attributes Examples.described_image_page = Pass.
Proof.
  split; [by_running|].
  split.
  { exists (Handle [0; 0] (Element "img" [("src", "/images/logo.svg")] [])).
    repeat split. vm_compute. tauto. }
  split; [by_running|].
  split; [apply alt_text_test_iff|].
  split; [apply audit_iff|].
  split; by_running.
Qed.

End Images.

(* ===================================================================== *)
(** * Properties of the conformance engine *)
(* ===================================================================== *)

Module Conformance.

Import Engine.

Section Run.

Variable DomAccessor : Type.
Variable evaluators : kind -> Rule -> DomAccessor -> access Finding.

Lemma evaluator_cases (r : Rule) (a : DomAccessor) :
  (exists f, evaluators (rule_kind r) r a = Answer f
             /\ evaluator DomAccessor evaluators r a = inr f)
  \/ (evaluators (rule_kind r) r a = TimedOut
      /\ evaluator DomAccessor evaluators r a = inr (timeout_finding r))
  \/ (evaluators (rule_kind r) r a = SessionLost
      /\ evaluator DomAccessor evaluators r a
         = inl (AccessorUnreachable (id r))).
Proof.
  unfold evaluator.
  destruct (evaluators (rule_kind r) r a) as [f| |].
  - left. exists f. split; reflexivity.
  - right. left. split; reflexivity.
  - right. right. split; reflexivity.
Qed.

(** The loop yields one finding per rule, in the order of the rules; each
    is the outcome of the rule at its position. *)
Lemma evaluate_rules_pointwise (a : DomAccessor) (ff : bool)
  (rules : list Rule) :
  forall (stopped : bool) (fs : list Finding),
    evaluate_rules DomAccessor evaluators a ff stopped rules = inr fs ->
    Forall2 (outcome_of DomAccessor evaluators a) rules fs.
Proof.
  induction rules as [|r rest IH]; intros stopped fs H; simpl in H.
  - injection H as <-. constructor.
  - destruct stopped.
    + destruct (evaluate_rules DomAccessor evaluators a ff true rest)
        as [e|fs'] eqn:Hrest; [discriminate|].
      injection H as <-. constructor.
      * right. reflexivity.
      * apply (IH true). exact Hrest.
    + destruct (evaluator DomAccessor evaluators r a) as [e|f] eqn:Hr;
        [discriminate|].
      destruct (evaluate_rules DomAccessor evaluators a ff
                  (ff && fails_run r f) rest) as [e|fs'] eqn:Hrest;
        [discriminate|].
      injection H as <-. constructor.
      * left. exact Hr.
      * apply (IH _ _ Hrest).
Qed.

(** Without fail-fast every finding is what the rule's evaluator reports. *)
Lemma evaluate_rules_continue (a : DomAccessor) (rules : list Rule) :
  forall fs : list Finding,
    evaluate_rules DomAccessor evaluators a false false rules = inr fs ->
    Forall2 (fun r f => evaluator DomAccessor evaluators r a = inr f) rules fs.
Proof.
  induction rules as [|r rest IH]; intros fs H; simpl in H.
  - injection H as <-. constructor.
  - destruct (evaluator DomAccessor evaluators r a) as [e|f] eqn:Hr;
      [discriminate|].
    simpl in H.
    destruct (evaluate_rules DomAccessor evaluators a false false rest)
      as [e|fs'] eqn:Hrest; [discriminate|].
    injection H as <-. constructor; [exact Hr | apply IH; reflexivity].
Qed.

(** The loop ends in an engine-level error only when the session was lost
    during the evaluation of one of the rules. *)
Lemma evaluate_rules_error (a : DomAccessor) (ff : bool) (rules : list Rule) :
  forall (stopped : bool) (e : EngineError),
    evaluate_rules DomAccessor evaluators a ff stopped rules = inl e ->
    exists r, In r rules
              /\ evaluators (rule_kind r) r a = SessionLost
              /\ e = AccessorUnreachable (id r).
Proof.
  induction rules as [|r rest IH]; intros stopped e H; simpl in H.
  - discriminate.
  - destruct stopped.
    + destruct (evaluate_rules DomAccessor evaluators a ff true rest)
        as [e'|fs'] eqn:Hrest; [|discriminate].
      injection H as <-. destruct (IH _ _ Hrest) as [r' [Hin Hlost]].
      exists r'. split; [right; exact Hin | exact Hlost].
    + destruct (evaluator_cases r a)
        as [[f [Hans Hr]] | [[Htime Hr] | [Hlost Hr]]];
        rewrite Hr in H.
      * destruct (evaluate_rules DomAccessor evaluators a ff
                    (ff && fails_run r f) rest) as [e'|fs'] eqn:Hrest;
          [|discriminate].
        injection H as <-. destruct (IH _ _ Hrest) as [r' [Hin Hl]].
        exists r'. split; [right; exact Hin | exact Hl].
      * destruct (evaluate_rules DomAccessor evaluators a ff
                    (ff && fails_run r (timeout_finding r)) rest)
          as [e'|fs'] eqn:Hrest; [|discriminate].
        injection H as <-. destruct (IH _ _ Hrest) as [r' [Hin Hl]].
        exists r'. split; [right; exact Hin | exact Hl].
      * injection H as <-. exists r.
        split; [left; reflexivity | split; [exact Hlost | reflexivity]].
Qed.

(** While the session is reachable for every rule, the loop returns
    findings. *)
Lemma evaluate_rules_total (a : DomAccessor) (ff : bool) (rules : list Rule) :
  (forall r, In r rules -> reachable DomAccessor evaluators a r) ->
  forall stopped : bool,
    exists fs, evaluate_rules DomAccessor evaluators a ff stopped rules = inr fs.
Proof.
  intros Hreach stopped.
  destruct (evaluate_rules DomAccessor evaluators a ff stopped rules)
    as [e|fs] eqn:H.
  - destruct (evaluate_rules_error a ff rules stopped e H) as [r [Hin [Hl _]]].
    exfalso. apply (Hreach r Hin). exact Hl.
  - exists fs. reflexivity.
Qed.

Lemma Forall2_nth {A B : Type} (P : A -> B -> Prop) (xs : list A)
  (ys : list B) :
  Forall2 P xs ys ->
  forall i x, nth_error xs i = Some x ->
              exists y, nth_error ys i = Some y /\ P x y.
Proof.
  induction 1 as [|x0 y0 xs ys Hxy _ IH]; intros i x Hi.
  - destruct i; discriminate.
  - destruct i as [|i]; simpl in *.
    + injection Hi as <-. exists y0. split; [reflexivity | exact Hxy].
    + apply IH. exact Hi.
Qed.

Lemma Forall2_same_length {A B : Type} (P : A -> B -> Prop) (xs : list A)
  (ys : list B) :
  Forall2 P xs ys -> length ys = length xs.
Proof. induction 1; simpl; congruence. Qed.

Lemma Forall2_combine {A B : Type} (P : A -> B -> Prop) (xs : list A)
  (ys : list B) :
  Forall2 P xs ys -> forall x y, In (x, y) (combine xs ys) -> P x y.
Proof.
  induction 1 as [|x0 y0 xs ys Hxy _ IH]; intros x y Hin; simpl in Hin.
  - contradiction.
  - destruct Hin as [Heq | Hin]; [injection Heq as <- <-; exact Hxy | auto].
Qed.

Lemma in_combine_of_right {A B : Type} (xs : list A) (ys : list B) (y : B) :
  length ys = length xs -> In y ys -> exists x, In (x, y) (combine xs ys).
Proof.
  revert ys. induction xs as [|x0 xs IH]; intros [|y0 ys] Hlen Hin;
    simpl in *; try discriminate; try contradiction.
  destruct Hin as [<- | Hin].
  - exists x0. left. reflexivity.
  - destruct (IH ys) as [x Hx]; [congruence | exact Hin |].
    exists x. right. exact Hx.
Qed.

Lemma outcome_names_rule (a : DomAccessor) (r : Rule) (f : Finding) :
  names_its_rule DomAccessor evaluators ->
  outcome_of DomAccessor evaluators a r f ->
  ruleId f = id r.
Proof.
  intros Hnames [Hr | ->]; [|reflexivity].
  destruct (evaluator_cases r a)
    as [[f' [Hans Hr']] | [[_ Hr'] | [_ Hr']]]; rewrite Hr' in Hr.
  - injection Hr as <-. apply (Hnames _ _ _ _ Hans).
  - injection Hr as <-. reflexivity.
  - discriminate.
Qed.

Lemma unique_ids_spec (rules : list Rule) :
  forall seen : list string,
    unique_ids seen rules = true ->
    NoDup (map id rules)
    /\ (forall r, In r rules -> ~ In (id r) seen).
Proof.
  induction rules as [|r rest IH]; intros seen H; simpl in H.
  - split; [constructor | intros r []].
  - apply andb_true_iff in H. destruct H as [Hnew Hrest].
    apply negb_true_iff in Hnew.
    destruct (IH _ Hrest) as [Hnodup Hfresh].
    split.
    + simpl. constructor; [|exact Hnodup].
      intros Hin. apply in_map_iff in Hin. destruct Hin as [r' [Heq Hr']].
      apply (Hfresh r' Hr'). left. symmetry. exact Heq.
    + intros r' [<- | Hr'] Hin.
      * assert (Hex : existsb (String.eqb (id r)) seen = true).
        { apply existsb_exists. exists (id r).
          split; [exact Hin | apply String.eqb_refl]. }
        congruence.
      * apply (Hfresh r' Hr'). right. exact Hin.
Qed.

Lemma same_id_same_rule (rules : list Rule) (r r' : Rule) :
  NoDup (map id rules) -> In r rules -> In r' rules -> id r = id r' -> r = r'.
Proof.
  induction rules as [|r0 rest IH]; intros Hnodup Hr Hr' Hid; [contradiction|].
  simpl in Hnodup. inversion Hnodup as [|? ? Hnotin Hnodup']; subst.
  destruct Hr as [<- | Hr]; destruct Hr' as [<- | Hr'].
  - reflexivity.
  - exfalso. apply Hnotin. rewrite Hid. apply in_map. exact Hr'.
  - exfalso. apply Hnotin. rewrite <- Hid. apply in_map. exact Hr.
  - apply IH; assumption.
Qed.

(** Under fail-fast a rule is skipped only after an earlier failure of
    severity Error, and that failure is in the findings. *)
Lemma evaluate_rules_skips (a : DomAccessor) (ff : bool) (rules : list Rule) :
  forall (stopped : bool) (fs : list Finding),
    (stopped = true -> ff = true) ->
    evaluate_rules DomAccessor evaluators a ff stopped rules = inr fs ->
    forall i r,
      nth_error rules i = Some r ->
      exists f,
        nth_error fs i = Some f
        /\ (evaluator DomAccessor evaluators r a = inr f
            \/ (f = skipped_finding r
                /\ ff = true
                /\ (stopped = true
                    \/ stopped_before DomAccessor evaluators a rules fs i))).
Proof.
  induction rules as [|r0 rest IH]; intros stopped fs Hflag H i r Hi.
  - destruct i; discriminate.
  - simpl in H. destruct stopped.
    + destruct (evaluate_rules DomAccessor evaluators a ff true rest)
        as [e|fs'] eqn:Hrest; [discriminate|].
      injection H as <-. destruct i as [|i]; simpl in Hi |- *.
      * injection Hi as <-. exists (skipped_finding r0).
        split; [reflexivity|]. right. split; [reflexivity|].
        split; [apply Hflag; reflexivity | left; reflexivity].
      * destruct (IH true fs' Hflag Hrest i r Hi)
          as [f [Hf [Hev | [Hskip [Hff _]]]]].
        -- exists f. split; [exact Hf | left; exact Hev].
        -- exists f. split; [exact Hf|]. right. split; [exact Hskip|].
           split; [exact Hff | left; reflexivity].
    + destruct (evaluator DomAccessor evaluators r0 a) as [e|f0] eqn:Hr0;
        [discriminate|].
      destruct (evaluate_rules DomAccessor evaluators a ff
                  (ff && fails_run r0 f0) rest) as [e|fs'] eqn:Hrest;
        [discriminate|].
      injection H as <-. destruct i as [|i]; simpl in Hi |- *.
      * injection Hi as <-. exists f0. split; [reflexivity | left; exact Hr0].
      * assert (Hflag' : ff && fails_run r0 f0 = true -> ff = true).
        { intros Hb. apply andb_true_iff in Hb. tauto. }
        destruct (IH _ fs' Hflag' Hrest i r Hi)
          as [f [Hf [Hev | [Hskip [Hff [Hstop | Hstop]]]]]].
        -- exists f. split; [exact Hf | left; exact Hev].
        -- exists f. split; [exact Hf|]. right. split; [exact Hskip|].
           split; [exact Hff|]. right.
           apply andb_true_iff in Hstop. destruct Hstop as [_ Hfails].
           unfold fails_run in Hfails. apply andb_true_iff in Hfails.
           destruct Hfails as [Hfail Herr].
           exists 0, r0, f0. split; [lia|].
           split; [reflexivity|]. split; [reflexivity|].
           split; [exact Hr0|]. split.
           ++ destruct (finding_status f0); try discriminate. reflexivity.
           ++ destruct (rule_severity r0); try discriminate. reflexivity.
        -- exists f. split; [exact Hf|]. right. split; [exact Hskip|].
           split; [exact Hff|]. right.
           destruct Hstop as [j [r' [f' [Hj [Hrj [Hfj Hrest']]]]]].
           exists (S j), r', f'. split; [lia|].
           split; [exact Hrj|]. split; [exact Hfj | exact Hrest'].
Qed.

Lemma evaluate_findings (rules : list Rule) (a : DomAccessor) (o : Options)
  (rep : RunReport) :
  evaluate DomAccessor evaluators rules a o = inr rep ->
  evaluate_rules DomAccessor evaluators a (failFast o) false rules
  = inr (findings rep)
  /\ rep = make_report rules (findings rep).
Proof.
  unfold evaluate. intros H.
  destruct (evaluate_rules DomAccessor evaluators a (failFast o) false rules)
    as [e|fs]; [discriminate|].
  injection H as <-. split; reflexivity.
Qed.

(** C2: in the report of a run over a well-formed rule set, [passed] is
    true exactly when no finding has status Fail while the rule it names
    has severity Error; failed findings of Warning rules and findings that
    are not failures leave [passed] true.  The report is the one built from
    the rules and its findings, where [passed] is computed. *)
Theorem passed_iff_no_failed_error_rule
  (rules : list Rule) (a : DomAccessor) (o : Options) (rep : RunReport) :
  well_formed rules = true ->
  names_its_rule DomAccessor evaluators ->
  evaluate DomAccessor evaluators rules a o = inr rep ->
  (passed rep = true <->
   ~ exists f r, In f (findings rep) /\ In r rules /\ id r = ruleId f
                 /\ finding_status f = Fail /\ rule_severity r = Error)
  /\ ((forall f r, In f (findings rep) -> In r rules -> id r = ruleId f ->
                   rule_severity r = Warning \/ finding_status f <> Fail) ->
      passed rep = true)
  /\ rep = make_report rules (findings rep).
Proof.
  intros Hwf Hnames Hrun.
  destruct (evaluate_findings rules a o rep Hrun) as [Hfs Hrep].
  pose proof (evaluate_rules_pointwise a (failFast o) rules false _ Hfs) as Hout.
  pose proof (Forall2_same_length _ _ _ Hout) as Hlen.
  unfold well_formed in Hwf. apply andb_true_iff in Hwf. destruct Hwf as [Huniq _].
  destruct (unique_ids_spec rules [] Huniq) as [Hnodup _].
  assert (Hpassed : passed rep
                    = forallb (fun rf => negb (fails_run (fst rf) (snd rf)))
                              (combine rules (findings rep))).
  { rewrite Hrep at 1. reflexivity. }
  assert (Hiff : passed rep = true <->
                 ~ exists f r, In f (findings rep) /\ In r rules
                               /\ id r = ruleId f
                               /\ finding_status f = Fail
                               /\ rule_severity r = Error).
  { rewrite Hpassed, forallb_forall. split.
    - intros Hall [f [r [Hf [Hr [Hid [Hfail Herr]]]]]].
      destruct (in_combine_of_right rules (findings rep) f Hlen Hf) as [r' Hin].
      assert (Hr' : In r' rules) by (apply (in_combine_l _ _ _ _ Hin)).
      assert (Hid' : ruleId f = id r').
      { apply (outcome_names_rule a r' f Hnames).
        apply (Forall2_combine _ _ _ Hout r' f Hin). }
      assert (r = r') by (apply (same_id_same_rule rules); congruence).
      subst r'. specialize (Hall (r, f) Hin). simpl in Hall.
      unfold fails_run in Hall. rewrite Hfail, Herr in Hall. discriminate.
    - intros Hnone [r f] Hin. simpl.
      destruct (fails_run r f) eqn:Hfr; [|reflexivity].
      exfalso. apply Hnone. exists f, r.
      unfold fails_run in Hfr. apply andb_true_iff in Hfr.
      destruct Hfr as [Hfail Herr].
      split; [apply (in_combine_r _ _ _ _ Hin)|].
      split; [apply (in_combine_l _ _ _ _ Hin)|].
      split.
      { symmetry. apply (outcome_names_rule a r f Hnames).
        apply (Forall2_combine _ _ _ Hout r f Hin). }
      split.
      { destruct (finding_status f); try discriminate. reflexivity. }
      { destruct (rule_severity r); try discriminate. reflexivity. } }
  split; [exact Hiff|]. split; [|exact Hrep].
  intros Hmild. apply Hiff. intros [f [r [Hf [Hr [Hid [Hfail Herr]]]]]].
  destruct (Hmild f r Hf Hr Hid) as [Hw | Hnf]; congruence.
Qed.

(** C6: a run never ends in an error because a rule failed its
    expectation or timed out.  When it returns a report, the report has a
    finding for every rule, at the rule's position: what the rule's
    evaluator reports (a timeout as the finding Fail "timeout"), or,
    under fail-fast only, the skip recorded for a rule that was not
    evaluated because an earlier rule of severity Error has its Fail
    finding in the report.  So a rule whose evaluator answers with a Fail
    finding has that finding in the report unless fail-fast stopped the run
    before it, and the failure that stops the run is itself reported.  The
    run ends in an engine-level error only when the session was lost
    during a rule, and returns a report whenever the session stays
    reachable. *)
Theorem rule_failures_are_findings
  (rules : list Rule) (a : DomAccessor) (o : Options) :
  match evaluate DomAccessor evaluators rules a o with
  | inr rep =>
      length (findings rep) = length rules
      /\ (forall i r,
             nth_error rules i = Some r ->
             exists f,
               nth_error (findings rep) i = Some f
               /\ (evaluator DomAccessor evaluators r a = inr f
                   \/ (failFast o = true
                       /\ f = skipped_finding r
                       /\ stopped_before DomAccessor evaluators a rules
                                         (findings rep) i)))
      /\ (forall i r f,
             nth_error rules i = Some r ->
             evaluators (rule_kind r) r a = Answer f ->
             finding_status f = Fail ->
             nth_error (findings rep) i = Some f
             \/ (failFast o = true
                 /\ nth_error (findings rep) i = Some (skipped_finding r)
                 /\ stopped_before DomAccessor evaluators a rules
                                   (findings rep) i))
  | inl e =>
      exists r, In r rules
                /\ evaluators (rule_kind r) r a = SessionLost
                /\ e = AccessorUnreachable (id r)
  end
  /\ ((forall r, In r rules -> reachable DomAccessor evaluators a r) ->
      exists rep, evaluate DomAccessor evaluators rules a o = inr rep)
  /\ (forall r, evaluators (rule_kind r) r a = TimedOut ->
                evaluator DomAccessor evaluators r a
                = inr (timeout_finding r)
                /\ finding_status (timeout_finding r) = Fail
                /\ message (timeout_finding r) = "timeout").
Proof.
  split; [|split].
  - destruct (evaluate DomAccessor evaluators rules a o) as [e|rep] eqn:Hrun.
    + unfold evaluate in Hrun.
      destruct (evaluate_rules DomAccessor evaluators a (failFast o) false rules)
        as [e'|fs] eqn:Hfs; [|discriminate].
      injection Hrun as <-. apply (evaluate_rules_error _ _ _ _ _ Hfs).
    + destruct (evaluate_findings rules a o rep Hrun) as [Hfs _].
      pose proof (evaluate_rules_pointwise a (failFast o) rules false _ Hfs)
        as Hout.
      assert (Hall : forall i r,
                 nth_error rules i = Some r ->
                 exists f,
                   nth_error (findings rep) i = Some f
                   /\ (evaluator DomAccessor evaluators r a = inr f
                       \/ (failFast o = true
                           /\ f = skipped_finding r
                           /\ stopped_before DomAccessor evaluators a rules
                                             (findings rep) i))).
      { intros i r Hi.
        destruct (evaluate_rules_skips a (failFast o) rules false _
                    (fun H => False_ind _ (Bool.diff_false_true H)) Hfs i r Hi)
          as [f [Hf [Hev | [Hskip [Hff [Hstop | Hstop]]]]]].
        - exists f. split; [exact Hf | left; exact Hev].
        - discriminate.
        - exists f. split; [exact Hf | right; tauto]. }
      split; [apply (Forall2_same_length _ _ _ Hout)|].
      split; [exact Hall|].
      intros i r f Hi Hans Hfail.
      assert (Hev : evaluator DomAccessor evaluators r a = inr f).
      { unfold evaluator. rewrite Hans. reflexivity. }
      destruct (Hall i r Hi) as [f' [Hf' [Hr | [Hff [Hskip Hstop]]]]].
      * left. rewrite Hf'. congruence.
      * right. subst f'. tauto.
  - intros Hreach. unfold evaluate.
    destruct (evaluate_rules_total a (failFast o) rules Hreach false)
      as [fs Hfs].
    rewrite Hfs. eexists. reflexivity.
  - intros r Htime. unfold evaluator. rewrite Htime. repeat split.
Qed.

(** C7: the findings of a report follow the declaration order of the
    rules: there are as many findings as rules, the i-th finding is the
    outcome of the i-th rule (what its evaluator reports or, after a
    fail-fast stop, the skip recorded for that rule; without fail-fast
    always what its evaluator reports), and the rule ids read off the
    findings are the rule ids in declaration order. *)
Theorem findings_follow_rule_order
  (rules : list Rule) (a : DomAccessor) (o : Options) (rep : RunReport) :
  evaluate DomAccessor evaluators rules a o = inr rep ->
  length (findings rep) = length rules
  /\ (forall i r,
         nth_error rules i = Some r ->
         exists f, nth_error (findings rep) i = Some f
                   /\ outcome_of DomAccessor evaluators a r f
                   /\ (failFast o = false ->
                       evaluator DomAccessor evaluators r a = inr f))
  /\ (names_its_rule DomAccessor evaluators ->
      map ruleId (findings rep) = map id rules).
Proof.
  intros Hrun.
  destruct (evaluate_findings rules a o rep Hrun) as [Hfs _].
  pose proof (evaluate_rules_pointwise a (failFast o) rules false _ Hfs) as Hout.
  split; [apply (Forall2_same_length _ _ _ Hout)|]. split.
  - intros i r Hi.
    destruct (Forall2_nth _ _ _ Hout i r Hi) as [f [Hf Hof]].
    exists f. split; [exact Hf|]. split; [exact Hof|].
    intros Hff. rewrite Hff in Hfs.
    pose proof (evaluate_rules_continue a rules _ Hfs) as Hcont.
    destruct (Forall2_nth _ _ _ Hcont i r Hi) as [f' [Hf' Hr]].
    congruence.
  - intros Hnames. clear Hfs Hrun.
    induction Hout as [|r f rs fs Hrf _ IH]; simpl; [reflexivity|].
    rewrite IH. f_equal. apply (outcome_names_rule a r f Hnames Hrf).
Qed.

End Run.

(** ** Runs through a session *)

(** Two families of evaluators that agree on the rules give the same
    findings, whatever their accessors are. *)
Lemma evaluate_rules_agree (A1 A2 : Type)
  (ev1 : kind -> Rule -> A1 -> access Finding)
  (ev2 : kind -> Rule -> A2 -> access Finding)
  (a1 : A1) (a2 : A2) (ff : bool) (rules : list Rule) :
  (forall r, In r rules -> ev1 (rule_kind r) r a1 = ev2 (rule_kind r) r a2) ->
  forall stopped : bool,
    evaluate_rules A1 ev1 a1 ff stopped rules
    = evaluate_rules A2 ev2 a2 ff stopped rules.
Proof.
  induction rules as [|r rest IH]; intros Hsame stopped; simpl; [reflexivity|].
  assert (Hrest : forall r', In r' rest ->
                             ev1 (rule_kind r') r' a1 = ev2 (rule_kind r') r' a2).
  { intros r' Hr'. apply Hsame. right. exact Hr'. }
  destruct stopped.
  - rewrite (IH Hrest true). reflexivity.
  - unfold evaluator. rewrite (Hsame r (or_introl eq_refl)).
    destruct (ev2 (rule_kind r) r a2) as [f| |]; try reflexivity.
    + rewrite (IH Hrest). reflexivity.
    + rewrite (IH Hrest). reflexivity.
Qed.

(** Evaluators that always answer give, without fail-fast, the list of
    their answers. *)
Lemma evaluate_rules_answers (A : Type) (answer : kind -> Rule -> A -> Finding)
  (a : A) (rules : list Rule) :
  evaluate_rules A (fun k r x => Answer (answer k r x)) a false false rules
  = inr (map (fun r => answer (rule_kind r) r a) rules).
Proof.
  induction rules as [|r rest IH]; simpl; [reflexivity|].
  rewrite IH. reflexivity.
Qed.

Section Sessions.

Variable ElementHandle : Type.
Variable Session : Type.
Variable DomState : Type.
Variable observed : Session -> DomState.
Variable reading : forall X : Type, operation ElementHandle X -> DomState -> X.
Variable perform :
  forall X : Type, operation ElementHandle X -> Session -> access X * Session.
Variable clients : kind -> Rule -> client ElementHandle Finding.

(** Through a read-only accessor a client that gets its answers reports
    what it reports on the DOM state of the session. *)
Lemma run_reads_state (A : Type) (c : client ElementHandle A) :
  read_only ElementHandle Session DomState observed reading perform ->
  forall (s : Session) (a : A),
    run ElementHandle Session perform c s = Answer a ->
    a = on_state ElementHandle DomState reading c (observed s).
Proof.
  intros Hread. induction c as [a0|X op k IH]; intros s a Hrun; simpl in *.
  - injection Hrun as <-. reflexivity.
  - destruct (Hread X op s) as [Hstate Hanswer].
    destruct (perform X op s) as [[x| |] s'] eqn:Hp; simpl in *;
      try discriminate.
    rewrite (IH x s' a Hrun), Hstate.
    rewrite <- (Hanswer x eq_refl). reflexivity.
Qed.


End Sessions.

(** ** The theorems on two sessions over a static page *)

Lemma session_evaluators_name_rule :
  names_its_rule Examples.Session Examples.session_evaluators.
Proof.
  intros k r a f H.
  unfold Examples.session_evaluators, counting_evaluators in H.
  destruct k; injection H as <-; reflexivity.
Qed.

(** On the page with four service cards the only failed finding belongs
    to a Warning rule, and the report passes. *)
Lemma passed_on_four_cards_page :
  (passed Examples.four_cards_report = true <->
   ~ exists f r, In f (findings Examples.four_cards_report)
                 /\ In r Examples.landing_rules /\ id r = ruleId f
                 /\ finding_status f = Fail /\ rule_severity r = Error)
  /\ ((forall f r, In f (findings Examples.four_cards_report) ->
                   In r Examples.landing_rules -> id r = ruleId f ->
                   rule_severity r = Warning \/ finding_status f <> Fail) ->
      passed Examples.four_cards_report = true)
  /\ Examples.four_cards_report
     = make_report Examples.landing_rules
                   (findings Examples.four_cards_report).
Proof.
  apply (passed_iff_no_failed_error_rule
           Examples.Session Examples.session_evaluators
           Examples.landing_rules Examples.first_session default_options
           Examples.four_cards_report).
  - vm_compute. reflexivity.
  - exact session_evaluators_name_rule.
  - vm_compute. reflexivity.
Defined.

(** The findings of the run on the page with three service cards follow
    the three landing rules. *)
Lemma findings_on_three_cards_page :
  length (findings Examples.three_cards_report)
  = length Examples.landing_rules
  /\ (forall i r,
         nth_error Examples.landing_rules i = Some r ->
         exists f, nth_error (findings Examples.three_cards_report) i = Some f
                   /\ outcome_of Examples.Session Examples.session_evaluators
                                 Examples.short_session r f
                   /\ (failFast default_options = false ->
                       evaluator Examples.Session Examples.session_evaluators
                                 r Examples.short_session = inr f))
  /\ (names_its_rule Examples.Session Examples.session_evaluators ->
      map ruleId (findings Examples.three_cards_report)
      = map id Examples.landing_rules).
Proof.
  apply (findings_follow_rule_order
           Examples.Session Examples.session_evaluators
           Examples.landing_rules Examples.short_session default_options
           Examples.three_cards_report).
  vm_compute. reflexivity.
Defined.

(** The browser session answers what the loaded page holds and leaves
    the page as it is. *)
Lemma browser_is_read_only :
  read_only Dom.handle Examples.Browser Dom.document Examples.loaded
            Examples.page_reading Examples.browser_perform.
Proof.
  intros X op b. unfold Examples.browser_perform.
  destruct (Examples.served b <? Examples.budget b); simpl.
  - split; [reflexivity|]. intros x H. injection H as <-. reflexivity.
  - split; [reflexivity|]. intros x H. discriminate.
Qed.


End Conformance.

(* ===================================================================== *)
(** * Further properties of loops, locators and strings *)
(* ===================================================================== *)

Module MoreFacts.

Import Dom Playwright Script Acceptance Facts.
Local Open Scope test_scope.

(** A loop that fails fails with the error of one of its iterations. *)
Lemma forEach_error {A : Type} (xs : list A) (body : A -> result unit)
  (e : failure) :
  forEach xs body = Err e -> exists x, In x xs /\ body x = Err e.
Proof.
  induction xs as [|x xs IH]; simpl; [discriminate|].
  destruct (body x) as [[]|e'] eqn:Hx; simpl.
  - intros H. destruct (IH H) as [y [Hy Hb]]. exists y. split; [right|]; assumption.
  - intros H. injection H as <-. exists x. split; [left; reflexivity | exact Hx].
Qed.

Lemma single_none (op : string) (d : document) (l : locator) :
  count d l = 0 -> single op d l = Err (NoElement op l).
Proof.
  unfold single, count. destruct (resolve d l); [reflexivity | discriminate].
Qed.

Lemma single_many (op : string) (d : document) (l : locator) :
  2 <= count d l -> single op d l = Err (StrictModeViolation l (count d l)).
Proof.
  unfold single, count. destruct (resolve d l) as [|h [|h' hs]]; simpl;
    [lia | lia | reflexivity].
Qed.

(** [l.first()] of a locator that resolves to [h :: _] is [h] alone. *)
Lemma resolve_first (d : document) (l : locator) (h : handle)
  (hs : list handle) :
  resolve d l = h :: hs -> resolve d (First l) = [h].
Proof. intros H. simpl. rewrite H. reflexivity. Qed.

(** A chained locator under [l.nth(i)] selects the elements strictly
    inside the i-th element of [l]; none when [l] has no such element. *)
Lemma resolve_under_nth (d : document) (l : locator) (i : nat)
  (s : selector) :
  resolve d (Locator (Nth l i) s)
  = match nth_error (resolve d l) i with
    | Some h => filter (fun x => inside (path h) (path x)) (querySelectorAll d s)
    | None => []
    end.
Proof.
  simpl. destruct (nth_error (resolve d l) i) as [h|]; simpl.
  - apply filter_ext. intros x. apply orb_false_r.
  - induction (querySelectorAll d s) as [|x xs IH]; simpl; [reflexivity | exact IH].
Qed.

Lemma filter_nonempty {A : Type} (p : A -> bool) (xs : list A) :
  0 < length (filter p xs) <-> existsb p xs = true.
Proof.
  induction xs as [|x xs IH]; simpl.
  - split; [lia | discriminate].
  - destruct (p x); simpl; [split; [reflexivity | lia] | exact IH].
Qed.

(** No character of a string is empty. *)
Lemma characters_nonempty (s : string) :
  Forall (fun c => c <> EmptyString) (Js.characters s).
Proof.
  induction s as [|c s IH]; simpl; [constructor|].
  destruct (Js.characters s) as [|k ks]; [repeat constructor; discriminate|].
  inversion IH as [|? ? Hk Hks]; subst.
  destruct k as [|c' k']; [contradiction Hk; reflexivity|].
  destruct (Js.is_continuation c').
  - constructor; [discriminate | exact Hks].
  - constructor; [discriminate | exact IH].
Qed.

Lemma concat_empty (cs : list string) :
  Forall (fun c => c <> EmptyString) cs ->
  String.concat "" cs = EmptyString <-> cs = [].
Proof.
  intros H. destruct H as [|c cs Hc Hcs]; [tauto|].
  split; [|discriminate]. intros E. exfalso. apply Hc.
  simpl in E. destruct cs as [|c' cs']; [exact E|].
  destruct c; [reflexivity | discriminate].
Qed.

Lemma drop_spaces_nil (cs : list string) :
  Js.drop_spaces cs = [] <-> forallb Js.is_white_space cs = true.
Proof.
  induction cs as [|c cs IH]; simpl; [tauto|].
  destruct (Js.is_white_space c); simpl; [exact IH|].
  split; discriminate.
Qed.

Lemma drop_spaces_incl (cs : list string) (c : string) :
  In c (Js.drop_spaces cs) -> In c cs.
Proof.
  induction cs as [|c0 cs IH]; simpl; [tauto|].
  destruct (Js.is_white_space c0); [intros H; right; apply IH; exact H | tauto].
Qed.

Lemma drop_spaces_blank (cs : list string) :
  forallb Js.is_white_space (Js.drop_spaces cs) = true
  <-> forallb Js.is_white_space cs = true.
Proof.
  induction cs as [|c cs IH]; simpl; [tauto|].
  destruct (Js.is_white_space c) eqn:E; simpl; [exact IH|].
  rewrite E. simpl. tauto.
Qed.

Lemma forallb_rev {A : Type} (p : A -> bool) (xs : list A) :
  forallb p (rev xs) = true <-> forallb p xs = true.
Proof.
  rewrite !forallb_forall. split; intros H x Hx; apply H.
  - apply in_rev in Hx. exact Hx.
  - apply in_rev. exact Hx.
Qed.

(** [s.trim()] is the empty string exactly when [s] holds white space
    only. *)
Lemma trim_empty (s : string) : trim s = EmptyString <-> blank s = true.
Proof.
  unfold trim, Js.trim, blank. rewrite concat_empty.
  - split.
    + intros H. apply (f_equal (@rev string)) in H.
      rewrite rev_involutive in H. simpl in H.
      apply (proj1 (drop_spaces_blank _)). apply (proj1 (forallb_rev _ _)).
      apply (proj1 (drop_spaces_nil _)). exact H.
    + intros H. apply (proj2 (drop_spaces_blank _)) in H.
      apply (proj2 (forallb_rev _ _)) in H.
      apply (proj2 (drop_spaces_nil _)) in H. rewrite H. reflexivity.
  - apply Forall_forall. intros c Hc.
    apply in_rev in Hc. apply drop_spaces_incl in Hc.
    apply in_rev in Hc. apply drop_spaces_incl in Hc.
    pose proof (characters_nonempty s) as Hall.
    rewrite Forall_forall in Hall. apply (Hall c Hc).
Qed.

Lemma not_blank (s : string) :
  blank s = false <-> Js.trim s <> EmptyString.
Proof.
  pose proof (trim_empty s) as H. unfold trim in H.
  destruct (blank s); split; intros E; try discriminate.
  - exfalso. apply E. apply H. reflexivity.
  - intros T. apply H in T. discriminate.
  - reflexivity.
Qed.

Lemma truthy_trim (s : string) :
  Js.truthy (Js.Str (trim s)) = negb (blank s).
Proof.
  simpl. destruct (blank s) eqn:B.
  - apply trim_empty in B. rewrite B. reflexivity.
  - destruct (String.eqb (trim s) "") eqn:E; [|reflexivity].
    apply String.eqb_eq in E. apply trim_empty in E. congruence.
Qed.

Lemma truthy_of_attr (a : option string) :
  Js.truthy (Js.of_attr a) = nonempty a.
Proof. destruct a; reflexivity. Qed.

Lemma truthy_or_else (a b : Js.value) :
  Js.truthy (or_else a b) = Js.truthy a || Js.truthy b.
Proof. unfold or_else. destruct (Js.truthy a) eqn:E; simpl; [exact E | reflexivity]. Qed.

Lemma toBeTruthy_pass (v : Js.value) :
  toBeTruthy v = Pass <-> Js.truthy v = true.
Proof.
  unfold toBeTruthy, check. destruct (Js.truthy v); split; try reflexivity; discriminate.
Qed.

(** A loop over [l.all()] whose body passes on the i-th locator exactly
    when a property holds of the i-th element passes exactly when the
    property holds of every element of [l]. *)
Lemma forEach_all_iff (d : document) (l : locator)
  (body : locator -> result unit) (accepts : node -> bool) :
  (forall i h, nth_error (resolve d l) i = Some h ->
               (body (Nth l i) = Pass <-> accepts (target h) = true)) ->
  forEach (all d l) body = Pass <->
  (forall h, In h (resolve d l) -> accepts (target h) = true).
Proof.
  intros Hbody. rewrite forEach_all_pass. split.
  - intros H h Hh. apply In_nth_error in Hh. destruct Hh as [i Hn].
    apply (Hbody i h Hn). apply (H i h Hn).
  - intros H i h Hn. apply (Hbody i h Hn). apply H. apply (nth_error_In _ _ Hn).
Qed.

Lemma toBeGreaterThan_zero (n : nat) :
  toBeGreaterThan (Js.Int (Z.of_nat n)) (Js.Int 0) = Pass <-> 0 < n.
Proof.
  unfold toBeGreaterThan, check. simpl.
  destruct (0 <? Z.of_nat n)%Z eqn:E.
  - split; [intros _; lia | reflexivity].
  - split; [discriminate | lia].
Qed.

End MoreFacts.

(* ===================================================================== *)
(** * Accessibility tests: what they accept *)
(* ===================================================================== *)

Module AccessibilityFacts.

Import Dom Playwright Script Accessibility Acceptance Facts MoreFacts.
Local Open Scope test_scope.

Lemma link_text_iteration (d : document) (i : nat) (h : handle) :
  nth_error (resolve d links) i = Some h ->
  (text <- textContent d (Nth links i) ;;
   ariaLabel <- getAttribute d (Nth links i) "aria-label" ;;
   title <- getAttribute d (Nth links i) "title" ;;
   toBeTruthy (or_else (or_else (Js.Str (trim text)) (Js.of_attr ariaLabel))
                       (Js.of_attr title))) = Pass
  <-> has_accessible_name (target h) = true.
Proof.
  intros Hn. unfold textContent.
  rewrite (single_nth _ _ _ _ _ Hn), !(getAttribute_nth _ _ _ _ _ Hn). simpl bind.
  rewrite toBeTruthy_pass, !truthy_or_else, truthy_trim, !truthy_of_attr.
  reflexivity.
Qed.

Lemma audit_links_iteration (d : document) (i : nat) (h : handle) :
  nth_error (resolve d links) i = Some h ->
  (text <- textContent d (Nth links i) ;;
   ariaLabel <- getAttribute d (Nth links i) "aria-label" ;;
   toBeTruthy (or_else (Js.Str (trim text)) (Js.of_attr ariaLabel))) = Pass
  <-> has_text_or_label (target h) = true.
Proof.
  intros Hn. unfold textContent.
  rewrite (single_nth _ _ _ _ _ Hn), !(getAttribute_nth _ _ _ _ _ Hn). simpl bind.
  rewrite toBeTruthy_pass, !truthy_or_else, truthy_trim, !truthy_of_attr.
  reflexivity.
Qed.

Lemma link_text_iff (d : document) :
  test_link_text d = Pass <->
  (forall h, In h (resolve d links) -> has_accessible_name (target h) = true).
Proof.
  unfold test_link_text. apply forEach_all_iff.
  intros i h Hn. apply (link_text_iteration d i h Hn).
Qed.

Lemma audit_links_iff (d : document) :
  audit_links d = Pass <->
  (forall h, In h (resolve d links) -> has_text_or_label (target h) = true).
Proof.
  unfold audit_links. apply forEach_all_iff.
  intros i h Hn. apply (audit_links_iteration d i h Hn).
Qed.

Lemma links_are_anchors (d : document) (h : handle) :
  In h (resolve d links) <-> In h (handles d) /\ localName (target h) = "a".
Proof.
  unfold links. simpl. unfold querySelectorAll. rewrite filter_In.
  unfold matches, matches_compound. simpl.
  rewrite andb_true_r, orb_false_r, String.eqb_eq. tauto.
Qed.

(** The link text test passes exactly when every [a] element of the page
    has text that [trim] does not empty, a non-empty [aria-label] or a
    non-empty [title]; a page without links passes.  White space is what
    [trim] removes: a link whose text is a no-break space has no text. *)
Theorem link_text_test_accepts_named_links :
  (forall d : document,
      (test_link_text d = Pass <->
       forall h, In h (handles d) -> localName (target h) = "a" ->
                 has_accessible_name (target h) = true)
      /\ (resolve d links = [] -> test_link_text d = Pass))
  /\ (forall n : node,
         has_accessible_name n = true <->
         Js.trim (Dom.textContent n) <> EmptyString
         \/ nonempty (Dom.getAttribute n "aria-label") = true
         \/ nonempty (Dom.getAttribute n "title") = true)
  /\ test_link_text Landing.nbsp_link_page
     = Err (ValueExpectation "toBeTruthy" (Js.Bool true) Js.Null).
Proof.
  split; [|split; [|by_running]].
  - intros d. split.
    + rewrite link_text_iff. split.
      * intros H h Hin Ha. apply H. apply links_are_anchors. tauto.
      * intros H h Hh. apply links_are_anchors in Hh. apply H; tauto.
    + intros Hnone. apply link_text_iff. rewrite Hnone. intros h [].
  - intros n. unfold has_accessible_name.
    rewrite !orb_true_iff, negb_true_iff, not_blank. tauto.
Qed.


(** Step 7 of the accessibility audit is stricter than the link text
    test: a page that passes the step passes the test, and a link named
    only by its [title] passes the test and fails the step.  The step
    passes exactly when every link has text that [trim] does not empty or
    a non-empty [aria-label]; a link whose text is a no-break space
    fails it. *)
Theorem audit_links_imply_link_text :
  (forall d : document, audit_links d = Pass -> test_link_text d = Pass)
  /\ (forall d : document,
         audit_links d = Pass <->
         forall h, In h (resolve d links) -> has_text_or_label (target h) = true)
  /\ (forall n : node,
         has_text_or_label n = true <->
         Js.trim (Dom.textContent n) <> EmptyString
         \/ nonempty (Dom.getAttribute n "aria-label") = true)
  /\ test_link_text Landing.titled_link_page = Pass
  /\ audit_links Landing.titled_link_page
     = Err (ValueExpectation "toBeTruthy" (Js.Bool true) Js.Null)
  /\ audit_links Landing.nbsp_link_page
     = Err (ValueExpectation "toBeTruthy" (Js.Bool true) Js.Null)
  /\ audit_links Landing.page = Pass.
Proof.
  split; [|split; [apply audit_links_iff | split; [|repeat split; by_running]]].
  - intros d H. apply link_text_iff. intros h Hh.
    pose proof (proj1 (audit_links_iff d) H h Hh) as Hname.
    unfold has_accessible_name. unfold has_text_or_label in Hname.
    rewrite Hname. reflexivity.
  - intros n. unfold has_text_or_label.
    rewrite orb_true_iff, negb_true_iff, not_blank. tauto.
Qed.

(** ** Lists *)

Lemma items_under_list (d : document) (i : nat) (h : handle) :
  nth_error (resolve d lists) i = Some h ->
  0 < count d (Locator (Nth lists i) [[Tag "li"]])
  <-> has_inside d [[Tag "li"]] h = true.
Proof.
  unfold count. rewrite resolve_under_nth.
  destruct (nth_error (resolve d lists) i) as [h'|]; intros Hn; [|discriminate].
  injection Hn as ->. apply filter_nonempty.
Qed.

(** The list markup test passes exactly when the page has at least one
    [ul] with [role="list"] and every such list has an [li] element
    somewhere inside it; a page without such a list fails. *)
Theorem list_markup_test_needs_items_in_every_list :
  forall d : document,
    (test_list_markup d = Pass <->
     0 < count d lists
     /\ forall h, In h (resolve d lists) -> has_inside d [[Tag "li"]] h = true)
    /\ (count d lists = 0 ->
        test_list_markup d
        = Err (ValueExpectation "toBeGreaterThan"
                 (Js.Num (Js.Int 0)) (Js.Num (Js.Int 0)))).
Proof.
  intros d. split.
  - unfold test_list_markup.
    destruct (toBeGreaterThan (Js.Int (Z.of_nat (count d lists))) (Js.Int 0))
      as [[]|e] eqn:Hcount; cbn [bind].
    + apply toBeGreaterThan_zero in Hcount.
      rewrite forRange_pass. split.
      * intros H. split; [exact Hcount|]. intros h Hh.
        apply In_nth_error in Hh. destruct Hh as [i Hn].
        apply (items_under_list d i h Hn). apply toBeGreaterThan_zero.
        apply H. split; [lia|]. unfold count. apply nth_error_Some.
        rewrite Hn. discriminate.
      * intros [_ H] i Hi.
        destruct (nth_error (resolve d lists) i) as [h|] eqn:Hn.
        -- apply toBeGreaterThan_zero. apply (items_under_list d i h Hn).
           apply H. apply (nth_error_In _ _ Hn).
        -- apply nth_error_None in Hn. unfold count in Hi. lia.
    + split; [discriminate|]. intros [Hpos _].
      apply toBeGreaterThan_zero in Hpos. congruence.
  - intros Hzero. unfold test_list_markup. rewrite Hzero. reflexivity.
Qed.

(** ** Form controls *)

Lemma positive_filter {A : Type} (p : A -> bool) (xs : list A) :
  (0 <? length (filter p xs)) = existsb p xs.
Proof.
  induction xs as [|x xs IH]; simpl; [reflexivity|].
  destruct (p x); simpl; [reflexivity | exact IH].
Qed.

Lemma existsb_pointwise {A : Type} (p q : A -> bool) (xs : list A) :
  (forall x, p x = q x) -> existsb p xs = existsb q xs.
Proof.
  intros H. induction xs as [|x xs IH]; simpl; [reflexivity|].
  rewrite H, IH. reflexivity.
Qed.

Lemma label_count (d : document) (id : string) :
  (0 <? count d (label_for (Some id))) = has_label_for d id.
Proof.
  unfold count, label_for, has_label_for, to_string.
  change (resolve d (Page_locator [[Tag "label"; AttrEq "for" id]]))
    with (filter (fun h => matches (target h) [[Tag "label"; AttrEq "for" id]])
                 (handles d)).
  rewrite positive_filter. apply existsb_pointwise. intros h.
  unfold matches, matches_compound. cbn [existsb forallb matches_simple].
  rewrite orb_false_r, andb_true_r. unfold attr_is.
  destruct (Dom.getAttribute (target h) "for"); reflexivity.
Qed.

Lemma form_label_iteration (d : document) (i : nat) (h : handle) :
  nth_error (resolve d controls) i = Some h ->
  (id <- getAttribute d (Nth controls i) "id" ;;
   ariaLabel <- getAttribute d (Nth controls i) "aria-label" ;;
   ariaLabelledby <- getAttribute d (Nth controls i) "aria-labelledby" ;;
   if Js.truthy (Js.of_attr id) then
     toBeTruthy
       (or_else (or_else (Js.Bool (0 <? count d (label_for id)))
                         (Js.of_attr ariaLabel))
                (Js.of_attr ariaLabelledby))
   else Pass) = Pass
  <-> labelled_or_exempt d (target h) = true.
Proof.
  intros Hn. rewrite !(getAttribute_nth _ _ _ _ _ Hn). simpl bind.
  unfold labelled_or_exempt.
  destruct (Dom.getAttribute (target h) "id") as [id|]; simpl Js.truthy.
  - destruct (String.eqb id "") eqn:E; simpl.
    + tauto.
    + rewrite toBeTruthy_pass, !truthy_or_else, !truthy_of_attr. simpl Js.truthy.
      rewrite label_count. reflexivity.
  - tauto.
Qed.

(** The form labels test passes exactly when every [input], [textarea]
    and [select] with a non-empty id has a [label] pointing to that id, a
    non-empty [aria-label] or a non-empty [aria-labelledby].  A control
    without id, or with an empty one, is never checked, and a page without
    controls passes; the ids are taken to be plain enough to stand in the
    selector as they are. *)
Theorem form_labels_test_exempts_controls_without_id (d : document) :
  (forall h id, In h (resolve d controls) ->
                Dom.getAttribute (target h) "id" = Some id ->
                quotable id = true) ->
  (test_form_labels d = Pass <->
   forall h, In h (resolve d controls) -> labelled_or_exempt d (target h) = true)
  /\ ((forall h, In h (resolve d controls) ->
                 nonempty (Dom.getAttribute (target h) "id") = false) ->
      test_form_labels d = Pass)
  /\ (resolve d controls = [] -> test_form_labels d = Pass).
Proof.
  intros _.
  assert (Hiff : test_form_labels d = Pass <->
                 forall h, In h (resolve d controls) ->
                           labelled_or_exempt d (target h) = true).
  { unfold test_form_labels. apply forEach_all_iff.
    intros i h Hn. apply (form_label_iteration d i h Hn). }
  split; [exact Hiff|]. split.
  - intros Hnoid. apply Hiff. intros h Hh. specialize (Hnoid h Hh).
    unfold labelled_or_exempt, nonempty in *.
    destruct (Dom.getAttribute (target h) "id") as [id|]; [|reflexivity].
    apply negb_false_iff in Hnoid. rewrite Hnoid. reflexivity.
  - intros Hnone. apply Hiff. rewrite Hnone. intros h [].
Qed.

(** The theorem on a form with a labelled field and a field without id. *)
Lemma form_labels_on_form_page :
  (test_form_labels (Landing.form_page) = Pass <->
   forall h, In h (resolve (Landing.form_page) controls) ->
             labelled_or_exempt (Landing.form_page) (target h) = true)
  /\ ((forall h, In h (resolve (Landing.form_page) controls) ->
                 nonempty (Dom.getAttribute (target h) "id") = false) ->
      test_form_labels (Landing.form_page) = Pass)
  /\ (resolve (Landing.form_page) controls = [] ->
      test_form_labels (Landing.form_page) = Pass).
Proof.
  apply (form_labels_test_exempts_controls_without_id (Landing.form_page)).
  intros h id Hh Hid. vm_compute in Hh.
  destruct Hh as [<- | [<- | []]]; vm_compute in Hid;
    [injection Hid as <-; reflexivity | discriminate].
Defined.

(** ** Tab order *)

Lemma tabindex_iteration (d : document) (i : nat) (h : handle) :
  nth_error (resolve d interactive) i = Some h ->
  (tabindex <- getAttribute d (Nth interactive i) "tabindex" ;;
   if Js.truthy (Js.of_attr tabindex) then
     toBeGreaterThanOrEqual (Js.parseInt (to_string tabindex)) (Js.Int (-1))
   else Pass) = Pass
  <-> tabindex_allowed (target h) = true.
Proof.
  intros Hn. rewrite !(getAttribute_nth _ _ _ _ _ Hn). simpl bind.
  unfold tabindex_allowed.
  destruct (Dom.getAttribute (target h) "tabindex") as [t|]; simpl Js.truthy.
  - destruct (String.eqb t "") eqn:E; simpl; [tauto|].
    unfold toBeGreaterThanOrEqual, check.
    destruct (ge (Js.parseInt t) (Js.Int (-1))); split; try reflexivity; discriminate.
  - tauto.
Qed.

(** The tabindex check passes exactly when every link, button and form
    control either has no [tabindex], an empty one, or one that [parseInt]
    reads as an integer not below -1; a value that does not start with a
    number is rejected, since comparing [NaN] fails. *)
Theorem tabindex_check_accepts_values_from_minus_one :
  (forall d : document,
      check_tabindex d = Pass <->
      forall h, In h (resolve d interactive) -> tabindex_allowed (target h) = true)
  /\ (forall n : node,
         tabindex_allowed n = true <->
         Dom.getAttribute n "tabindex" = None
         \/ Dom.getAttribute n "tabindex" = Some ""
         \/ exists t z, Dom.getAttribute n "tabindex" = Some t
                        /\ Js.parseInt t = Js.Int z /\ (-1 <= z)%Z)
  /\ Js.parseInt "-1" = Js.Int (-1)
  /\ Js.parseInt "-2" = Js.Int (-2)
  /\ Js.parseInt "none" = Js.NaN
  /\ Js.parseInt " 3px" = Js.Int 3.
Proof.
  split; [|split; [|repeat split; by_running]].
  - intros d. unfold check_tabindex. apply forEach_all_iff.
    intros i h Hn. apply (tabindex_iteration d i h Hn).
  - intros n. unfold tabindex_allowed.
    destruct (Dom.getAttribute n "tabindex") as [t|].
    + rewrite orb_true_iff, String.eqb_eq. split.
      * intros [-> | Hge]; [right; left; reflexivity|].
        right. right. unfold ge in Hge.
        destruct (Js.parseInt t) as [z|] eqn:Hp; [|discriminate].
        apply Z.leb_le in Hge.
        exists t, z. split; [reflexivity | split; [exact Hp | exact Hge]].
      * intros [H | [H | [t' [z [Ht [Hp Hz]]]]]]; [discriminate | | ].
        -- injection H as ->. left. reflexivity.
        -- injection Ht as <-. right. rewrite Hp. simpl. apply Z.leb_le. exact Hz.
    + split; [intros _; left; reflexivity | reflexivity].
Qed.

End AccessibilityFacts.

(* ===================================================================== *)
(** * Metadata tests: what they accept *)
(* ===================================================================== *)

Module MetadataFacts.

Import Dom Playwright Script Metadata Acceptance Facts MoreFacts.
Local Open Scope test_scope.

(** A step followed by the rest passes exactly when both pass. *)
Lemma then_pass (m k : result unit) :
  (m ;; k) = Pass <-> m = Pass /\ k = Pass.
Proof.
  destruct m as [[]|e]; simpl.
  - split; [intros H; split; [reflexivity | exact H] | tauto].
  - split; [discriminate | intros [H _]; discriminate].
Qed.

(** Reading an attribute and going on passes exactly when the locator
    resolves to one element and the rest passes on its attribute. *)
Lemma read_pass (d : document) (l : locator) (name : string)
  (k : option string -> result unit) :
  (x <- getAttribute d l name ;; k x) = Pass
  <-> exists h, resolve d l = [h]
                /\ k (Dom.getAttribute (target h) name) = Pass.
Proof.
  unfold getAttribute, single.
  destruct (resolve d l) as [|h [|h' hs]]; simpl.
  - split; [discriminate | intros [h [H _]]; discriminate].
  - split.
    + intros H. exists h. split; [reflexivity | exact H].
    + intros [h0 [H Hk]]. injection H as <-. exact Hk.
  - split; [discriminate | intros [h0 [H _]]; discriminate].
Qed.

Lemma toBe_attr (a : option string) (v : string) :
  toBe (Js.of_attr a) (Js.Str v) = Pass <-> is_value v a = true.
Proof.
  unfold toBe, check, is_value. destruct a as [w|]; simpl.
  - destruct (String.eqb w v); split; try reflexivity; discriminate.
  - split; discriminate.
Qed.

Lemma toContain_attr (a : option string) (item : string) :
  toContain (Js.of_attr a) item = Pass <-> includes_item item a = true.
Proof.
  unfold toContain, check, includes_item. destruct a as [w|]; simpl.
  - destruct (Js.includes item w); split; try reflexivity; discriminate.
  - split; discriminate.
Qed.

Lemma toBeTruthy_attr (a : option string) :
  toBeTruthy (Js.of_attr a) = Pass <-> nonempty a = true.
Proof. rewrite toBeTruthy_pass, truthy_of_attr. tauto. Qed.


(** What ['link[rel="..."]'] selects: [rel] is one of the attributes whose
    value a selector compares without regard to case. *)
Lemma link_rel_spec (d : document) (rel : string) (h : handle) :
  In h (resolve d (link_rel rel)) <->
  In h (handles d)
  /\ localName (target h) = "link"
  /\ exists v, Dom.getAttribute (target h) "rel" = Some v
               /\ eqb_ignoring_case v rel = true.
Proof.
  unfold link_rel. simpl. unfold querySelectorAll.
  rewrite filter_In. unfold matches, matches_compound.
  cbn [existsb forallb matches_simple].
  rewrite andb_true_r, orb_false_r, andb_true_iff, String.eqb_eq.
  unfold attr_is.
  destruct (Dom.getAttribute (target h) "rel") as [w|].
  - change (value_matches "rel" w rel) with (eqb_ignoring_case w rel). split.
    + intros [Hin [Hn Hv]]. split; [exact Hin|]. split; [exact Hn|].
      exists w. split; [reflexivity | exact Hv].
    + intros [Hin [Hn [v [Hv Hc]]]]. injection Hv as <-. tauto.
  - split.
    + intros [_ [_ H]]. discriminate.
    + intros [_ [_ [v [Hv _]]]]. discriminate.
Qed.

(** The tests that read one attribute and compare it pass exactly when
    their selector matches exactly one element of the page and that
    element carries the expected value: [lang="en"] and [dir="ltr"] on
    [html], [charset="UTF-8"] on the one [meta] with a charset, the
    canonical [href], and the two icon links; the viewport content must
    include both settings.  A second matching element fails the test with
    a strict mode violation even when it carries the same value, and no
    matching element fails it for lack of an element. *)
Theorem attribute_tests_need_exactly_one_element :
  forall d : document,
    (test_html_lang d = Pass <-> only_one d html "lang" (is_value "en"))
    /\ (test_html_dir d = Pass <-> only_one d html "dir" (is_value "ltr"))
    /\ (test_charset d = Pass <->
        only_one d charsetMeta "charset" (is_value "UTF-8"))
    /\ (test_canonical d = Pass <->
        only_one d (link_rel "canonical") "href"
                 (is_value "https://wemabank.com"))
    /\ (test_favicon d = Pass <->
        only_one d (link_rel "icon") "href" (is_value "/favicon.ico")
        /\ only_one d (link_rel "apple-touch-icon") "href"
                    (is_value "/apple-touch-icon.png"))
    /\ (test_viewport d = Pass <->
        only_one d (meta_named "viewport") "content"
                 (fun a => includes_item "width=device-width" a
                           && includes_item "initial-scale=1.0" a))
    /\ (2 <= count d (link_rel "canonical") ->
        test_canonical d
        = Err (StrictModeViolation (link_rel "canonical")
                                   (count d (link_rel "canonical"))))
    /\ (count d (link_rel "canonical") = 0 ->
        test_canonical d = Err (NoElement "getAttribute" (link_rel "canonical")))
    /\ (forall rel h,
           In h (resolve d (link_rel rel)) <->
           In h (handles d)
           /\ localName (target h) = "link"
           /\ exists v, Dom.getAttribute (target h) "rel" = Some v
                        /\ eqb_ignoring_case v rel = true).
Proof.
  intros d. unfold only_one.
  split; [unfold test_html_lang; rewrite read_pass; setoid_rewrite toBe_attr; tauto|].
  split; [unfold test_html_dir; rewrite read_pass; setoid_rewrite toBe_attr; tauto|].
  split; [unfold test_charset; rewrite read_pass; setoid_rewrite toBe_attr; tauto|].
  split; [unfold test_canonical; rewrite read_pass; setoid_rewrite toBe_attr; tauto|].
  split.
  { unfold test_favicon. rewrite read_pass. setoid_rewrite read_pass.
    setoid_rewrite then_pass. setoid_rewrite toBe_attr. split.
    - intros [h [Hh [h' [Hh' [Hv Hv']]]]]. split; eauto.
    - intros [[h [Hh Hv]] [h' [Hh' Hv']]]. eauto 8. }
  split.
  { unfold test_viewport. rewrite read_pass. setoid_rewrite then_pass.
    setoid_rewrite toContain_attr. setoid_rewrite andb_true_iff. tauto. }
  split.
  { intros Hmany. unfold test_canonical, getAttribute.
    rewrite (single_many _ _ _ Hmany). reflexivity. }
  split.
  { intros Hnone. unfold test_canonical, getAttribute.
    rewrite (single_none _ _ _ Hnone). reflexivity. }
  intros rel h. apply link_rel_spec.
Qed.


Lemma gt_of_nat (n k : nat) :
  Js.gt (Js.Int (Z.of_nat n)) (Js.Int (Z.of_nat k)) = (k <? n).
Proof.
  simpl. destruct (k <? n) eqn:E.
  - apply Nat.ltb_lt in E. apply Z.ltb_lt. lia.
  - apply Nat.ltb_ge in E. apply Z.ltb_ge. lia.
Qed.

Lemma lt_of_nat (n k : nat) :
  lt (Js.Int (Z.of_nat n)) (Js.Int (Z.of_nat k)) = (n <? k).
Proof.
  simpl. destruct (n <? k) eqn:E.
  - apply Nat.ltb_lt in E. apply Z.ltb_lt. lia.
  - apply Nat.ltb_ge in E. apply Z.ltb_ge. lia.
Qed.

(** The assertions on the description, lines 78-81: the truthiness check
    adds nothing to the length bounds. *)
Lemma description_checks (a : option string) (rest : result unit) :
  (toBeTruthy (Js.of_attr a) ;;
   len <- attr_length a ;;
   toBeGreaterThan len (Js.Int 50) ;;
   len' <- attr_length a ;;
   toBeLessThan len' (Js.Int 160) ;;
   toContain (Js.of_attr a) "Wema Bank" ;;
   rest) = Pass
  <-> (length_between 50 160 a && includes_item "Wema Bank" a = true)
      /\ rest = Pass.
Proof.
  destruct a as [w|]; [|simpl; split; [discriminate | intros [H _]; discriminate]].
  unfold toBeTruthy, check, attr_length, string_length, toBeGreaterThan,
    toBeLessThan, toContain, length_between, includes_item.
  cbn [Js.of_attr Js.truthy bind].
  change (Js.Int 50) with (Js.Int (Z.of_nat 50)).
  change (Js.Int 160) with (Js.Int (Z.of_nat 160)).
  rewrite gt_of_nat, lt_of_nat.
  destruct (String.eqb w "") eqn:Hw.
  - apply String.eqb_eq in Hw. subst w. simpl.
    split; [discriminate | intros [H _]; discriminate].
  - cbn [negb check bind].
    destruct (50 <? Js.utf16_length w); cbn [check bind andb];
      [|split; [discriminate | intros [H _]; discriminate]].
    destruct (Js.utf16_length w <? 160); cbn [check bind andb];
      [|split; [discriminate | intros [H _]; discriminate]].
    destruct (Js.includes "Wema Bank" w); cbn [check bind];
      [|split; [discriminate | intros [H _]; discriminate]].
    split; [intros H; split; [reflexivity | exact H] | tauto].
Qed.

(** The assertions on the keywords, lines 85-87. *)
Lemma keywords_checks (a : option string) :
  (toBeTruthy (Js.of_attr a) ;;
   toContain (Js.of_attr a) "Wema Bank" ;;
   toContain (Js.of_attr a) "banking") = Pass
  <-> includes_item "Wema Bank" a && includes_item "banking" a = true.
Proof.
  destruct a as [w|]; [|simpl; split; discriminate].
  unfold toBeTruthy, check, toContain, includes_item.
  cbn [Js.of_attr Js.truthy bind].
  destruct (String.eqb w "") eqn:Hw.
  - apply String.eqb_eq in Hw. subst w. simpl. split; discriminate.
  - cbn [negb check bind].
    destruct (Js.includes "Wema Bank" w); cbn [check bind andb];
      [|split; discriminate].
    destruct (Js.includes "banking" w); split; try reflexivity; discriminate.
Qed.

Lemma title_checks (t : string) (rest : result unit) :
  (toBe (Js.Str t) (Js.Str "Wema Bank - Your Trusted Banking Partner") ;;
   toBeGreaterThan (string_length t) (Js.Int 10) ;;
   toBeLessThan (string_length t) (Js.Int 60) ;;
   rest) = Pass
  <-> t = "Wema Bank - Your Trusted Banking Partner" /\ rest = Pass.
Proof.
  unfold toBe, check. cbn [Js.same_value].
  destruct (String.eqb t "Wema Bank - Your Trusted Banking Partner") eqn:E.
  - apply String.eqb_eq in E. subst t. cbn [bind].
    change (toBeGreaterThan _ _) with Pass. change (toBeLessThan _ _) with Pass.
    cbn [bind Pass]. split; [intros H; split; [reflexivity | exact H] | tauto].
  - apply String.eqb_neq in E. cbn [bind].
    split; [discriminate | intros [H _]; congruence].
Qed.

(** The meta tags test passes exactly when the document title is the
    expected one, exactly one [meta] named [description] exists with a
    content of more than 50 and fewer than 160 UTF-16 code units that
    includes [Wema Bank], and exactly one [meta] named [keywords] exists
    whose content includes [Wema Bank] and [banking].  The two length
    assertions on the title and the two truthiness assertions add nothing
    to these conditions.  The title is that of the document: a [title]
    inside an [svg] does not give the page one. *)
Theorem meta_tags_test_accepts :
  (forall d : document,
      test_meta_tags d = Pass <->
      Script.title d = "Wema Bank - Your Trusted Banking Partner"
      /\ only_one d (meta_named "description") "content"
                  (fun a => length_between 50 160 a
                            && includes_item "Wema Bank" a)
      /\ only_one d (meta_named "keywords") "content"
                  (fun a => includes_item "Wema Bank" a
                            && includes_item "banking" a))
  /\ test_meta_tags Landing.page = Pass
  /\ test_meta_tags Landing.svg_titled_page
     = Err (ValueExpectation "toBe"
              (Js.Str "Wema Bank - Your Trusted Banking Partner")
              (Js.Str "")).
Proof.
  split; [|split; by_running].
  intros d. unfold test_meta_tags, only_one.
  rewrite title_checks, read_pass.
  setoid_rewrite description_checks. setoid_rewrite read_pass.
  setoid_rewrite keywords_checks. split.
  - intros [Ht [h [Hh [Hd [h' [Hh' Hk]]]]]]. split; [exact Ht|]. split; eauto.
  - intros [Ht [[h [Hh Hd]] [h' [Hh' Hk]]]]. split; [exact Ht|]. eauto 8.
Qed.

(** The Open Graph test and the Twitter Card test pass exactly when each
    of the tags they read exists exactly once and carries an acceptable
    content: the expected value, any non-empty value for the descriptions
    and the Twitter title, and a value that includes [https://] for the
    images. *)
Theorem social_card_tests_accept :
  forall d : document,
    (test_open_graph d = Pass <->
     only_one d (meta_property "og:title") "content"
              (is_value "Wema Bank - Your Trusted Banking Partner")
     /\ only_one d (meta_property "og:description") "content" nonempty
     /\ only_one d (meta_property "og:image") "content"
                 (includes_item "https://")
     /\ only_one d (meta_property "og:url") "content"
                 (is_value "https://wemabank.com")
     /\ only_one d (meta_property "og:type") "content" (is_value "website")
     /\ only_one d (meta_property "og:site_name") "content"
                 (is_value "Wema Bank"))
    /\ (test_twitter_card d = Pass <->
        only_one d (meta_named "twitter:card") "content"
                 (is_value "summary_large_image")
        /\ only_one d (meta_named "twitter:title") "content" nonempty
        /\ only_one d (meta_named "twitter:description") "content" nonempty
        /\ only_one d (meta_named "twitter:image") "content"
                    (includes_item "https://")
        /\ only_one d (meta_named "twitter:site") "content"
                    (is_value "@wemabank")).
Proof.
  intros d. unfold only_one. split.
  - unfold test_open_graph. rewrite read_pass. repeat setoid_rewrite read_pass.
    repeat setoid_rewrite then_pass.
    repeat setoid_rewrite toBe_attr. setoid_rewrite toBeTruthy_attr.
    setoid_rewrite toContain_attr. split.
    + intros [h1 [H1 [h2 [H2 [h3 [H3 [h4 [H4 [h5 [H5 [h6 [H6 C]]]]]]]]]]]].
      destruct C as [C1 [C2 [C3 [C4 [C5 C6]]]]].
      repeat split; eauto.
    + intros [[h1 [H1 C1]] [[h2 [H2 C2]] [[h3 [H3 C3]] [[h4 [H4 C4]]
               [[h5 [H5 C5]] [h6 [H6 C6]]]]]]].
      exists h1. split; [exact H1|]. exists h2. split; [exact H2|].
      exists h3. split; [exact H3|]. exists h4. split; [exact H4|].
      exists h5. split; [exact H5|]. exists h6. split; [exact H6|].
      repeat split; assumption.
  - unfold test_twitter_card. rewrite read_pass. repeat setoid_rewrite read_pass.
    repeat setoid_rewrite then_pass.
    repeat setoid_rewrite toBe_attr. repeat setoid_rewrite toBeTruthy_attr.
    setoid_rewrite toContain_attr. split.
    + intros [h1 [H1 [h2 [H2 [h3 [H3 [h4 [H4 [h5 [H5 C]]]]]]]]]].
      destruct C as [C1 [C2 [C3 [C4 C5]]]].
      repeat split; eauto.
    + intros [[h1 [H1 C1]] [[h2 [H2 C2]] [[h3 [H3 C3]] [[h4 [H4 C4]]
               [h5 [H5 C5]]]]]].
      exists h1. split; [exact H1|]. exists h2. split; [exact H2|].
      exists h3. split; [exact H3|]. exists h4. split; [exact H4|].
      exists h5. split; [exact H5|].
      repeat split; assumption.
Qed.

End MetadataFacts.

(* ===================================================================== *)
(** * Guarded reads and the accessibility audit *)
(* ===================================================================== *)

Module AuditFacts.

Import Dom Playwright Suite Script Metadata Accessibility Acceptance.
Import Facts MoreFacts MetadataFacts.
Local Open Scope test_scope.

Lemma safe_bind {A B : Type} (m : result A) (k : A -> result B) :
  no_type_error m ->
  (forall a, m = Ok a -> no_type_error (k a)) ->
  no_type_error (bind m k).
Proof.
  destruct m as [a|e]; simpl; intros Hm Hk; [apply Hk; reflexivity | exact Hm].
Qed.

Lemma safe_check (matcher : string) (ok : bool) (expected received : Js.value) :
  no_type_error (check matcher ok expected received).
Proof. unfold check. destruct ok; simpl; [exact I | reflexivity]. Qed.

Lemma safe_single (op : string) (d : document) (l : locator) :
  no_type_error (single op d l).
Proof.
  unfold single. destruct (resolve d l) as [|h [|h' hs]]; simpl;
    [reflexivity | exact I | reflexivity].
Qed.

Lemma safe_getAttribute (d : document) (l : locator) (name : string) :
  no_type_error (getAttribute d l name).
Proof.
  unfold getAttribute. apply safe_bind; [apply safe_single | intros; exact I].
Qed.

Lemma safe_forEach {A : Type} (xs : list A) (body : A -> result unit) :
  (forall x, In x xs -> no_type_error (body x)) ->
  no_type_error (forEach xs body).
Proof.
  intros H. destruct (forEach xs body) as [[]|e] eqn:E; simpl; [exact I|].
  destruct (forEach_error xs body e E) as [x [Hx Hb]].
  specialize (H x Hx). rewrite Hb in H. exact H.
Qed.

Lemma safe_after_truthy (a : option string) (k : Js.num -> result unit) :
  toBeTruthy (Js.of_attr a) = Pass ->
  (forall n, no_type_error (k n)) ->
  no_type_error (bind (attr_length a) k).
Proof.
  destruct a as [w|]; [intros _ Hk; apply Hk | discriminate].
Qed.

Lemma safe_heading_hierarchy (d : document) :
  no_type_error (test_heading_hierarchy d).
Proof.
  unfold test_heading_hierarchy.
  apply safe_bind; [apply safe_check | intros [] Hone].
  apply safe_bind; [apply safe_check | intros _ _].
  apply safe_bind; [apply safe_check | intros _ _].
  apply safe_bind.
  - destruct (all d (Page_locator [[Tag "h1"]])) as [|first rest].
    + discriminate.
    + unfold textContent. apply safe_bind; [apply safe_single | intros; exact I].
  - intros h1Text _.
    apply safe_bind; [apply safe_check | intros _ _].
    apply safe_bind.
    + rewrite HeadingHierarchy.headingLevels_spec. exact I.
    + intros levels _. unfold check_no_level_skipped, forRange.
      apply safe_forEach. intros i _. apply safe_check.
Qed.

Lemma safe_meta_tags (d : document) : no_type_error (test_meta_tags d).
Proof.
  unfold test_meta_tags.
  apply safe_bind; [apply safe_check | intros _ _].
  apply safe_bind; [apply safe_check | intros _ _].
  apply safe_bind; [apply safe_check | intros _ _].
  apply safe_bind; [apply safe_getAttribute | intros description _].
  apply safe_bind; [apply safe_check | intros [] Htruthy].
  apply (safe_after_truthy description); [exact Htruthy | intros n].
  apply safe_bind; [apply safe_check | intros _ _].
  apply (safe_after_truthy description); [exact Htruthy | intros n'].
  apply safe_bind; [apply safe_check | intros _ _].
  apply safe_bind; [apply safe_check | intros _ _].
  apply safe_bind; [apply safe_getAttribute | intros keywords _].
  apply safe_bind; [apply safe_check | intros _ _].
  apply safe_bind; [apply safe_check | intros _ _].
  apply safe_check.
Qed.

Lemma safe_aria_labels (d : document) : no_type_error (check_aria_labels d).
Proof.
  unfold check_aria_labels.
  apply safe_bind; [apply safe_check | intros _ _].
  apply safe_forEach. intros element _.
  apply safe_bind; [apply safe_getAttribute | intros label _].
  apply safe_bind; [apply safe_check | intros [] Htruthy].
  apply (safe_after_truthy label); [exact Htruthy | intros n].
  apply safe_check.
Qed.

(** The three places where the suite reads a property of a value that
    may be missing ([h1[0]] in the heading test, [description.length] in
    the meta tags test, [label.length] in the ARIA test) are each reached
    only after an assertion that fails when the value is missing: none of
    these tests ends in a JavaScript runtime error, whatever the page. *)
Theorem property_reads_are_guarded :
  forall d : document,
    no_type_error (test_heading_hierarchy d)
    /\ no_type_error (test_meta_tags d)
    /\ no_type_error (check_aria_labels d).
Proof.
  intros d. split; [apply safe_heading_hierarchy|].
  split; [apply safe_meta_tags | apply safe_aria_labels].
Qed.


Lemma bind_pass {A : Type} (m : result A) (k : A -> result unit) :
  bind m k = Pass -> exists a, m = Ok a /\ k a = Pass.
Proof.
  destruct m as [a|e]; simpl; [|discriminate].
  intros H. exists a. split; [reflexivity | exact H].
Qed.

Lemma attached_when_read (d : document) (l : locator) (name : string)
  (k : option string -> result unit) :
  (x <- getAttribute d l name ;; k x) = Pass -> toBeAttached d l = Pass.
Proof.
  intros H. apply read_pass in H. destruct H as [h [Hh _]].
  unfold toBeAttached, single. rewrite Hh. reflexivity.
Qed.

Lemma in_larger_selector (d : document) (s s' : selector) :
  (forall n, matches n s = true -> matches n s' = true) ->
  length (querySelectorAll d s) <= length (querySelectorAll d s').
Proof.
  intros Hsub. unfold querySelectorAll.
  induction (handles d) as [|h hs IH]; simpl; [lia|].
  destruct (matches (target h) s) eqn:E.
  - rewrite (Hsub _ E). simpl. lia.
  - destruct (matches (target h) s'); simpl; lia.
Qed.

Lemma length_all (d : document) (l : locator) :
  length (all d l) = count d l.
Proof. unfold all. rewrite length_map, length_seq. reflexivity. Qed.

Section Rendered.

Variable visible : handle -> bool.
Variable backgroundColor : handle -> string.

(** Step 4 asserts what the landmark lines of the ARIA test assert, in
    another order. *)
Lemma landmarks_checked_twice (d : document) :
  check_landmarks visible d = Pass -> audit_landmarks visible d = Pass.
Proof.
  unfold check_landmarks, audit_landmarks. rewrite !then_pass. tauto.
Qed.

(** Once the dedicated tests pass (language, viewport, meta tags, heading
    hierarchy, skip link, and the landmark roles and aria-labelledby
    references of the ARIA test), steps 1, 2, 3, 4, 5, 9 and 10 of the
    accessibility audit pass as well: the audit then stands or falls with
    its step 6 (an [alt] or [aria-hidden] on every image), its step 7
    (text or [aria-label] on every link) and its step 8 (one [body] with
    a background colour).  Visibility and colours are those of the
    rendering at hand. *)
Theorem dedicated_tests_cover_audit_steps (d : document) :
  test_html_lang d = Pass ->
  test_viewport d = Pass ->
  test_meta_tags d = Pass ->
  test_heading_hierarchy d = Pass ->
  test_skip_link d = Pass ->
  check_landmarks visible d = Pass ->
  check_aria_labelledby d = Pass ->
  audit_document_structure d = Pass
  /\ audit_viewport d = Pass
  /\ audit_title d = Pass
  /\ audit_landmarks visible d = Pass
  /\ audit_heading_structure d = Pass
  /\ audit_skip_link d = Pass
  /\ audit_aria_usage d = Pass
  /\ test_accessibility_audit visible backgroundColor d
     = (check_image_alt_attributes d ;;
        audit_links d ;;
        audit_contrast backgroundColor d).
Proof.
  intros Hlang Hview Hmeta Hhead Hskip Hland Haria.
  assert (S1 : audit_document_structure d = Pass).
  { unfold test_html_lang in Hlang. apply read_pass in Hlang.
    destruct Hlang as [h [Hh Hv]]. apply toBe_attr in Hv.
    unfold audit_document_structure, toHaveAttributePresent, single.
    rewrite Hh. cbn [bind]. unfold is_value in Hv.
    destruct (Dom.getAttribute (target h) "lang"); [reflexivity | discriminate]. }
  assert (S2 : audit_viewport d = Pass).
  { unfold audit_viewport. apply (attached_when_read _ _ _ _ Hview). }
  assert (S3 : audit_title d = Pass).
  { unfold test_meta_tags in Hmeta. apply title_checks in Hmeta.
    destruct Hmeta as [Ht _].
    unfold audit_title. rewrite Ht. reflexivity. }
  assert (S4 : audit_landmarks visible d = Pass).
  { apply landmarks_checked_twice. exact Hland. }
  assert (S5 : audit_heading_structure d = Pass).
  { unfold test_heading_hierarchy in Hhead.
    apply bind_pass in Hhead. destruct Hhead as [[] [Hone _]].
    unfold audit_heading_structure. unfold Js.length_of in Hone.
    rewrite length_all in Hone. exact Hone. }
  assert (S9 : audit_skip_link d = Pass).
  { unfold test_skip_link in Hskip.
    apply bind_pass in Hskip. destruct Hskip as [[] [Hatt _]]. exact Hatt. }
  assert (S10 : audit_aria_usage d = Pass).
  { unfold check_aria_labelledby in Haria.
    apply bind_pass in Haria. destruct Haria as [[] [Hsome _]].
    unfold Js.length_of in Hsome. rewrite length_all in Hsome.
    apply toBeGreaterThan_zero in Hsome.
    unfold audit_aria_usage, Js.length_of. rewrite length_all.
    apply toBeGreaterThan_zero.
    unfold count in *. simpl resolve in *.
    pose proof (in_larger_selector d [[HasAttr "aria-labelledby"]]
                  [[HasAttr "aria-label"]; [HasAttr "aria-labelledby"];
                   [HasAttr "aria-describedby"]]) as Hle.
    assert (length (querySelectorAll d [[HasAttr "aria-labelledby"]])
            <= length (querySelectorAll d
                         [[HasAttr "aria-label"]; [HasAttr "aria-labelledby"];
                          [HasAttr "aria-describedby"]])); [|lia].
    apply Hle. intros n Hn. unfold matches in *. simpl in *.
    rewrite orb_false_r in Hn. rewrite Hn. rewrite orb_true_r. reflexivity. }
  repeat (split; [assumption|]).
  unfold test_accessibility_audit. rewrite S1, S2, S3, S4, S5, S9, S10.
  cbn [bind Pass].
  destruct (check_image_alt_attributes d) as [[]|e]; cbn [bind]; [|reflexivity].
  destruct (audit_links d) as [[]|e]; cbn [bind]; [|reflexivity].
  destruct (audit_contrast backgroundColor d) as [[]|e]; reflexivity.
Qed.

End Rendered.

(** The theorem on the landing page, rendered with every element
    visible. *)
Lemma audit_steps_on_landing_page :
  audit_document_structure Landing.page = Pass
  /\ audit_viewport Landing.page = Pass
  /\ audit_title Landing.page = Pass
  /\ audit_landmarks Landing.all_visible Landing.page = Pass
  /\ audit_heading_structure Landing.page = Pass
  /\ audit_skip_link Landing.page = Pass
  /\ audit_aria_usage Landing.page = Pass
  /\ test_accessibility_audit Landing.all_visible Landing.transparent
                              Landing.page
     = (check_image_alt_attributes Landing.page ;;
        audit_links Landing.page ;;
        audit_contrast Landing.transparent Landing.page).
Proof.
  apply (dedicated_tests_cover_audit_steps
           Landing.all_visible Landing.transparent Landing.page);
    vm_compute; reflexivity.
Defined.

End AuditFacts.

(* ===================================================================== *)
(** * Skip link, contact details, branches and social links *)
(* ===================================================================== *)

Module ContentFacts.

Import Dom Playwright Suite Outcomes Script Accessibility Content Acceptance.
Import Facts MoreFacts MetadataFacts.
Local Open Scope test_scope.

Lemma pass_then (k : result unit) : (Pass ;; k) = k.
Proof. reflexivity. Qed.

Lemma text_of_one (d : document) (l : locator) (h : handle)
  (expected : string) :
  resolve d l = [h] ->
  toContainText d l expected
  = if contains_text expected (elementText d h) then Pass
    else Err (LocatorExpectation "toContainText" l (Js.Str expected)
                (Js.Str (elementText d h))).
Proof. apply toContainText_one. Qed.

Lemma toHaveAttribute_pass (d : document) (l : locator) (name v : string) :
  toHaveAttribute d l name v = Pass <->
  exists h, resolve d l = [h] /\ Dom.getAttribute (target h) name = Some v.
Proof.
  unfold toHaveAttribute, single.
  destruct (resolve d l) as [|h [|h' hs]]; cbn [bind].
  - split; [discriminate | intros [h [H _]]; discriminate].
  - destruct (Dom.getAttribute (target h) name) as [w|] eqn:Hw.
    + destruct (String.eqb w v) eqn:E.
      * apply String.eqb_eq in E. subst w. split; [|reflexivity].
        intros _. exists h. split; [reflexivity | exact Hw].
      * apply String.eqb_neq in E. split; [discriminate|].
        intros [h0 [H Hv]]. injection H as <-. congruence.
    + split; [discriminate|]. intros [h0 [H Hv]]. injection H as <-. congruence.
  - split; [discriminate | intros [h0 [H _]]; discriminate].
Qed.

(** The skip link test passes exactly when the page has exactly one [a]
    element with the class [skip-link], its [href] is [#main] and its text
    contains [Skip to main content]; a second skip link fails the test
    with a strict mode violation. *)
Theorem skip_link_test_needs_one_skip_link :
  forall d : document,
    (test_skip_link d = Pass <->
     exists h, resolve d skipLink = [h]
               /\ Dom.getAttribute (target h) "href" = Some "#main"
               /\ contains_text "Skip to main content"
                                (elementText d h) = true)
    /\ (2 <= count d skipLink ->
        test_skip_link d
        = Err (StrictModeViolation skipLink (count d skipLink)))
    /\ (forall h, In h (resolve d skipLink) <->
                  In h (handles d)
                  /\ localName (target h) = "a"
                  /\ has_class (target h) "skip-link" = true).
Proof.
  intros d. split; [|split].
  - unfold test_skip_link, contains_text. rewrite !then_pass.
    rewrite toHaveAttribute_pass, toContainText_pass. split.
    + intros [_ [[h [Hh Hv]] [h' [Hh' Hc]]]].
      assert (h = h') by congruence. subst h'. exists h. tauto.
    + intros [h [Hh [Hv Hc]]]. split; [|split]; eauto.
      unfold toBeAttached, single. rewrite Hh. reflexivity.
  - intros Hmany. unfold test_skip_link, toBeAttached.
    rewrite (single_many _ _ _ Hmany). reflexivity.
  - intros h. unfold skipLink. simpl. unfold querySelectorAll.
    rewrite filter_In. unfold matches, matches_compound.
    cbn [existsb forallb matches_simple].
    rewrite andb_true_r, orb_false_r, andb_true_iff, String.eqb_eq. tauto.
Qed.

(** ** Branch links *)

Lemma toHaveCount_cases (d : document) (l : locator) (n : nat) :
  (count d l = n /\ toHaveCount d l n = Pass)
  \/ (count d l <> n
      /\ toHaveCount d l n = Err (count_mismatch l n (count d l))).
Proof.
  unfold toHaveCount, count_mismatch. destruct (count d l =? n) eqn:E.
  - left. apply Nat.eqb_eq in E. tauto.
  - right. apply Nat.eqb_neq in E. tauto.
Qed.

Lemma nth_of_counted (d : document) (l : locator) (i : nat) (expected : string) :
  i < count d l ->
  exists h, nth_error (resolve d l) i = Some h
            /\ toContainText d (Nth l i) expected
               = if contains_text expected (elementText d h)
                 then Pass
                 else Err (LocatorExpectation "toContainText" (Nth l i)
                             (Js.Str expected)
                             (Js.Str (elementText d h))).
Proof.
  intros Hi. unfold count in Hi.
  destruct (nth_error (resolve d l) i) as [h|] eqn:Hn.
  - exists h. split; [reflexivity|].
    apply text_of_one. apply (resolve_nth _ _ _ _ Hn).
  - apply nth_error_None in Hn. lia.
Qed.

(** The branch links test looks at the links inside the third element
    with the class [footer__column].  On a page with fewer than three such
    columns it fails reporting 0 links where 6 were expected; it passes
    exactly when that column holds 6 links whose texts contain, in order,
    Lagos, Abuja, Port Harcourt, Kano, Ibadan and View All; and it never
    fails otherwise than by a failed expectation (no strict mode violation,
    no missing element). *)
Theorem branch_links_test_reads_third_column :
  forall d : document,
    (count d (Page_locator [[Class "footer__column"]]) < 3 ->
     test_branch_links d = Err (count_mismatch branchLinks 6 0))
    /\ (test_branch_links d = Pass <->
        count d branchLinks = 6
        /\ forall i h, nth_error (resolve d branchLinks) i = Some h ->
                       contains_text (nth i expectedBranches "")
                                     (elementText d h) = true)
    /\ fails_only_by_expectation (test_branch_links d).
Proof.
  intros d. split; [|split].
  - intros Hfew. unfold test_branch_links.
    assert (Hnone : count d branchLinks = 0).
    { unfold count, branchLinks in *. rewrite resolve_under_nth.
      destruct (nth_error (resolve d (Page_locator [[Class "footer__column"]])) 2)
        eqn:Hn; [|reflexivity].
      assert (2 < length (resolve d (Page_locator [[Class "footer__column"]]))).
      { apply nth_error_Some. rewrite Hn. discriminate. }
      lia. }
    destruct (toHaveCount_cases d branchLinks 6) as [[Hc _] | [_ Hf]]; [lia|].
    rewrite Hf, Hnone. reflexivity.
  - unfold test_branch_links.
    destruct (toHaveCount_cases d branchLinks 6) as [[Hc Hp] | [Hc Hf]].
    + rewrite Hp, pass_then. rewrite forRange_pass. split.
      * intros H. split; [exact Hc|]. intros i h Hn.
        assert (Hi : i < count d branchLinks).
        { unfold count. apply nth_error_Some. rewrite Hn. discriminate. }
        destruct (nth_of_counted d branchLinks i (nth i expectedBranches "") Hi)
          as [h' [Hn' Hstep]].
        assert (h' = h) by congruence. subst h'.
        specialize (H i). rewrite Hstep in H.
        destruct (contains_text _ _); [reflexivity|].
        assert (Hr : 0 <= i < length expectedBranches) by (simpl; lia).
        specialize (H Hr). discriminate.
      * intros [_ H] i Hi. simpl in Hi.
        assert (Hi' : i < count d branchLinks) by lia.
        destruct (nth_of_counted d branchLinks i (nth i expectedBranches "") Hi')
          as [h [Hn Hstep]].
        rewrite Hstep, (H i h Hn). reflexivity.
    + rewrite Hf. cbn [bind]. split; [discriminate | intros [H _]; contradiction].
  - unfold test_branch_links, fails_only_by_expectation.
    destruct (toHaveCount_cases d branchLinks 6) as [[Hc Hp] | [Hc Hf]].
    + rewrite Hp, pass_then.
      destruct (forRange 0 (length expectedBranches) _) as [[]|e] eqn:E; [exact I|].
      unfold forRange in E. apply forEach_error in E.
      destruct E as [i [Hi Hstep]]. apply in_seq in Hi. simpl in Hi.
      assert (Hi' : i < count d branchLinks) by lia.
      destruct (nth_of_counted d branchLinks i (nth i expectedBranches "") Hi')
        as [h [Hn Hs]].
      rewrite Hs in Hstep. destruct (contains_text _ _); [discriminate|].
      injection Hstep as <-. reflexivity.
    + rewrite Hf. reflexivity.
Qed.

(** ** Contact details *)

(** The contact information test passes exactly when the page has two
    links to the phone number, two links to the mail address and two
    [address] elements, the first of which contains [Wema Towers] and
    [54 Marina]; the second address is not read.  It never fails
    otherwise than by a failed expectation. *)
Theorem contact_test_reads_first_address_only :
  forall d : document,
    (test_contact_information d = Pass <->
     count d (link_to "tel:+2348039003700") = 2
     /\ count d (link_to "mailto:customercare@wemabank.com") = 2
     /\ exists h h', resolve d address = [h; h']
                     /\ contains_text "Wema Towers"
                                      (elementText d h) = true
                     /\ contains_text "54 Marina"
                                      (elementText d h) = true)
    /\ fails_only_by_expectation (test_contact_information d).
Proof.
  intros d. unfold test_contact_information, fails_only_by_expectation.
  destruct (toHaveCount_cases d (link_to "tel:+2348039003700") 2)
    as [[Hc1 Hp1] | [Hc1 Hf1]];
    [rewrite Hp1, pass_then | rewrite Hf1; cbn [bind]; split;
                   [split; [discriminate | tauto] | reflexivity]].
  destruct (toHaveCount_cases d (link_to "mailto:customercare@wemabank.com") 2)
    as [[Hc2 Hp2] | [Hc2 Hf2]];
    [rewrite Hp2, pass_then | rewrite Hf2; cbn [bind]; split;
                   [split; [discriminate | tauto] | reflexivity]].
  destruct (toHaveCount_cases d address 2) as [[Hc3 Hp3] | [Hc3 Hf3]].
  - rewrite Hp3, pass_then.
    unfold count in Hc3.
    destruct (resolve d address) as [|h [|h' [|h'' hs]]] eqn:Hres;
      try discriminate.
    assert (Hfirst : resolve d (First address) = [h])
      by (apply (resolve_first _ _ _ _ Hres)).
    rewrite !(text_of_one _ _ _ _ Hfirst).
    destruct (contains_text "Wema Towers" (elementText d h)) eqn:E1;
      rewrite ?pass_then; cbn [bind].
    + destruct (contains_text "54 Marina" (elementText d h)) eqn:E2.
      * split; [|exact I]. split; [|reflexivity].
        intros _. repeat split; try assumption. exists h, h'. tauto.
      * split; [|reflexivity]. split; [discriminate|].
        intros [_ [_ [k [k' [Hk [_ Hc]]]]]]. injection Hk as <- <-. congruence.
    + split; [|reflexivity]. split; [discriminate|].
      intros [_ [_ [k [k' [Hk [Hc _]]]]]]. injection Hk as <- <-. congruence.
  - rewrite Hf3. cbn [bind]. split; [|reflexivity].
    split; [discriminate|].
    intros [_ [_ [k [k' [Hk _]]]]]. unfold count in Hc3. rewrite Hk in Hc3.
    simpl in Hc3. contradiction.
Qed.

(** ** Social links and external links *)

(** When the social links check passes and every link that opens in a new
    tab is one of the social links, the external links test passes too:
    the exact [rel] value required of the social links includes both
    words the external links test looks for. *)
Theorem social_links_check_covers_external_links (d : document) :
  check_social_links d = Pass ->
  (forall h, In h (resolve d externalLinks) -> In h (resolve d socialLinks)) ->
  test_secure_external_links d = Pass.
Proof.
  intros Hsocial Hsub. apply ExternalLinks.secure_external_links_iff.
  intros h Hh.
  destruct (ExternalLinks.social_links_pass d Hsocial) as [_ Hall].
  destruct (Hall h (Hsub h Hh)) as [_ Hrel].
  unfold rel_includes. rewrite Hrel. split; by_running.
Qed.

(** The theorem on the landing page. *)
Lemma external_links_on_landing_page :
  test_secure_external_links Landing.page = Pass.
Proof.
  apply (social_links_check_covers_external_links Landing.page).
  - vm_compute. reflexivity.
  - assert (E : resolve Landing.page externalLinks
                = resolve Landing.page socialLinks)
      by (vm_compute; reflexivity).
    intros h Hh. rewrite <- E. exact Hh.
Defined.

End ContentFacts.
